(** * A model of the TAPIR belief-tree solver core

    This development embeds, function by function, the parts of the solver
    that its specification makes checkable statements about:

    - [ActionNode] (src/solver/ActionNode.cpp): the Q-value statistics of an
      action node and its access to child belief nodes;
    - [DiscreteObservationMap] (src/solver/mappings/discrete_observations.cpp):
      the exact observation mapping and its text serializer;
    - [Nav2DModel] (src/problems/nav2d/Nav2DModel.cpp): the path
      interpolation of the 2-D navigation problem, its change-file loader,
      and the map, sampling, step and update functions around them.

    C++ [long] values are integers of [Z] on which arithmetic leaving the
    64-bit range is undefined behaviour; [double] values of the solver are
    IEEE-754 binary64 numbers ([PrimFloat]), those of the navigation model
    real numbers, with the vector constructor that depends on the C
    library's [cos] and [sin] as a parameter; exceptions and undefined
    behaviour are results of an explicit [outcome] type. *)

From Stdlib Require Import ZArith Floats Reals Lra Lia.
From Stdlib Require Import Ascii String DecimalString DecimalPos DecimalZ.
From stdpp Require Import gmap strings list fin_maps sorting.

Local Open Scope Z_scope.

(** ** C++ evaluation outcomes, [long] arithmetic and [double] conversions *)

Module Cxx.

(** The one exception type the modelled code raises ([unordered_map::at]). *)
Inductive exception : Set :=
| out_of_range.

(** The ways in which the modelled code can leave defined behaviour. *)
Inductive undefined : Set :=
| null_dereference
| signed_overflow
| division_by_zero
| indeterminate_value.

Inductive outcome (A : Type) : Type :=
| Ok (a : A)
| Throw (e : exception)
| Undef (u : undefined).

Arguments Ok {A} a.
Arguments Throw {A} e.
Arguments Undef {A} u.

Definition bind {A B : Type} (c : outcome A) (k : A -> outcome B) : outcome B :=
  match c with
  | Ok a => k a
  | Throw e => Throw e
  | Undef u => Undef u
  end.

(** [try { body } catch (const std::out_of_range &) { handler }] *)
Definition try_catch {A : Type} (body handler : outcome A) : outcome A :=
  match body with
  | Throw out_of_range => handler
  | r => r
  end.

Definition LONG_MIN : Z := - 2 ^ 63.
Definition LONG_MAX : Z := 2 ^ 63 - 1.

Definition in_long (z : Z) : bool := (LONG_MIN <=? z) && (z <=? LONG_MAX).

(** The result of a [long] computation whose mathematical value is [z]:
    signed overflow is undefined. *)
Definition long_result (z : Z) : outcome Z :=
  if in_long z then Ok z else Undef signed_overflow.

Definition ladd (a b : Z) : outcome Z := long_result (a + b).
Definition lsub (a b : Z) : outcome Z := long_result (a - b).

(** Conversion [long -> double]: round to nearest, ties to even. *)
Definition double_of_long (z : Z) : float :=
  SF2Prim (binary_normalize prec emax z 0 false).

(** [x / n] for a [double] x and a [long] n.  The quotient of a division
    whose second operand is zero is not defined by the language; the model
    reports it so that its absence can be stated. *)
Definition fdiv_long (x : float) (n : Z) : outcome float :=
  if n =? 0 then Undef division_by_zero
  else Ok (PrimFloat.div x (double_of_long n)).

(** Outcomes that are neither an exception nor a division by zero. *)
Definition benign {A : Type} (r : outcome A) : Prop :=
  match r with
  | Ok _ => True
  | Throw _ => False
  | Undef u => u <> division_by_zero
  end.

End Cxx.

Import Cxx.

Notation "'let*' x ':=' c 'in' k" := (Cxx.bind c (fun x => k))
  (at level 10, x name, c at level 100, k at level 200, only parsing).
Notation "'let*' ' pat ':=' c 'in' k" :=
  (Cxx.bind c (fun x => match x with pat => k end))
  (at level 10, pat pattern, c at level 100, k at level 200, only parsing).

(** ** Collaborators of the modelled classes

    [BeliefNode], [ActionPool] and [ActionMapping] are classes of the solver
    whose sources are outside the files modelled here; the code below uses
    them only through the members gathered in these two interfaces. *)

Class BeliefNodeAPI (ActionMapping BeliefNode : Type) := {
  (** [BeliefNode(std::unique_ptr<ActionMapping>)] *)
  BeliefNode_new : ActionMapping -> BeliefNode;
  BeliefNode_getId : BeliefNode -> Z;
  BeliefNode_getNParticles : BeliefNode -> Z;
  numberOfStartingSequences_ : BeliefNode -> Z;
  numberOfEndingSequences_ : BeliefNode -> Z;
  BeliefNode_getQValue : BeliefNode -> float;
  BeliefNode_recalculateQValue : BeliefNode -> BeliefNode;
}.

(** [BeliefTree::setNode(id, node)] as its effect on the node it is given. *)
Class BeliefTreeAPI (BeliefNode : Type) := {
  BeliefTree_setNode : Z -> BeliefNode -> BeliefNode;
}.

Class ActionPoolAPI (ActionPool ActionMapping : Type) := {
  createActionMapping : ActionPool -> ActionMapping;
}.

(** Belief nodes live on the heap; a [BeliefNode *] is an address or null. *)
Abbreviation BeliefNodePtr := (option positive) (only parsing).
Abbreviation nullptr := (@None positive) (only parsing).

(** The abstract class [ObservationMapping], as the members that
    [DiscreteObservationMap] overrides. *)
Class ObservationMapping (Observation BeliefNode M : Type) := {
  getBelief : M -> Observation -> outcome BeliefNodePtr;
  createBelief : M -> Observation -> gmap positive BeliefNode ->
                 outcome (M * gmap positive BeliefNode * BeliefNodePtr);
  getNChildren : M -> Z;
  updateVisitCount : M -> Observation -> Z -> outcome M;
  getVisitCount : M -> Observation -> outcome Z;
  getTotalVisitCount : M -> Z;
}.

(** Reading through a [BeliefNode *]: the address and the node it holds.
    A null pointer and a pointer to a destroyed node cannot be read. *)
Definition deref {BeliefNode : Type} (heap : gmap positive BeliefNode)
    (p : BeliefNodePtr) : outcome (positive * BeliefNode) :=
  match p with
  | None => Undef null_dereference
  | Some l =>
      match heap !! l with
      | Some b => Ok (l, b)
      | None => Undef null_dereference
      end
  end.

(** ** src/solver/mappings/discrete_observations.cpp *)

Module DiscreteObservations.

Section Map.
Context {Observation : Type} `{Countable Observation}.
Context {ActionPool ActionMapping BeliefNode : Type}.
Context `{!BeliefNodeAPI ActionMapping BeliefNode}.
Context `{!ActionPoolAPI ActionPool ActionMapping}.

Record DiscreteObservationMapEntry := {
  childNode : BeliefNodePtr;
  visitCount : Z;
}.

(** [DiscreteObservationMapEntry entry;] with its default member values. *)
Definition default_entry : DiscreteObservationMapEntry :=
  {| childNode := nullptr; visitCount := 0 |}.

Record DiscreteObservationMap := {
  actionPool_ : ActionPool;
  childMap_ : gmap Observation DiscreteObservationMapEntry;
  totalVisitCount_ : Z;
}.

Definition DiscreteObservationMap_new (actionPool : ActionPool)
  : DiscreteObservationMap :=
  {| actionPool_ := actionPool; childMap_ := ∅; totalVisitCount_ := 0 |}.

(** [childMap_.at(key)] *)
Definition at_ (m : gmap Observation DiscreteObservationMapEntry)
    (obs : Observation) : outcome DiscreteObservationMapEntry :=
  match m !! obs with
  | Some e => Ok e
  | None => Throw out_of_range
  end.

Definition disc_getBelief (m : DiscreteObservationMap) (obs : Observation)
  : outcome BeliefNodePtr :=
  try_catch (let* e := at_ (childMap_ m) obs in Ok (childNode e))
            (Ok nullptr).

(** [emplace] inserts only when the key is absent; otherwise the entry built
    for it, and the node it owns, are destroyed before the call returns,
    while [nodePtr] is returned all the same. *)
Definition disc_createBelief (m : DiscreteObservationMap) (obs : Observation)
    (heap : gmap positive BeliefNode)
  : outcome (DiscreteObservationMap * gmap positive BeliefNode * BeliefNodePtr) :=
  let node := BeliefNode_new (createActionMapping (actionPool_ m)) in
  let nodePtr := fresh (dom heap) in
  let entry := {| childNode := Some nodePtr; visitCount := visitCount default_entry |} in
  match childMap_ m !! obs with
  | None =>
      Ok ({| actionPool_ := actionPool_ m;
             childMap_ := <[obs := entry]> (childMap_ m);
             totalVisitCount_ := totalVisitCount_ m |},
          <[nodePtr := node]> heap,
          Some nodePtr)
  | Some _ => Ok (m, heap, Some nodePtr)
  end.

Definition disc_getNChildren (m : DiscreteObservationMap) : Z :=
  Z.of_nat (size (childMap_ m)).

(** [childMap_[key]]: the entry of the key, default-constructed and stored
    when the key is new. *)
Definition subscript (m : gmap Observation DiscreteObservationMapEntry)
    (obs : Observation) : DiscreteObservationMapEntry :=
  default default_entry (m !! obs).

Definition disc_updateVisitCount (m : DiscreteObservationMap)
    (obs : Observation) (deltaNVisits : Z) : outcome DiscreteObservationMap :=
  let e := subscript (childMap_ m) obs in
  let* v := ladd (visitCount e) deltaNVisits in
  let* t := ladd (totalVisitCount_ m) deltaNVisits in
  Ok {| actionPool_ := actionPool_ m;
        childMap_ := <[obs := {| childNode := childNode e; visitCount := v |}]>
                       (childMap_ m);
        totalVisitCount_ := t |}.

Definition disc_getVisitCount (m : DiscreteObservationMap) (obs : Observation)
  : outcome Z :=
  let* e := at_ (childMap_ m) obs in Ok (visitCount e).

Definition disc_getTotalVisitCount (m : DiscreteObservationMap) : Z :=
  totalVisitCount_ m.

#[global] Instance DiscreteObservationMap_mapping
  : ObservationMapping Observation BeliefNode DiscreteObservationMap := {|
  getBelief := disc_getBelief;
  createBelief := disc_createBelief;
  getNChildren := disc_getNChildren;
  updateVisitCount := disc_updateVisitCount;
  getVisitCount := disc_getVisitCount;
  getTotalVisitCount := disc_getTotalVisitCount;
|}.

(** A call of the mapping's public interface that changes it, and the
    execution of a finite sequence of such calls. *)
Inductive map_call :=
| CallCreateBelief (obs : Observation)
| CallUpdateVisitCount (obs : Observation) (deltaNVisits : Z).

Definition call (c : map_call)
    (s : DiscreteObservationMap * gmap positive BeliefNode)
  : outcome (DiscreteObservationMap * gmap positive BeliefNode) :=
  match c with
  | CallCreateBelief obs =>
      let* '(m, heap, _) := disc_createBelief s.1 obs s.2 in Ok (m, heap)
  | CallUpdateVisitCount obs k =>
      let* m := disc_updateVisitCount s.1 obs k in Ok (m, s.2)
  end.

Fixpoint calls (cs : list map_call)
    (s : DiscreteObservationMap * gmap positive BeliefNode)
  : outcome (DiscreteObservationMap * gmap positive BeliefNode) :=
  match cs with
  | [] => Ok s
  | c :: cs' => let* s' := call c s in calls cs' s'
  end.

(** The sum of the [visitCount] fields over all entries. *)
Definition sum_visit_counts (m : DiscreteObservationMap) : Z :=
  map_fold (fun _ e acc => visitCount e + acc) 0 (childMap_ m).

(** The number of entries that own a child belief node. *)
Definition child_node_count (m : DiscreteObservationMap) : Z :=
  Z.of_nat (size (filter (fun kv => is_Some (childNode kv.2)) (childMap_ m))).

(** A bound on the absolute values of the cached total and of every
    entry's count, and what a call can add to it. *)
Definition within (bound : Z) (m : DiscreteObservationMap) : Prop :=
  Z.abs (totalVisitCount_ m) <= bound /\
  forall obs e, childMap_ m !! obs = Some e -> Z.abs (visitCount e) <= bound.

Definition call_weight (c : map_call) : Z :=
  match c with
  | CallCreateBelief _ => 0
  | CallUpdateVisitCount _ k => Z.abs k
  end.

(** The mapping owns its children: every child pointer it stores refers to
    a node of the heap, and no two entries refer to the same node. *)
Definition owns_children (m : DiscreteObservationMap)
    (heap : gmap positive BeliefNode) : Prop :=
  (forall obs e l,
      childMap_ m !! obs = Some e -> childNode e = Some l ->
      is_Some (heap !! l)) /\
  (forall obs1 obs2 e1 e2 l,
      childMap_ m !! obs1 = Some e1 -> childMap_ m !! obs2 = Some e2 ->
      childNode e1 = Some l -> childNode e2 = Some l -> obs1 = obs2).

End Map.

Arguments DiscreteObservationMapEntry : clear implicits.
Arguments DiscreteObservationMap : clear implicits.
Arguments DiscreteObservationMap Observation {_ _} ActionPool.

End DiscreteObservations.

(** ** src/solver/ActionNode.cpp *)

Module ActionNodes.

Section Node.
Context {Observation ActionMapping BeliefNode M : Type}.
Context `{!BeliefNodeAPI ActionMapping BeliefNode}.
Context `{!ObservationMapping Observation BeliefNode M}.

(** [obsMap_] is a [std::unique_ptr<ObservationMapping>]: it may be null. *)
Record ActionNode := {
  nParticles_ : Z;
  totalQValue_ : float;
  meanQValue_ : float;
  obsMap_ : option M;
}.

(** [ActionNode(std::unique_ptr<ObservationMapping> mapping)] *)
Definition ActionNode_new (mapping : option M) : ActionNode :=
  {| nParticles_ := 0;
     totalQValue_ := 0%float;
     meanQValue_ := neg_infinity;
     obsMap_ := mapping |}.

(** [ActionNode()] *)
Definition ActionNode_default : ActionNode := ActionNode_new None.

Definition recalculateQValue (a : ActionNode) : outcome ActionNode :=
  if 0 <? nParticles_ a then
    let* q := fdiv_long (totalQValue_ a) (nParticles_ a) in
    Ok {| nParticles_ := nParticles_ a;
          totalQValue_ := totalQValue_ a;
          meanQValue_ := q;
          obsMap_ := obsMap_ a |}
  else
    Ok {| nParticles_ := nParticles_ a;
          totalQValue_ := 0%float;
          meanQValue_ := neg_infinity;
          obsMap_ := obsMap_ a |}.

Definition changeTotalQValue (a : ActionNode) (deltaQ : float)
    (deltaNParticles : Z) : outcome ActionNode :=
  let total := (totalQValue_ a + deltaQ)%float in
  let* n := ladd (nParticles_ a) deltaNParticles in
  recalculateQValue {| nParticles_ := n;
                       totalQValue_ := total;
                       meanQValue_ := meanQValue_ a;
                       obsMap_ := obsMap_ a |}.

Definition getNParticles (a : ActionNode) : Z := nParticles_ a.
Definition getTotalQValue (a : ActionNode) : float := totalQValue_ a.
Definition getQValue (a : ActionNode) : float := meanQValue_ a.
Definition getMapping (a : ActionNode) : option M := obsMap_ a.

(** [obsMap_->getBelief(obs)] *)
Definition getChild (a : ActionNode) (obs : Observation)
  : outcome BeliefNodePtr :=
  match obsMap_ a with
  | None => Undef null_dereference
  | Some m => getBelief m obs
  end.

Definition updateSequenceCount (a : ActionNode) (observation : Observation)
    (discountFactor : float) (deltaNParticles : Z)
    (heap : gmap positive BeliefNode)
  : outcome (ActionNode * gmap positive BeliefNode) :=
  let* childBelief := getChild a observation in
  let* '(l, b) := deref heap childBelief in
  let newSequenceCount := BeliefNode_getNParticles b in
  let* newSequenceCount := lsub newSequenceCount (numberOfStartingSequences_ b) in
  let* newSequenceCount := ladd newSequenceCount (numberOfEndingSequences_ b) in
  let* oldSequenceCount := lsub newSequenceCount deltaNParticles in
  let oldChildQ := BeliefNode_getQValue b in
  let b' := BeliefNode_recalculateQValue b in
  let newChildQ := BeliefNode_getQValue b' in
  let total := totalQValue_ a in
  let total :=
    if negb (oldSequenceCount =? 0) then
      (total - double_of_long oldSequenceCount * discountFactor * oldChildQ)%float
    else total in
  let total :=
    if negb (newSequenceCount =? 0) then
      (total + double_of_long newSequenceCount * discountFactor * newChildQ)%float
    else total in
  let* n := ladd (nParticles_ a) deltaNParticles in
  let* a' := recalculateQValue {| nParticles_ := n;
                                  totalQValue_ := total;
                                  meanQValue_ := meanQValue_ a;
                                  obsMap_ := obsMap_ a |} in
  Ok (a', <[l := b']> heap).

Definition createOrGetChild (a : ActionNode) (obs : Observation)
    (heap : gmap positive BeliefNode)
  : outcome (ActionNode * gmap positive BeliefNode * (BeliefNodePtr * bool)) :=
  let* beliefChild := getChild a obs in
  match beliefChild with
  | Some l => Ok (a, heap, (Some l, false))
  | None =>
      match obsMap_ a with
      | None => Undef null_dereference
      | Some m =>
          let* '(m', heap', beliefChild) := createBelief m obs heap in
          Ok ({| nParticles_ := nParticles_ a;
                 totalQValue_ := totalQValue_ a;
                 meanQValue_ := meanQValue_ a;
                 obsMap_ := Some m' |},
              heap', (beliefChild, true))
      end
  end.

(** The mean is the total over the visit count for a visited node, and the
    sentinel for a node with no visit. *)
Definition mean_consistent (a : ActionNode) : Prop :=
  (0 < nParticles_ a ->
   meanQValue_ a = (totalQValue_ a / double_of_long (nParticles_ a))%float) /\
  (nParticles_ a = 0 -> meanQValue_ a = neg_infinity).

(** What an update may end in: a node with a consistent mean, or undefined
    behaviour other than a division by zero; never an exception. *)
Definition update_safe (r : outcome ActionNode) : Prop :=
  match r with
  | Ok a' => mean_consistent a'
  | Throw _ => False
  | Undef u => u <> division_by_zero
  end.

(** A node with particle count 0 holds no accumulated return. *)
Definition unvisited_reset (a : ActionNode) : Prop :=
  nParticles_ a = 0 ->
  totalQValue_ a = 0%float /\ meanQValue_ a = neg_infinity.

(** The members of [ActionNode] that can change a node. *)
Inductive operation :=
| OpChangeTotalQValue (deltaQ : float) (deltaNParticles : Z)
| OpUpdateSequenceCount (obs : Observation) (discountFactor : float)
    (deltaNParticles : Z)
| OpRecalculateQValue
| OpCreateOrGetChild (obs : Observation).

Definition perform (op : operation) (a : ActionNode)
    (heap : gmap positive BeliefNode)
  : outcome (ActionNode * gmap positive BeliefNode) :=
  match op with
  | OpChangeTotalQValue dq dn =>
      let* a' := changeTotalQValue a dq dn in Ok (a', heap)
  | OpUpdateSequenceCount obs g dn => updateSequenceCount a obs g dn heap
  | OpRecalculateQValue => let* a' := recalculateQValue a in Ok (a', heap)
  | OpCreateOrGetChild obs =>
      let* '(a', heap', _) := createOrGetChild a obs heap in Ok (a', heap')
  end.

(** The incremental sequence-count formula in the words of the
    specification: a term whose sequence count is zero contributes nothing. *)
Definition sequence_term (count : Z) (discount childQ : float) : option float :=
  if count =? 0 then None
  else Some (double_of_long count * discount * childQ)%float.

Definition sequence_formula (sumQ : float) (oldSeq newSeq : Z)
    (discount oldChildQ newChildQ : float) : float :=
  let s1 := match sequence_term oldSeq discount oldChildQ with
            | Some t => (sumQ - t)%float
            | None => sumQ
            end in
  match sequence_term newSeq discount newChildQ with
  | Some t => (s1 + t)%float
  | None => s1
  end.

End Node.

Arguments ActionNode : clear implicits.

End ActionNodes.

(** ** Text streams

    [std::istringstream] and [std::ifstream] as the characters still to be
    read and the two state bits the modelled code can observe.  Integers
    are written and read in decimal ([operator<<] and [operator>>] on
    [long] in the C locale). *)

Module Streams.

Local Open Scope string_scope.

Record istream := {
  buffer : string;
  eofbit : bool;
  failbit : bool;
}.

(** [std::istringstream s(text)] *)
Definition istringstream (text : string) : istream :=
  {| buffer := text; eofbit := false; failbit := false |}.

(** [std::ifstream ifs; ifs.open(path)]: the content of the file, or a
    stream in the failed state when the file cannot be opened. *)
Definition ifstream_open (file : option string) : istream :=
  match file with
  | Some content => istringstream content
  | None => {| buffer := ""; eofbit := false; failbit := true |}
  end.

Definition good (ins : istream) : bool := negb (eofbit ins) && negb (failbit ins).

Definition newline : ascii := "010"%char.
Definition tab : ascii := "009"%char.

Definition isspace (c : ascii) : bool :=
  let n := N_of_ascii c in
  ((n =? 32) || ((9 <=? n) && (n <=? 13)))%N.

Fixpoint skip_spaces (s : string) : string :=
  match s with
  | String c s' => if isspace c then skip_spaces s' else s
  | EmptyString => EmptyString
  end.

(** The sentry of a formatted input function: it fails on a stream that
    is not good, and otherwise skips white space, failing when the input
    ends there. *)
Definition sentry (ins : istream) : istream * bool :=
  if good ins then
    match skip_spaces (buffer ins) with
    | EmptyString => ({| buffer := ""; eofbit := true; failbit := true |}, false)
    | rest => ({| buffer := rest; eofbit := false; failbit := false |}, true)
    end
  else ({| buffer := buffer ins; eofbit := eofbit ins; failbit := true |}, false).

(** The characters up to the next white space, and what follows them. *)
Fixpoint take_word (s : string) : string * string :=
  match s with
  | String c s' =>
      if isspace c then (EmptyString, s)
      else let '(w, rest) := take_word s' in (String c w, rest)
  | EmptyString => (EmptyString, EmptyString)
  end.

Definition at_end (s : string) : bool :=
  match s with EmptyString => true | _ => false end.

(** [is >> str] for a [std::string]; [old] is the value of [str] before. *)
Definition read_string (ins : istream) (old : string) : istream * string :=
  let '(ins1, ok) := sentry ins in
  if ok then
    let '(w, rest) := take_word (buffer ins1) in
    ({| buffer := rest; eofbit := at_end rest; failbit := false |}, w)
  else (ins1, old).

Definition digit (c : ascii) : option (Decimal.uint -> Decimal.uint) :=
  match c with
  | "0"%char => Some Decimal.D0
  | "1"%char => Some Decimal.D1
  | "2"%char => Some Decimal.D2
  | "3"%char => Some Decimal.D3
  | "4"%char => Some Decimal.D4
  | "5"%char => Some Decimal.D5
  | "6"%char => Some Decimal.D6
  | "7"%char => Some Decimal.D7
  | "8"%char => Some Decimal.D8
  | "9"%char => Some Decimal.D9
  | _ => None
  end.

(** The longest prefix of decimal digits, and what follows it. *)
Fixpoint take_digits (s : string) : Decimal.uint * string :=
  match s with
  | String c s' =>
      match digit c with
      | Some d => let '(ds, rest) := take_digits s' in (d ds, rest)
      | None => (Decimal.Nil, s)
      end
  | EmptyString => (Decimal.Nil, EmptyString)
  end.

(** The conversion of [num_get] for [long]: an optional sign and decimal
    digits.  Without a digit the value is 0 and the conversion fails; a
    value outside [long] is clamped and the conversion fails. *)
Definition parse_long (s : string) : Z * bool * string :=
  let '(negative, s1) :=
    match s with
    | String "-"%char r => (true, r)
    | String "+"%char r => (false, r)
    | _ => (false, s)
    end in
  let '(ds, rest) := take_digits s1 in
  match ds with
  | Decimal.Nil => (0%Z, true, rest)
  | _ =>
      let v := if negative then (- Z.of_uint ds)%Z else Z.of_uint ds in
      if in_long v then (v, false, rest)
      else (if negative then LONG_MIN else LONG_MAX, true, rest)
  end.

(** [is >> n] for a [long]; [old] is the value of [n] before, [None] for a
    variable that has not been given a value. *)
Definition read_long (ins : istream) (old : option Z) : istream * option Z :=
  let '(ins1, ok) := sentry ins in
  if ok then
    let '(v, failed, rest) := parse_long (buffer ins1) in
    ({| buffer := rest; eofbit := at_end rest; failbit := failed |}, Some v)
  else (ins1, old).

(** Reading a [long] variable: indeterminate when it was never written. *)
Definition use (v : option Z) : outcome Z :=
  match v with
  | Some z => Ok z
  | None => Undef indeterminate_value
  end.

(** The characters before the first [delim], and what follows it, if it
    occurs. *)
Fixpoint take_until (delim : ascii) (s : string) : string * option string :=
  match s with
  | String c s' =>
      if Ascii.eqb c delim then (EmptyString, Some s')
      else let '(l, rest) := take_until delim s' in (String c l, rest)
  | EmptyString => (EmptyString, None)
  end.

(** [std::getline(is, str, delim)]; [old] is the value of [str] before,
    which a stream that is not good leaves as it is. *)
Definition getline (ins : istream) (delim : ascii) (old : string)
  : istream * string :=
  if good ins then
    match take_until delim (buffer ins) with
    | (l, Some rest) =>
        ({| buffer := rest; eofbit := false; failbit := false |}, l)
    | (l, None) =>
        ({| buffer := ""; eofbit := true; failbit := at_end l |}, l)
    end
  else ({| buffer := buffer ins; eofbit := eofbit ins; failbit := true |}, old).

(** No occurrence of a character in a text. *)
Definition avoids (c : ascii) (text : string) : Prop :=
  forall x, In x (list_ascii_of_string text) -> x <> c.

(** [os << n] for a [long]. *)
Definition string_of_long (n : Z) : string :=
  NilZero.string_of_int (Z.to_int n).

(** [os << std::endl] *)
Definition endl : string := String newline EmptyString.

(** A text that does not continue a number: it is empty or starts with a
    character that is no digit. *)
Definition no_digit_head (s : string) : Prop :=
  match s with
  | String c _ => digit c = None
  | EmptyString => True
  end.

(** A text that starts with a visible character other than a sign. *)
Definition digit_head (s : string) : Prop :=
  match s with
  | String c _ => isspace c = false /\ c <> "-"%char /\ c <> "+"%char
  | EmptyString => False
  end.

(** What a loop over [getline] can still read: the characters left, and
    one more step while the stream is good. *)
Definition remaining_input (ins : istream) : nat :=
  String.length (buffer ins) + (if good ins then 1 else 0).

End Streams.

(** ** src/solver/mappings/discrete_observations.cpp: the text serializer *)

Module DiscreteSerializer.
Import Streams DiscreteObservations.

Local Open Scope string_scope.

Definition INT_MAX : Z := 2 ^ 31 - 1.

(** [operator<] of [std::string], as the order [std::sort] uses. *)
Definition string_le (a b : string) : Prop := String.leb a b = true.

#[global] Instance string_le_dec (a b : string) : Decision (string_le a b).
Proof. unfold string_le. apply _. Defined.

Section Serializer.
Context {Observation : Type} `{Countable Observation}.
Context {ActionPool ActionMapping BeliefNode : Type}.
Context `{!BeliefNodeAPI ActionMapping BeliefNode}.
Context `{!ActionPoolAPI ActionPool ActionMapping}.
Context `{!BeliefTreeAPI BeliefNode}.

(** The virtual members [saveObservation(obs, os)] and
    [loadObservation(is)] of the serializer, which the problem supplies. *)
Variable saveObservation : Observation -> string.
Variable loadObservation : istream -> istream * option Observation.

Abbreviation Map := (DiscreteObservationMap Observation ActionPool).

(** The line that the loop of [saveObservationMapping] builds for an
    entry; it reads the id through the child pointer. *)
Definition entry_line (heap : gmap positive BeliefNode)
    (entry : Observation * DiscreteObservationMapEntry) : outcome string :=
  let sstr := String tab "" in
  let sstr := sstr ++ saveObservation entry.1 in
  let* '(_, node) := deref heap (childNode entry.2) in
  let sstr := sstr ++ " -> NODE " ++ string_of_long (BeliefNode_getId node) in
  let sstr := sstr ++ "; " ++ string_of_long (visitCount entry.2) ++ " visits" in
  let sstr := sstr ++ endl in
  Ok sstr.

Fixpoint entry_lines (heap : gmap positive BeliefNode)
    (entries : list (Observation * DiscreteObservationMapEntry))
  : outcome (list string) :=
  match entries with
  | [] => Ok []
  | entry :: entries' =>
      let* line := entry_line heap entry in
      let* lines := entry_lines heap entries' in
      Ok (line :: lines)
  end.

(** [saveObservationMapping(map, os)]: the text appended to [os]. *)
Definition saveObservationMapping (discMap : Map)
    (heap : gmap positive BeliefNode) : outcome string :=
  let os := string_of_long (disc_getNChildren discMap) ++ " observation children; " in
  let os := os ++ string_of_long (disc_getTotalVisitCount discMap)
               ++ " visits {" ++ endl in
  let* lines := entry_lines heap (map_to_list (childMap_ discMap)) in
  let lines := merge_sort string_le lines in
  let os := foldl (fun os line => os ++ line) os lines in
  Ok (os ++ "}" ++ endl).

(** [solver_->getPolicy()->setNode(childId, node)] *)
Definition setNode (childId : Z) (node : BeliefNodePtr)
    (heap : gmap positive BeliefNode) : outcome (gmap positive BeliefNode) :=
  let* '(l, b) := deref heap node in
  Ok (<[l := BeliefTree_setNode childId b]> heap).

(** The loop [for (int i = 0; i < nChildren; i++)] of
    [loadObservationMapping], with [count] iterations left. *)
Fixpoint load_entries (count : nat) (ins : istream) (line tmpStr : string)
    (discMap : Map) (heap : gmap positive BeliefNode)
  : outcome (istream * string * Map * gmap positive BeliefNode) :=
  match count with
  | O => Ok (ins, line, discMap, heap)
  | S count' =>
      let '(ins, line) := getline ins newline line in
      let entryStream := istringstream line in
      let '(entryStream, obs) := loadObservation entryStream in
      let '(entryStream, tmpStr) := read_string entryStream tmpStr in
      let '(entryStream, tmpStr) := read_string entryStream tmpStr in
      let '(entryStream, tmpStr) := getline entryStream ";"%char tmpStr in
      let '(_, childId) := read_long (istringstream tmpStr) None in
      let '(entryStream, visits) := read_long entryStream None in
      let* obs := match obs with
                  | Some o => Ok o
                  | None => Undef null_dereference
                  end in
      let* '(discMap, heap, node) := disc_createBelief discMap obs heap in
      let* childId := use childId in
      let* heap := setNode childId node heap in
      let* visits := use visits in
      let discMap :=
        {| actionPool_ := actionPool_ discMap;
           childMap_ :=
             <[obs := {| childNode := childNode (subscript (childMap_ discMap) obs);
                         visitCount := visits |}]> (childMap_ discMap);
           totalVisitCount_ := totalVisitCount_ discMap |} in
      load_entries count' ins line tmpStr discMap heap
  end.

(** [loadObservationMapping(is)], for the action pool of the observation
    pool that creates the mapping: the stream after the mapping's text, the
    mapping, and the heap with the child nodes it allocates. *)
Definition loadObservationMapping (actionPool : ActionPool) (ins : istream)
    (heap : gmap positive BeliefNode)
  : outcome (istream * Map * gmap positive BeliefNode) :=
  let discMap := DiscreteObservationMap_new actionPool in
  let '(ins, line) := getline ins newline "" in
  let totalsStream := istringstream line in
  let '(totalsStream, nChildren) := read_long totalsStream None in
  let '(totalsStream, tmpStr) := read_string totalsStream "" in
  let '(totalsStream, tmpStr) := read_string totalsStream tmpStr in
  let '(totalsStream, total) :=
    read_long totalsStream (Some (totalVisitCount_ discMap)) in
  let* total := use total in
  let discMap := {| actionPool_ := actionPool_ discMap;
                    childMap_ := childMap_ discMap;
                    totalVisitCount_ := total |} in
  let* nChildren := use nChildren in
  if (INT_MAX <? nChildren)%Z then Undef signed_overflow
  else
    let* '(ins, line, discMap, heap) :=
      load_entries (Z.to_nat nChildren) ins line tmpStr discMap heap in
    let '(ins, line) := getline ins newline line in
    Ok (ins, discMap, heap).

(** The id of the node that an entry's child pointer refers to. *)
Definition child_id (heap : gmap positive BeliefNode)
    (e : DiscreteObservationMapEntry) : option Z :=
  match childNode e with
  | Some l => BeliefNode_getId <$> heap !! l
  | None => None
  end.

(** What saving and loading keep of a mapping: the entries' observations,
    visit counts and child ids, and the total visit count. *)
Definition same_content (m : Map) (heap : gmap positive BeliefNode)
    (m' : Map) (heap' : gmap positive BeliefNode) : Prop :=
  disc_getNChildren m' = disc_getNChildren m /\
  disc_getTotalVisitCount m' = disc_getTotalVisitCount m /\
  forall obs : Observation,
    match childMap_ m !! obs, childMap_ m' !! obs with
    | Some e, Some e' =>
        visitCount e' = visitCount e /\
        is_Some (child_id heap' e') /\
        child_id heap' e' = child_id heap e
    | None, None => True
    | _, _ => False
    end.

(** A mapping that can be written: every entry has a child node, the
    numbers are [long] values and the number of entries is an [int]. *)
Definition writable (m : Map) (heap : gmap positive BeliefNode) : Prop :=
  (Z.of_nat (size (childMap_ m)) <= INT_MAX)%Z /\
  in_long (totalVisitCount_ m) = true /\
  forall obs e, childMap_ m !! obs = Some e ->
    in_long (visitCount e) = true /\
    exists id, child_id heap e = Some id /\ in_long id = true.

(** What the round trip needs of the problem's observation serializer:
    the text of an observation has no line break, and is read back from the
    start of an entry line, up to the arrow. *)
Definition observation_round_trip : Prop :=
  forall (obs : Observation) (rest : string),
    avoids newline (saveObservation obs) /\
    loadObservation
      (istringstream (String tab "" ++ saveObservation obs ++ " -> NODE " ++ rest))
    = (istringstream (" -> NODE " ++ rest), Some obs).

(** What an entry contributes to the saved text: its observation, the id
    of its child and its visit count. *)
Definition entry_record (heap : gmap positive BeliefNode)
    (entry : Observation * DiscreteObservationMapEntry) : Observation * Z * Z :=
  (entry.1, default 0%Z (child_id heap entry.2), visitCount entry.2).

(** The entry line of the persisted format, with its line break. *)
Definition record_line (r : Observation * Z * Z) : string :=
  String tab "" ++ saveObservation r.1.1 ++ " -> NODE " ++ string_of_long r.1.2
  ++ "; " ++ string_of_long r.2 ++ " visits" ++ endl.

(** The header line of the persisted format, without its line break. *)
Definition header_line (nChildren totalVisits : Z) : string :=
  string_of_long nChildren ++ " observation children; "
  ++ string_of_long totalVisits ++ " visits {".

Definition concat_text (lines : list string) : string :=
  foldr String.append "" lines.

(** The entry line without its line break. *)
Definition record_body (r : Observation * Z * Z) : string :=
  String tab "" ++ saveObservation r.1.1 ++ " -> NODE " ++ string_of_long r.1.2
  ++ "; " ++ string_of_long r.2 ++ " visits".

(** What the loading loop makes of a list of records. *)
Definition loaded_records (records : list (Observation * Z * Z))
    (m0 : Map) (h0 : gmap positive BeliefNode)
    (m' : Map) (h' : gmap positive BeliefNode) : Prop :=
  actionPool_ m' = actionPool_ m0 /\
  totalVisitCount_ m' = totalVisitCount_ m0 /\
  h0 ⊆ h' /\
  (forall obs, obs ∉ records.*1.*1 -> childMap_ m' !! obs = childMap_ m0 !! obs) /\
  (forall obs id visits, (obs, id, visits) ∈ records ->
     exists l b,
       childMap_ m' !! obs = Some {| childNode := Some l; visitCount := visits |} /\
       h' !! l = Some b /\ BeliefNode_getId b = id).

End Serializer.

End DiscreteSerializer.

(** ** src/problems/nav2d/Nav2DModel.cpp: path interpolation

    The [double] values of the navigation model are taken as real numbers:
    sums, products and comparisons of doubles as those of reals, without
    their rounding.  The vector that the constructor
    [Vector2D(magnitude, direction)] builds is not computed here: it comes
    from the C library's [cos] and [sin], whose results are not fixed bit
    for bit and are not the exact values (in binary64 the cosine of a
    quarter turn, [cos(2 * M_PI * 0.25)], is about 6.1e-17 and not 0), and
    the points that the loop of [tryPath] tests depend on it.  The
    constructor is a parameter of the model. *)

Module Nav2D.

Local Open Scope R_scope.

(** Modelled from the spec: [geometry::Point2D], a point of the plane by
    its Cartesian coordinates.  The classes of problems/shared/geometry are
    outside the modelled files. *)
Record Point2D := { getX : R; getY : R }.

(** Modelled from the spec: [geometry::Vector2D], a displacement by its
    Cartesian components. *)
Record Vector2D := { vecX : R; vecY : R }.

(** [Vector2D(magnitude, direction)], the constructor of the absent
    geometry class: the vector of that length and heading as the library
    computes it, from the rounded cosine and sine of the heading.  Headings
    are measured in revolutions (the model charges [costPerRevolution] per
    unit of turn, and a quarter turn is 0.25), so that heading 0.25 faces
    the point (0,5) from the origin. *)
Class Vector2DAPI := {
  Vector2D_polar : R -> R -> Vector2D;
}.

(** Modelled from the spec: [point + vector]. *)
Definition translate (p : Point2D) (v : Vector2D) : Point2D :=
  {| getX := getX p + vecX v; getY := getY p + vecY v |}.

(** Modelled from the spec: [scalar * vector]. *)
Definition scale (s : R) (v : Vector2D) : Vector2D :=
  {| vecX := s * vecX v; vecY := s * vecY v |}.

(** Modelled from the spec: [point - point]. *)
Definition displacement (p q : Point2D) : Vector2D :=
  {| vecX := getX p - getX q; vecY := getY p - getY q |}.

(** Modelled from the spec: [vector.getMagnitude()], the Euclidean length. *)
Definition getMagnitude (v : Vector2D) : R :=
  sqrt (vecX v * vecX v + vecY v * vecY v).


(** Modelled from the spec:
    [Nav2DState(x, y, direction, costPerUnitDistance, costPerRevolution)],
    the state class of the absent Nav2DState.cpp, by the arguments of its
    constructor. *)
Record Nav2DState := {
  getPosition : Point2D;
  getDirection : R;
  stateCostPerUnitDistance : R;
  stateCostPerRevolution : R;
}.

(** [AreaType], by the enumerators that [areaTypeToString] and
    [parseAreaType] of Nav2DModel.cpp name. *)
Inductive AreaType :=
| EMPTY | WORLD | START | OBSERVATION | GOAL | OBSTACLE | OUT_OF_BOUNDS.

Section Model.

(** [geometry::Rectangle2D] and its member [contains(point)]. *)
Context {Rectangle2D : Type}.
Variable contains : Rectangle2D -> Point2D -> bool.
Context `{!Vector2DAPI}.

(** The members of [Nav2DModel] that the path computation reads;
    [AreasById] maps area ids to rectangles. *)
Record Nav2DModel := {
  timeStepLength_ : R;
  costPerUnitTime_ : R;
  interpolationStepCount_ : Z;
  crashPenalty_ : R;
  goalReward_ : R;
  maxSpeed_ : R;
  costPerUnitDistance_ : R;
  costPerRevolution_ : R;
  mapArea_ : Rectangle2D;
  startAreas_ : gmap Z Rectangle2D;
  observationAreas_ : gmap Z Rectangle2D;
  goalAreas_ : gmap Z Rectangle2D;
  obstacles_ : gmap Z Rectangle2D;
}.

(** [getAreas(type)]: a null pointer for the types that have no table. *)
Definition getAreas (model : Nav2DModel) (type : AreaType)
  : option (gmap Z Rectangle2D) :=
  match type with
  | GOAL => Some (goalAreas_ model)
  | OBSTACLE => Some (obstacles_ model)
  | START => Some (startAreas_ model)
  | OBSERVATION => Some (observationAreas_ model)
  | _ => None
  end.

(** [isInside(point, type)]: whether some area of the type's table contains
    the point.  The C++ dereferences the result of [getAreas] unchecked;
    [tryPath] asks for [OBSTACLE] and [GOAL] only, which have tables. *)
Definition isInside (model : Nav2DModel) (point : Point2D) (type : AreaType)
  : bool :=
  match getAreas model type with
  | Some areas =>
      existsb (fun entry => contains entry.2 point) (map_to_list areas)
  | None => false
  end.

(** The second argument of the [Vector2D] constructor in the expression
    [Vector2D(radius, direction + turnAmount > 0 ? 0.25 : -0.25)]: the sum
    binds tighter than the comparison, and the comparison tighter than the
    conditional, so the argument is one of the two constants, chosen by the
    sign of the sum. *)
Definition rotation_angle (direction turnAmount : R) : R :=
  if Rlt_dec 0 (direction + turnAmount) then 0.25 else - 0.25.

(** The formula the specification intends for the same argument. *)
Definition intended_rotation_angle (direction turnAmount : R) : R :=
  direction + (if Rlt_dec 0 turnAmount then 0.25 else - 0.25).

(** The local variables of [tryPath] that the loop updates. *)
Record Progress := {
  currentScalar : R;
  currentPosition : Point2D;
  currentDirection : R;
  inGoal : bool;
  hasCollision : bool;
}.

(** The loop [for (long step = 1; step <= interpolationStepCount_; step++)],
    from the iteration for [step] on, with [remaining] iterations left
    before the bound. *)
Fixpoint interpolate (model : Nav2DModel) (position : Point2D)
    (direction : R) (velocity : Vector2D) (radius turnAmount : R)
    (center : Point2D) (remaining : nat) (step : Z) (cur : Progress)
  : Progress :=
  match remaining with
  | O => cur
  | S remaining' =>
      let scalar := IZR step / IZR (interpolationStepCount_ model) in
      let dir :=
        if Req_dec_T turnAmount 0 then currentDirection cur
        else direction + scalar * turnAmount in
      let pos :=
        if Req_dec_T turnAmount 0 then translate position (scale scalar velocity)
        else translate center
               (Vector2D_polar radius (rotation_angle dir turnAmount)) in
      if negb (contains (mapArea_ model) pos) || isInside model pos OBSTACLE
      then {| currentScalar := currentScalar cur;
              currentPosition := currentPosition cur;
              currentDirection := currentDirection cur;
              inGoal := inGoal cur;
              hasCollision := true |}
      else if isInside model pos GOAL
      then {| currentScalar := scalar;
              currentPosition := pos;
              currentDirection := dir;
              inGoal := true;
              hasCollision := hasCollision cur |}
      else interpolate model position direction velocity radius turnAmount
             center remaining' (step + 1)
             {| currentScalar := scalar;
                currentPosition := pos;
                currentDirection := dir;
                inGoal := inGoal cur;
                hasCollision := hasCollision cur |}
  end.

(** [tryPath] up to the end of its loop.  For [rotationalSpeed = 0] the
    C++ [radius] is a quotient by zero (infinite or not a number, no trap);
    [turnAmount] is then 0 and neither [radius] nor [center] is read. *)
Definition tryPath_progress (model : Nav2DModel) (state : Nav2DState)
    (speed rotationalSpeed : R) : Progress :=
  let position := getPosition state in
  let direction := getDirection state in
  let radius := speed / (2 * PI * rotationalSpeed) in
  let turnAmount := rotationalSpeed * timeStepLength_ model in
  let velocity := Vector2D_polar speed direction in
  let center :=
    translate position
      (Vector2D_polar radius (rotation_angle direction turnAmount)) in
  interpolate model position direction velocity radius turnAmount center
    (Z.to_nat (interpolationStepCount_ model)) 1
    {| currentScalar := 0;
       currentPosition := position;
       currentDirection := direction;
       inGoal := false;
       hasCollision := false |}.

Definition tryPath (model : Nav2DModel) (state : Nav2DState)
    (speed rotationalSpeed : R) : Nav2DState * R :=
  let position := getPosition state in
  let radius := speed / (2 * PI * rotationalSpeed) in
  let turnAmount := rotationalSpeed * timeStepLength_ model in
  let p := tryPath_progress model state speed rotationalSpeed in
  let resultingState :=
    {| getPosition := {| getX := getX (currentPosition p);
                         getY := getY (currentPosition p) |};
       getDirection := currentDirection p;
       stateCostPerUnitDistance := costPerUnitDistance_ model;
       stateCostPerRevolution := costPerRevolution_ model |} in
  let actualTurnAmount :=
    if Req_dec_T turnAmount 0 then 0 else Rabs (currentScalar p * turnAmount) in
  let actualDistance :=
    if Req_dec_T turnAmount 0
    then getMagnitude (displacement (currentPosition p) position)
    else 2 * PI * actualTurnAmount * radius in
  let reward := 0 in
  let reward := reward - costPerUnitTime_ model * timeStepLength_ model in
  let reward := reward - costPerUnitDistance_ model * actualDistance in
  let reward := reward - costPerRevolution_ model * actualTurnAmount in
  let reward := if inGoal p then reward + goalReward_ model else reward in
  let reward := if hasCollision p then reward - crashPenalty_ model else reward in
  (resultingState, reward).


(** A point at which the loop of [tryPath] neither stops nor collides. *)
Definition free (model : Nav2DModel) (p : Point2D) : Prop :=
  contains (mapArea_ model) p = true /\
  isInside model p OBSTACLE = false /\
  isInside model p GOAL = false.

(** The point that the loop reaches at iteration [step] on a straight path. *)
Definition straight_point (model : Nav2DModel) (position : Point2D)
    (velocity : Vector2D) (step : Z) : Point2D :=
  translate position
    (scale (IZR step / IZR (interpolationStepCount_ model)) velocity).

End Model.

Arguments Nav2DModel : clear implicits.

End Nav2D.

(** ** src/problems/nav2d/Nav2DModel.cpp: the change file *)

Module Nav2DChanges.
Import Streams.
Import Nav2D.

Local Open Scope string_scope.

Definition INT_MAX : Z := 2 ^ 31 - 1.

(** [parseAreaType(text)], with what it writes to [cerr]. *)
Definition parseAreaType (text : string) : AreaType * string :=
  if String.eqb text "World" then (WORLD, "")
  else if String.eqb text "Start" then (START, "")
  else if String.eqb text "Observation" then (OBSERVATION, "")
  else if String.eqb text "Goal" then (GOAL, "")
  else if String.eqb text "Obstacle" then (OBSTACLE, "")
  else if String.eqb text "Empty" then (EMPTY, "")
  else if String.eqb text "OOB" then (OUT_OF_BOUNDS, "")
  else (EMPTY, "ERROR: Invalid area type: " ++ text).

Section Loader.

(** [geometry::Rectangle2D], the value its default constructor builds, and
    its extraction operator [is >> rectangle]. *)
Context {Rectangle2D : Type}.
Variable Rectangle2D_default : Rectangle2D.
Variable read_Rectangle2D : istream -> Rectangle2D -> istream * Rectangle2D.

(** [struct Nav2DChange]; the [id] of a change is indeterminate ([None])
    when the line ends before it. *)
Record Nav2DChange := {
  operation : string;
  type : AreaType;
  id : option Z;
  area : Rectangle2D;
}.

(** The body of the inner loop after its [getline]: the change that the
    line adds to [changes_[time]], if any, and what it writes to [cerr]. *)
Definition read_change (line : string) : option Nav2DChange * string :=
  let sstr := istringstream line in
  let '(sstr, op) := read_string sstr "" in
  if negb (String.eqb op "ADD") then (None, "ERROR: Cannot " ++ op)
  else
    let '(sstr, typeString) := read_string sstr "" in
    let '(ty, warning) := parseAreaType typeString in
    let '(sstr, change_id) := read_long sstr None in
    let '(sstr, change_area) := read_Rectangle2D sstr Rectangle2D_default in
    (Some {| operation := op; type := ty; id := change_id; area := change_area |},
     warning).

(** The loop [for (int i = 0; i < nChanges; i++)] with [count] iterations
    left; [stored] is the vector [changes_[time]]. *)
Fixpoint read_changes (count : nat) (ifs : istream) (line : string)
    (stored : list Nav2DChange) (cerr : string)
  : istream * string * list Nav2DChange * string :=
  match count with
  | O => (ifs, line, stored, cerr)
  | S count' =>
      let '(ifs, line) := getline ifs newline line in
      let '(change, message) := read_change line in
      read_changes count' ifs line
        (stored ++ match change with Some c => [c] | None => [] end)
        (cerr ++ message)
  end.

(** The members and locals that [loadChanges] writes. *)
Record Loaded := {
  changes_ : gmap Z (list Nav2DChange);
  changeTimes : list Z;
  cerr : string;
}.

(** The loop [while (std::getline(ifs, line))]; every iteration that
    enters the body shortens the input, so [fuel] beyond the length of the
    input is never used up. *)
Fixpoint load_blocks (fuel : nat) (ifs : istream) (line : string)
    (st : Loaded) : outcome Loaded :=
  match fuel with
  | O => Ok st
  | S fuel' =>
      let '(ifs, line) := getline ifs newline line in
      if failbit ifs then Ok st
      else
        let sstr := istringstream line in
        let '(sstr, tmpStr) := read_string sstr "" in
        let '(sstr, time) := read_long sstr None in
        let '(sstr, tmpStr) := read_string sstr tmpStr in
        let '(sstr, nChanges) := read_long sstr None in
        let* time := use time in
        let* nChanges := use nChanges in
        if (INT_MAX <? nChanges)%Z then Undef signed_overflow
        else
          let '(ifs, line, stored, cerr) :=
            read_changes (Z.to_nat nChanges) ifs line [] (cerr st) in
          load_blocks fuel' ifs line
            {| changes_ := <[time := stored]> (changes_ st);
               changeTimes := changeTimes st ++ [time];
               cerr := cerr |}
  end.

(** [loadChanges(changeFilename)] for a file of the given content ([None]
    when it cannot be opened), from the table [changes_] and the error
    output so far. *)
Definition loadChanges (file : option string)
    (changes : gmap Z (list Nav2DChange)) (cerr0 : string) : outcome Loaded :=
  let ifs := ifstream_open file in
  load_blocks (S (String.length (buffer ifs))) ifs ""
    {| changes_ := changes; changeTimes := []; cerr := cerr0 |}.

(** A change file as the interface describes it: blocks of a time and the
    lines that follow its header. *)
Record block := {
  block_time : Z;
  block_lines : list string;
}.

Definition header (b : block) : string :=
  "t " ++ string_of_long (block_time b) ++ " n "
  ++ string_of_long (Z.of_nat (length (block_lines b))).

Definition text_of_lines (lines : list string) : string :=
  foldr (fun l text => l ++ endl ++ text) "" lines.

Definition lines_of_block (b : block) : list string :=
  header b :: block_lines b.

Definition change_file (blocks : list block) : string :=
  text_of_lines (concat (map lines_of_block blocks)).

(** What the lines of a block store and write to [cerr]. *)
Definition stored_changes (lines : list string) : list Nav2DChange :=
  omap (fun l => (read_change l).1) lines.

Definition warnings (lines : list string) : string :=
  foldr (fun l text => (read_change l).2 ++ text) "" lines.

Definition load_block (st : Loaded) (b : block) : Loaded :=
  {| changes_ := <[block_time b := stored_changes (block_lines b)]> (changes_ st);
     changeTimes := changeTimes st ++ [block_time b];
     cerr := cerr st ++ warnings (block_lines b) |}.

(** No line break inside a line. *)
Definition one_line (l : string) : Prop := avoids newline l.

Definition well_formed (b : block) : Prop :=
  in_long (block_time b) = true /\
  (Z.of_nat (length (block_lines b)) <= INT_MAX)%Z /\
  Forall one_line (block_lines b).

(** The first word of a line, as [operator>>] reads it. *)
Definition first_word (line : string) : string :=
  (read_string (istringstream line) "").2.

(** A block whose last line stands [missing] more times at its end. *)
Definition padded_block (time : Z) (lines : list string) (lastline : string)
    (missing : nat) : block :=
  {| block_time := time;
     block_lines := lines ++ lastline :: replicate missing lastline |}.

End Loader.

Arguments Nav2DChange : clear implicits.
Arguments Loaded : clear implicits.

End Nav2DChanges.

(** ** src/problems/nav2d/Nav2DModel.cpp: area tables, actions and steps

    The members of [Nav2DModel] beyond those that the path computation
    reads, and the functions that use them.  Random draws are made from a
    generator that is passed along; the R-trees, the state pool and the
    rectangle class are collaborators whose sources are outside the
    modelled files. *)

Module Nav2DWorld.
Import Streams Nav2D.

Local Open Scope R_scope.

(** [areaTypeToString(type)]; the [default] branch of its [switch] is for
    values that are none of the enumerators. *)
Definition areaTypeToString (type : AreaType) : string :=
  match type with
  | EMPTY => "Empty"
  | WORLD => "World"
  | START => "Start"
  | OBSERVATION => "Observation"
  | GOAL => "Goal"
  | OBSTACLE => "Obstacle"
  | OUT_OF_BOUNDS => "OOB"
  end.

(** [enum class ErrorType], by the enumerators that [parseErrorType]
    returns. *)
Inductive ErrorType :=
| PROPORTIONAL_GAUSSIAN_NOISE | ABSOLUTE_GAUSSIAN_NOISE | NONE.

(** [parseErrorType(text)], with what it writes to [cerr]. *)
Definition parseErrorType (text : string) : ErrorType * string :=
  if String.eqb text "proportional gaussian noise"
  then (PROPORTIONAL_GAUSSIAN_NOISE, ""%string)
  else if String.eqb text "absolute gaussian noise"
  then (ABSOLUTE_GAUSSIAN_NOISE, ""%string)
  else if String.eqb text "none" then (NONE, ""%string)
  else (PROPORTIONAL_GAUSSIAN_NOISE,
        ("ERROR: Invalid error type - " ++ text)%string).

(** [dispPoint(type, os)]: what it writes to [os] and to [cerr].  The
    [switch] has no case for [WORLD]. *)
Definition dispPoint (type : AreaType) : string * string :=
  match type with
  | EMPTY => (" ", "")
  | START => ("+", "")
  | GOAL => ("*", "")
  | OBSTACLE => ("%", "")
  | OBSERVATION => ("x", "")
  | OUT_OF_BOUNDS => ("#", "")
  | WORLD => ("", "ERROR: Invalid point type!?" ++ endl)
  end%string.

(** Modelled from the spec: [Nav2DAction], the action class of the absent
    Nav2DAction.cpp, by the arguments of its constructor
    [Nav2DAction(code, speed, rotationalSpeed)] and the getters that
    [generateStep] calls. *)
Record Nav2DAction := {
  getCode : Z;
  getSpeed : R;
  getRotationalSpeed : R;
}.

(** Modelled from the spec: [Nav2DObservation], the observation class of
    the absent Nav2DObservation.cpp, by its two constructors: of a state,
    and of nothing. *)
Inductive Nav2DObservation :=
| ObservationOf (state : Nav2DState)
| EmptyObservation.

(** Modelled from the spec: [solver::Model::StepResult], by the members
    that [generateStep] assigns. *)
Record StepResult := {
  action : Nav2DAction;
  nextState : Nav2DState;
  isTerminal_ : bool;
  observation : Nav2DObservation;
  reward : R;
}.

(** [solver::ChangeFlags], by the two enumerators that [update] uses. *)
Inductive ChangeFlags := DELETED | OBSERVATION_BEFORE.

(** The conversion of a [long] to [int], the underlying type of
    [enum class ActionType]: the value modulo 2^32 in the range of [int]. *)
Definition int_of_long (z : Z) : Z := ((z + 2 ^ 31) mod 2 ^ 32 - 2 ^ 31)%Z.

(** [getNumberOfBins()] *)
Definition getNumberOfBins : Z := 10%Z.

Section World.

(** [geometry::Rectangle2D] with its members [contains(point)],
    [getArea()] and [sampleUniform(randGen)]; [geometry::RTree] with the
    insertion [getTree()->insertData(0, nullptr, region, id)] of the region
    between the corners of a rectangle; the draws
    [std::normal_distribution<double>(mean, sd)(randGen)] and
    [std::uniform_real_distribution<double>(a, b)(randGen)]; and
    [operator<<] for a [double]. *)
Context {Rectangle2D RTree RandomGenerator : Type}.
Context `{!Vector2DAPI}.
Variable contains : Rectangle2D -> Point2D -> bool.
Variable getArea : Rectangle2D -> R.
Variable sampleUniform :
  Rectangle2D -> RandomGenerator -> Point2D * RandomGenerator.
Variable insertData : RTree -> Rectangle2D -> Z -> RTree.
Variable normal_distribution :
  R -> R -> RandomGenerator -> R * RandomGenerator.
Variable uniform_real_distribution :
  R -> R -> RandomGenerator -> R * RandomGenerator.
Variable string_of_double : R -> string.

Abbreviation Model := (Nav2DModel Rectangle2D).

(** The other members of [Nav2DModel] that the functions below read or
    write; [model_] holds those of the path computation. *)
Record World := {
  model_ : Model;
  speedErrorType_ : ErrorType;
  speedErrorSD_ : R;
  maxRotationalSpeed_ : R;
  rotationErrorType_ : ErrorType;
  rotationErrorSD_ : R;
  maxObservationDistance_ : R;
  minVal_ : R;
  totalStartArea_ : R;
  obstacleTree_ : RTree;
  goalAreaTree_ : RTree;
  startAreaTree_ : RTree;
  observationAreaTree_ : RTree;
}.

(** [getTree(type)]: a null pointer for the types that have no tree. *)
Definition getTree (w : World) (type : AreaType) : option RTree :=
  match type with
  | GOAL => Some (goalAreaTree_ w)
  | OBSTACLE => Some (obstacleTree_ w)
  | START => Some (startAreaTree_ w)
  | OBSERVATION => Some (observationAreaTree_ w)
  | _ => None
  end.

(** Writing through the pointer that [getAreas(type)] returns. *)
Definition setAreas (model : Model) (type : AreaType)
    (areas : gmap Z Rectangle2D) : Model :=
  {| timeStepLength_ := timeStepLength_ model;
     costPerUnitTime_ := costPerUnitTime_ model;
     interpolationStepCount_ := interpolationStepCount_ model;
     crashPenalty_ := crashPenalty_ model;
     goalReward_ := goalReward_ model;
     maxSpeed_ := maxSpeed_ model;
     costPerUnitDistance_ := costPerUnitDistance_ model;
     costPerRevolution_ := costPerRevolution_ model;
     mapArea_ := mapArea_ model;
     startAreas_ :=
       match type with START => areas | _ => startAreas_ model end;
     observationAreas_ :=
       match type with OBSERVATION => areas | _ => observationAreas_ model end;
     goalAreas_ :=
       match type with GOAL => areas | _ => goalAreas_ model end;
     obstacles_ :=
       match type with OBSTACLE => areas | _ => obstacles_ model end |}.

(** [mapArea_ = rect] *)
Definition setMapArea (model : Model) (rect : Rectangle2D) : Model :=
  {| timeStepLength_ := timeStepLength_ model;
     costPerUnitTime_ := costPerUnitTime_ model;
     interpolationStepCount_ := interpolationStepCount_ model;
     crashPenalty_ := crashPenalty_ model;
     goalReward_ := goalReward_ model;
     maxSpeed_ := maxSpeed_ model;
     costPerUnitDistance_ := costPerUnitDistance_ model;
     costPerRevolution_ := costPerRevolution_ model;
     mapArea_ := rect;
     startAreas_ := startAreas_ model;
     observationAreas_ := observationAreas_ model;
     goalAreas_ := goalAreas_ model;
     obstacles_ := obstacles_ model |}.

(** [addArea(id, area, type)]: [emplace] keeps the rectangle that the table
    has for the id, if any; the tree and the total start area are updated
    in either case. *)
Definition addArea (w : World) (id : Z) (area : Rectangle2D)
    (type : AreaType) : outcome World :=
  match getAreas (model_ w) type, getTree w type with
  | Some areas, Some tree =>
      let areas :=
        match areas !! id with
        | Some _ => areas
        | None => <[id := area]> areas
        end in
      let tree := insertData tree area id in
      Ok {| model_ := setAreas (model_ w) type areas;
            speedErrorType_ := speedErrorType_ w;
            speedErrorSD_ := speedErrorSD_ w;
            maxRotationalSpeed_ := maxRotationalSpeed_ w;
            rotationErrorType_ := rotationErrorType_ w;
            rotationErrorSD_ := rotationErrorSD_ w;
            maxObservationDistance_ := maxObservationDistance_ w;
            minVal_ := minVal_ w;
            totalStartArea_ :=
              match type with
              | START => totalStartArea_ w + getArea area
              | _ => totalStartArea_ w
              end;
            obstacleTree_ :=
              match type with OBSTACLE => tree | _ => obstacleTree_ w end;
            goalAreaTree_ :=
              match type with GOAL => tree | _ => goalAreaTree_ w end;
            startAreaTree_ :=
              match type with START => tree | _ => startAreaTree_ w end;
            observationAreaTree_ :=
              match type with
              | OBSERVATION => tree
              | _ => observationAreaTree_ w
              end |}
  | _, _ => Undef null_dereference
  end.

(** [applySpeedError(speed)] *)
Definition applySpeedError (w : World) (speed : R) (randGen : RandomGenerator)
  : R * RandomGenerator :=
  match speedErrorType_ w with
  | PROPORTIONAL_GAUSSIAN_NOISE =>
      let '(factor, randGen) :=
        normal_distribution 1 (speedErrorSD_ w) randGen in
      let speed := factor * speed in
      (if Rlt_dec speed 0 then 0 else speed, randGen)
  | ABSOLUTE_GAUSSIAN_NOISE =>
      let '(speed, randGen) :=
        normal_distribution speed (speedErrorSD_ w) randGen in
      (if Rlt_dec speed 0 then 0 else speed, randGen)
  | NONE => (speed, randGen)
  end.

(** [applyRotationalError(rotationalSpeed)]; the absolute noise is drawn
    with [speedErrorSD_]. *)
Definition applyRotationalError (w : World) (rotationalSpeed : R)
    (randGen : RandomGenerator) : R * RandomGenerator :=
  match rotationErrorType_ w with
  | PROPORTIONAL_GAUSSIAN_NOISE =>
      let '(factor, randGen) :=
        normal_distribution 1 (rotationErrorSD_ w) randGen in
      (rotationalSpeed * factor, randGen)
  | ABSOLUTE_GAUSSIAN_NOISE =>
      normal_distribution rotationalSpeed (speedErrorSD_ w) randGen
  | NONE => (rotationalSpeed, randGen)
  end.

(** [sampleStateAt(position)] *)
Definition sampleStateAt (w : World) (position : Point2D)
    (randGen : RandomGenerator) : Nav2DState * RandomGenerator :=
  let '(x, randGen) := uniform_real_distribution (- 0.5) 0.5 randGen in
  ({| getPosition := position;
      getDirection := - x;
      stateCostPerUnitDistance := costPerUnitDistance_ (model_ w);
      stateCostPerRevolution := costPerRevolution_ (model_ w) |}, randGen).

(** The loop of [sampleAnInitState] over the start areas: the first area
    at which the running total of the areas exceeds [areaValue]. *)
Fixpoint pick_start_area (entries : list (Z * Rectangle2D))
    (areaValue areaTotal : R) : option Rectangle2D :=
  match entries with
  | [] => None
  | entry :: entries' =>
      let areaTotal := areaTotal + getArea entry.2 in
      if Rlt_dec areaValue areaTotal then Some entry.2
      else pick_start_area entries' areaValue areaTotal
  end.

(** [sampleAnInitState()]: the state or a null pointer, the generator, and
    what is written to [cerr]. *)
Definition sampleAnInitState (w : World) (randGen : RandomGenerator)
  : option Nav2DState * RandomGenerator * string :=
  let '(areaValue, randGen) :=
    uniform_real_distribution 0 (totalStartArea_ w) randGen in
  match pick_start_area (map_to_list (startAreas_ (model_ w))) areaValue 0 with
  | Some area =>
      let '(position, randGen) := sampleUniform area randGen in
      (Some {| getPosition := position;
               getDirection := 0;
               stateCostPerUnitDistance := costPerUnitDistance_ (model_ w);
               stateCostPerRevolution := costPerRevolution_ (model_ w) |},
       randGen, ""%string)
  | None =>
      (None, randGen,
       ("ERROR: Invalid area at " ++ string_of_double areaValue ++ endl)%string)
  end.

(** [sampleStateUniform()] *)
Definition sampleStateUniform (w : World) (randGen : RandomGenerator)
  : Nav2DState * RandomGenerator :=
  let '(position, randGen) := sampleUniform (mapArea_ (model_ w)) randGen in
  sampleStateAt w position randGen.

(** [isTerminal(state)] *)
Definition isTerminal (w : World) (state : Nav2DState) : bool :=
  isInside contains (model_ w) (getPosition state) GOAL.

(** [getDefaultVal()] *)
Definition getDefaultVal (w : World) : R := minVal_ w.

(** [generateNextState(state, action)] *)
Definition generateNextState (w : World) (state : Nav2DState)
    (navAction : Nav2DAction) (randGen : RandomGenerator)
  : Nav2DState * RandomGenerator :=
  let '(speed, randGen) := applySpeedError w (getSpeed navAction) randGen in
  let '(rotationalSpeed, randGen) :=
    applyRotationalError w (getRotationalSpeed navAction) randGen in
  ((tryPath contains (model_ w) state speed rotationalSpeed).1, randGen).

(** [generateObservation(action, nextState)] *)
Definition generateObservation (w : World) (navState : Nav2DState)
  : Nav2DObservation :=
  if isInside contains (model_ w) (getPosition navState) OBSERVATION
  then ObservationOf navState
  else EmptyObservation.

(** [getReward(state, action, nextState)]: the value and what is written
    to [cerr]. *)
Definition getReward : R * string :=
  (0, ("ERROR: Cannot calculate reward!" ++ endl)%string).

(** [generateStep(state, action)] *)
Definition generateStep (w : World) (navState : Nav2DState)
    (navAction : Nav2DAction) (randGen : RandomGenerator)
  : StepResult * RandomGenerator :=
  let '(speed, randGen) := applySpeedError w (getSpeed navAction) randGen in
  let '(rotationalSpeed, randGen) :=
    applyRotationalError w (getRotationalSpeed navAction) randGen in
  let '(next, stepReward) :=
    tryPath contains (model_ w) navState speed rotationalSpeed in
  ({| action := navAction;
      nextState := next;
      isTerminal_ := isTerminal w next;
      observation := generateObservation w next;
      reward := stepReward |}, randGen).

(** [getAreaType(point)] *)
Definition getAreaType (w : World) (point : Point2D) : AreaType :=
  if negb (contains (mapArea_ (model_ w)) point) then OUT_OF_BOUNDS
  else if isInside contains (model_ w) point OBSTACLE then OBSTACLE
  else if isInside contains (model_ w) point GOAL then GOAL
  else if isInside contains (model_ w) point START then START
  else if isInside contains (model_ w) point OBSERVATION then OBSERVATION
  else EMPTY.

(** [sampleAnAction(code)]: the action or a null pointer, and what is
    written to [cerr].  The [switch] is over [static_cast<ActionType>(code)];
    the action keeps the [long] code. *)
Definition sampleAnAction (w : World) (code : Z) : option Nav2DAction * string :=
  let speed := maxSpeed_ (model_ w) in
  let turn := maxRotationalSpeed_ w in
  let make s r :=
    (Some {| getCode := code; getSpeed := s; getRotationalSpeed := r |},
     ""%string) in
  match int_of_long code with
  | 0%Z => make (0.2 * speed) 0
  | 1%Z => make (0.6 * speed) 0
  | 2%Z => make speed 0
  | 3%Z => make 0 (0.2 * turn)
  | 4%Z => make 0 (0.6 * turn)
  | 5%Z => make 0 turn
  | 6%Z => make 0 (- 0.2 * turn)
  | 7%Z => make 0 (- 0.6 * turn)
  | 8%Z => make 0 (- turn)
  | 9%Z => make 0 0
  | _ => (None, ("ERROR: Invalid Action Code " ++ string_of_long code)%string)
  end.

(** [getMaxObservationDistance()] *)
Definition getMaxObservationDistance (w : World) : R :=
  maxObservationDistance_ w.

(** [mapArea_ = rect] on the model of a world. *)
Definition setWorldArea (w : World) (rect : Rectangle2D) : World :=
  {| model_ := setMapArea (model_ w) rect;
     speedErrorType_ := speedErrorType_ w;
     speedErrorSD_ := speedErrorSD_ w;
     maxRotationalSpeed_ := maxRotationalSpeed_ w;
     rotationErrorType_ := rotationErrorType_ w;
     rotationErrorSD_ := rotationErrorSD_ w;
     maxObservationDistance_ := maxObservationDistance_ w;
     minVal_ := minVal_ w;
     totalStartArea_ := totalStartArea_ w;
     obstacleTree_ := obstacleTree_ w;
     goalAreaTree_ := goalAreaTree_ w;
     startAreaTree_ := startAreaTree_ w;
     observationAreaTree_ := observationAreaTree_ w |}.

(** The value that the default constructor of [Rectangle2D] builds, its
    extraction operator [is >> rectangle] and its insertion operator
    [os << rectangle]. *)
Variable Rectangle2D_default : Rectangle2D.
Variable read_Rectangle2D : istream -> Rectangle2D -> istream * Rectangle2D.
Variable write_Rectangle2D : Rectangle2D -> string.

(** The body of the loop of the constructor over the lines of the map
    file: the line is echoed to [cerr], and sets the world area or adds an
    area.  [id] has no value when the line ends before it. *)
Definition read_map_line (w : World) (line : string) (cerr : string)
  : outcome (World * string) :=
  let cerr := (cerr ++ line ++ endl)%string in
  let iss := istringstream line in
  let '(iss, typeString) := read_string iss "" in
  let '(iss, id) := read_long iss None in
  let '(iss, rect) := read_Rectangle2D iss Rectangle2D_default in
  let '(areaType, message) := Nav2DChanges.parseAreaType typeString in
  let cerr := (cerr ++ message)%string in
  match areaType with
  | WORLD => Ok (setWorldArea w rect, cerr)
  | _ =>
      let* id := use id in
      let* w := addArea w id rect areaType in
      Ok (w, cerr)
  end.

(** The loop [while (std::getline(inFile, line))] of the constructor;
    every iteration that enters the body shortens the input. *)
Fixpoint read_map (fuel : nat) (inFile : istream) (line : string)
    (w : World) (cerr : string) : outcome (World * string) :=
  match fuel with
  | O => Ok (w, cerr)
  | S fuel' =>
      let '(inFile, line) := getline inFile newline line in
      if failbit inFile then Ok (w, cerr)
      else
        let* '(w, cerr) := read_map_line w line cerr in
        read_map fuel' inFile line w cerr
  end.

(** The reading of the map in the constructor, for a file that could be
    opened: from the members as initialised before, and the error output
    so far. *)
Definition load_map (content : string) (w : World) (cerr : string)
  : outcome (World * string) :=
  read_map (S (String.length content)) (istringstream content) "" w cerr.

(** [solver::StatePool] with the query that [update] makes through its
    state index: a [FlaggingVisitor] with the given flag over the box of
    the rectangle, at -2.0 in the third coordinate. *)
Context {StatePool : Type}.
Variable boxQuery : StatePool -> ChangeFlags -> Rectangle2D -> StatePool.

Abbreviation Change := (Nav2DChanges.Nav2DChange Rectangle2D).

(** The loop of [update] over the changes of a time. *)
Fixpoint apply_changes (changes : list Change) (w : World) (pool : StatePool)
    (cout : string) : outcome (World * StatePool * string) :=
  match changes with
  | [] => Ok (w, pool, cout)
  | change :: changes' =>
      let* id := use (Nav2DChanges.id change) in
      let cout :=
        (cout ++ areaTypeToString (Nav2DChanges.type change) ++ " "
         ++ string_of_long id ++ " "
         ++ write_Rectangle2D (Nav2DChanges.area change) ++ endl)%string in
      let* w := addArea w id (Nav2DChanges.area change)
                  (Nav2DChanges.type change) in
      let flagsToSet :=
        match Nav2DChanges.type change with
        | OBSERVATION => OBSERVATION_BEFORE
        | _ => DELETED
        end in
      let pool := boxQuery pool flagsToSet (Nav2DChanges.area change) in
      apply_changes changes' w pool cout
  end.

(** [update(time, pool)]: [changes_[time]] makes an entry for a time that
    has none. *)
Definition update (w : World) (changes : gmap Z (list Change)) (time : Z)
    (pool : StatePool) (cout : string)
  : outcome (World * gmap Z (list Change) * StatePool * string) :=
  let now := default [] (changes !! time) in
  let changes := <[time := now]> changes in
  let* '(w, pool, cout) := apply_changes now w pool cout in
  Ok (w, changes, pool, cout).

(** The sum of the areas of the rectangles of a table. *)
Definition total_area (areas : gmap Z Rectangle2D) : R :=
  foldr (fun entry total => getArea entry.2 + total) 0 (map_to_list areas).

(** The types that have a table of areas and a tree. *)
Definition has_table (type : AreaType) : bool :=
  match type with
  | GOAL | OBSTACLE | START | OBSERVATION => true
  | _ => false
  end.

(** The first words that a line of the map file can start with. *)
Definition map_keyword (word : string) : Prop :=
  word = "World"%string \/ word = "Start"%string
  \/ word = "Observation"%string \/ word = "Goal"%string
  \/ word = "Obstacle"%string.

End World.

Arguments World : clear implicits.

End Nav2DWorld.

(** ** A concrete instantiation

    Observations are integers; a belief node is reduced to the members the
    modelled code reads, and its recalculation installs a pending value. *)

Module Example.

Record Node := {
  node_id : Z;
  node_particles : Z;
  node_starting : Z;
  node_ending : Z;
  node_q : float;
  node_pending_q : float;
}.

Definition fresh_node (_ : unit) : Node :=
  {| node_id := -1; node_particles := 0; node_starting := 0;
     node_ending := 0; node_q := 0%float; node_pending_q := 0%float |}.

Definition settle (b : Node) : Node :=
  {| node_id := node_id b; node_particles := node_particles b;
     node_starting := node_starting b; node_ending := node_ending b;
     node_q := node_pending_q b; node_pending_q := node_pending_q b |}.

#[global] Instance node_api : BeliefNodeAPI unit Node := {|
  BeliefNode_new := fresh_node;
  BeliefNode_getId := node_id;
  BeliefNode_getNParticles := node_particles;
  numberOfStartingSequences_ := node_starting;
  numberOfEndingSequences_ := node_ending;
  BeliefNode_getQValue := node_q;
  BeliefNode_recalculateQValue := settle;
|}.

#[global] Instance pool_api : ActionPoolAPI unit unit := {|
  createActionMapping := fun _ => tt;
|}.

Abbreviation Map := (DiscreteObservations.DiscreteObservationMap Z unit).

Definition empty_map : Map := DiscreteObservations.DiscreteObservationMap_new tt.

Definition empty_heap : gmap positive Node := ∅.

(** The mapping after [updateVisitCount(7, 1)] on a new mapping. *)
Definition visited_only : Map :=
  {| DiscreteObservations.actionPool_ := tt;
     DiscreteObservations.childMap_ :=
       {[ 7 := {| DiscreteObservations.childNode := None;
                  DiscreteObservations.visitCount := 1 |} ]};
     DiscreteObservations.totalVisitCount_ := 1 |}.

(** A child with two particles whose value changes from 1 to 3 when
    recalculated. *)
Definition child : Node :=
  {| node_id := 4; node_particles := 2; node_starting := 0; node_ending := 0;
     node_q := 1%float; node_pending_q := 3%float |}.

Definition one_child_map : Map :=
  {| DiscreteObservations.actionPool_ := tt;
     DiscreteObservations.childMap_ :=
       {[ 7 := {| DiscreteObservations.childNode := Some 1%positive;
                  DiscreteObservations.visitCount := 2 |} ]};
     DiscreteObservations.totalVisitCount_ := 2 |}.

Definition one_child_heap : gmap positive Node := {[ 1%positive := child ]}.

Definition node_with (n : Z) (total : float) : ActionNodes.ActionNode Map :=
  {| ActionNodes.nParticles_ := n;
     ActionNodes.totalQValue_ := total;
     ActionNodes.meanQValue_ := neg_infinity;
     ActionNodes.obsMap_ := Some one_child_map |}.

(** Axis-parallel rectangles, borders included, for the navigation model. *)
Record Rect := { lowX : R; lowY : R; highX : R; highY : R }.

Definition Rleb (a b : R) : bool := if Rle_dec a b then true else false.

Definition rect_contains (r : Rect) (p : Nav2D.Point2D) : bool :=
  Rleb (lowX r) (Nav2D.getX p) && Rleb (Nav2D.getX p) (highX r)
  && Rleb (lowY r) (Nav2D.getY p) && Rleb (Nav2D.getY p) (highY r).

Definition world : Rect :=
  {| lowX := -10; lowY := -10; highX := 10; highY := 10 |}%R.

(** A world without obstacles, and with the given goal areas. *)
Definition field (goals : gmap Z Rect) : Nav2D.Nav2DModel Rect :=
  {| Nav2D.timeStepLength_ := 1;
     Nav2D.costPerUnitTime_ := 1;
     Nav2D.interpolationStepCount_ := 10;
     Nav2D.crashPenalty_ := 10;
     Nav2D.goalReward_ := 100;
     Nav2D.maxSpeed_ := 1;
     Nav2D.costPerUnitDistance_ := 1;
     Nav2D.costPerRevolution_ := 0.5;
     Nav2D.mapArea_ := world;
     Nav2D.startAreas_ := ∅;
     Nav2D.observationAreas_ := ∅;
     Nav2D.goalAreas_ := goals;
     Nav2D.obstacles_ := ∅ |}%R.

Definition open_field : Nav2D.Nav2DModel Rect := field ∅.

(** A goal area around the point (0, 0.1) of the path. *)
Definition goal_on_path : Nav2D.Nav2DModel Rect :=
  field {[ 1 := {| lowX := -1; lowY := 0.05; highX := 1; highY := 0.15 |}%R ]}.

(** A polar constructor whose cosine is off by what binary64 gives for
    the quarter turn, 6.123233995736766e-17 where the exact value is 0. *)
Definition rounded_polar (magnitude direction : R) : Nav2D.Vector2D :=
  {| Nav2D.vecX :=
       magnitude * (cos (2 * PI * direction) + 6.123233995736766e-17);
     Nav2D.vecY := magnitude * sin (2 * PI * direction) |}%R.

Definition rounded_vectors : Nav2D.Vector2DAPI :=
  {| Nav2D.Vector2D_polar := rounded_polar |}.

Definition at_origin : Nav2D.Nav2DState :=
  {| Nav2D.getPosition := {| Nav2D.getX := 0; Nav2D.getY := 0 |};
     Nav2D.getDirection := 0.25;
     Nav2D.stateCostPerUnitDistance := 1;
     Nav2D.stateCostPerRevolution := 0.5 |}%R.

(** A stand-in for the extraction of a rectangle: it keeps the text that
    is left on the line. *)
Definition read_rest (ins : Streams.istream) (old : string)
  : Streams.istream * string :=
  ({| Streams.buffer := EmptyString; Streams.eofbit := true;
      Streams.failbit := Streams.failbit ins |}, Streams.buffer ins).

(** A change file whose second block is earlier than its first. *)
Definition unsorted_changes : string :=
  ("t 5 n 0" ++ Streams.endl ++ "t 3 n 0" ++ Streams.endl)%string.

(** Two blocks, the first with a line that is no [ADD]. *)
Definition two_blocks : list Nav2DChanges.block :=
  [ {| Nav2DChanges.block_time := 5;
       Nav2DChanges.block_lines :=
         ["ADD Obstacle 1 0 0 1 1"; "DEL Obstacle 2"; "ADD Goal 3 4 4 5 5"]%string |};
    {| Nav2DChanges.block_time := 7; Nav2DChanges.block_lines := [] |} ].

(** [setNode] gives the node the id it is called with. *)
Definition renumber (id : Z) (b : Node) : Node :=
  {| node_id := id; node_particles := node_particles b;
     node_starting := node_starting b; node_ending := node_ending b;
     node_q := node_q b; node_pending_q := node_pending_q b |}.

#[global] Instance tree_api : BeliefTreeAPI Node := {|
  BeliefTree_setNode := renumber;
|}.

(** Observations of a door sensor, written as a word. *)
Definition save_door (open : bool) : string :=
  if open then "open"%string else "shut"%string.

Definition load_door (ins : Streams.istream) : Streams.istream * option bool :=
  let '(ins, word) := Streams.read_string ins EmptyString in
  (ins,
   if String.eqb word "open" then Some true
   else if String.eqb word "shut" then Some false
   else None).

Abbreviation DoorMap := (DiscreteObservations.DiscreteObservationMap bool unit).

(** A mapping with a child for each of the two observations. *)
Definition door_map : DoorMap :=
  {| DiscreteObservations.actionPool_ := tt;
     DiscreteObservations.childMap_ :=
       {[ true := {| DiscreteObservations.childNode := Some 1%positive;
                     DiscreteObservations.visitCount := 2 |};
          false := {| DiscreteObservations.childNode := Some 2%positive;
                      DiscreteObservations.visitCount := 3 |} ]};
     DiscreteObservations.totalVisitCount_ := 5 |}.

Definition door_heap : gmap positive Node :=
  {[ 1%positive := child; 2%positive := renumber 9 child ]}.

(** The mapping after [updateVisitCount(open, 1)] on a new mapping. *)
Definition door_visited_only : DoorMap :=
  {| DiscreteObservations.actionPool_ := tt;
     DiscreteObservations.childMap_ :=
       {[ true := {| DiscreteObservations.childNode := None;
                     DiscreteObservations.visitCount := 1 |} ]};
     DiscreteObservations.totalVisitCount_ := 1 |}.

(** The mapping after [updateVisitCount(7, 1)] and [updateVisitCount(7, 2)]
    on a new mapping. *)
Definition visited_twice : Map :=
  {| DiscreteObservations.actionPool_ := tt;
     DiscreteObservations.childMap_ :=
       {[ 7 := {| DiscreteObservations.childNode := None;
                  DiscreteObservations.visitCount := 3 |} ]};
     DiscreteObservations.totalVisitCount_ := 3 |}.

(** The mapping and the heap after [createBelief(7)],
    [updateVisitCount(8, 1)] and [createBelief(9)] on a new mapping and an
    empty heap. *)
Definition two_children_map : Map :=
  {| DiscreteObservations.actionPool_ := tt;
     DiscreteObservations.childMap_ :=
       <[9 := {| DiscreteObservations.childNode := Some 2%positive;
                 DiscreteObservations.visitCount := 0 |}]>
       (<[8 := {| DiscreteObservations.childNode := None;
                  DiscreteObservations.visitCount := 1 |}]>
        (<[7 := {| DiscreteObservations.childNode := Some 1%positive;
                   DiscreteObservations.visitCount := 0 |}]> ∅));
     DiscreteObservations.totalVisitCount_ := 1 |}.

Definition two_children_heap : gmap positive Node :=
  <[2%positive := fresh_node tt]> (<[1%positive := fresh_node tt]> ∅).


(** The area of a rectangle, a tree as the list of the ids inserted, and
    stand-ins for the random draws: a counter as generator, the mean as the
    normal draw, the lower bound as the uniform draw, the lower left corner
    as the point sampled in a rectangle. *)
Definition rect_area (r : Rect) : R :=
  ((highX r - lowX r) * (highY r - lowY r))%R.

Definition tree_insert {Rectangle : Type} (tree : list Z) (r : Rectangle)
    (id : Z) : list Z := id :: tree.

Definition draw_mean (mean sd : R) (gen : nat) : R * nat := (mean, S gen).

Definition draw_lower (a b : R) (gen : nat) : R * nat := (a, S gen).

Definition sample_corner (r : Rect) (gen : nat) : Nav2D.Point2D * nat :=
  ({| Nav2D.getX := lowX r; Nav2D.getY := lowY r |}, S gen).

Definition print_real (x : R) : string := "?"%string.

Definition unit_square : Rect :=
  {| lowX := 0; lowY := 0; highX := 1; highY := 1 |}%R.

(** A world without noise over a model. *)
Definition quiet_world {Rectangle : Type} (model : Nav2D.Nav2DModel Rectangle)
    (startArea : R) : Nav2DWorld.World Rectangle (list Z) :=
  {| Nav2DWorld.model_ := model;
     Nav2DWorld.speedErrorType_ := Nav2DWorld.NONE;
     Nav2DWorld.speedErrorSD_ := 0;
     Nav2DWorld.maxRotationalSpeed_ := 1;
     Nav2DWorld.rotationErrorType_ := Nav2DWorld.NONE;
     Nav2DWorld.rotationErrorSD_ := 0;
     Nav2DWorld.maxObservationDistance_ := 1;
     Nav2DWorld.minVal_ := -100;
     Nav2DWorld.totalStartArea_ := startArea;
     Nav2DWorld.obstacleTree_ := [];
     Nav2DWorld.goalAreaTree_ := [];
     Nav2DWorld.startAreaTree_ := [];
     Nav2DWorld.observationAreaTree_ := [] |}%R.

(** The open field, and the open field with the unit square as its start
    area 1. *)
Definition open_world : Nav2DWorld.World Rect (list Z) :=
  quiet_world open_field 0.

Definition started_field : Nav2D.Nav2DModel Rect :=
  {| Nav2D.timeStepLength_ := 1;
     Nav2D.costPerUnitTime_ := 1;
     Nav2D.interpolationStepCount_ := 10;
     Nav2D.crashPenalty_ := 10;
     Nav2D.goalReward_ := 100;
     Nav2D.maxSpeed_ := 1;
     Nav2D.costPerUnitDistance_ := 1;
     Nav2D.costPerRevolution_ := 0.5;
     Nav2D.mapArea_ := world;
     Nav2D.startAreas_ := {[ 1%Z := unit_square ]};
     Nav2D.observationAreas_ := ∅;
     Nav2D.goalAreas_ := ∅;
     Nav2D.obstacles_ := ∅ |}%R.

Definition started_world : Nav2DWorld.World Rect (list Z) :=
  quiet_world started_field (rect_area unit_square).

(** [started_world] after [addArea(1, world, START)]. *)
Definition started_twice : Nav2DWorld.World Rect (list Z) :=
  {| Nav2DWorld.model_ := started_field;
     Nav2DWorld.speedErrorType_ := Nav2DWorld.NONE;
     Nav2DWorld.speedErrorSD_ := 0;
     Nav2DWorld.maxRotationalSpeed_ := 1;
     Nav2DWorld.rotationErrorType_ := Nav2DWorld.NONE;
     Nav2DWorld.rotationErrorSD_ := 0;
     Nav2DWorld.maxObservationDistance_ := 1;
     Nav2DWorld.minVal_ := -100;
     Nav2DWorld.totalStartArea_ := rect_area unit_square + rect_area world;
     Nav2DWorld.obstacleTree_ := [];
     Nav2DWorld.goalAreaTree_ := [];
     Nav2DWorld.startAreaTree_ := [1%Z];
     Nav2DWorld.observationAreaTree_ := [] |}%R.

(** A model whose rectangles are kept as the text they are written with, as
    [read_rest] reads them, each of area 1. *)
Definition text_field : Nav2D.Nav2DModel string :=
  {| Nav2D.timeStepLength_ := 1;
     Nav2D.costPerUnitTime_ := 1;
     Nav2D.interpolationStepCount_ := 10;
     Nav2D.crashPenalty_ := 10;
     Nav2D.goalReward_ := 100;
     Nav2D.maxSpeed_ := 1;
     Nav2D.costPerUnitDistance_ := 1;
     Nav2D.costPerRevolution_ := 0.5;
     Nav2D.mapArea_ := EmptyString;
     Nav2D.startAreas_ := ∅;
     Nav2D.observationAreas_ := ∅;
     Nav2D.goalAreas_ := ∅;
     Nav2D.obstacles_ := ∅ |}%R.

Definition text_world : Nav2DWorld.World string (list Z) :=
  quiet_world text_field 0.

Definition text_area (r : string) : R := 1%R.

(** A map file of a world area and a goal area. *)
Definition small_map : list string :=
  ["World 0 0 10 10"; "Goal 1 4 4 5 5"]%string.

(** The change that the line [ADD Goal 1 4 4 5 5] stores. *)
Definition goal_change : Nav2DChanges.Nav2DChange string :=
  {| Nav2DChanges.operation := "ADD";
     Nav2DChanges.type := Nav2D.GOAL;
     Nav2DChanges.id := Some 1;
     Nav2DChanges.area := "4 4 5 5" |}.

End Example.

(* ================================================================== *)
(** * Properties *)

(** ** Outcomes and [long] arithmetic *)

Module CxxFacts.

Lemma in_long_spec (z : Z) : in_long z = true <-> LONG_MIN <= z <= LONG_MAX.
Proof. unfold in_long. rewrite andb_true_iff, !Z.leb_le. tauto. Qed.

Lemma long_result_in (z : Z) : in_long z = true -> long_result z = Ok z.
Proof. unfold long_result. now intros ->. Qed.

Lemma long_result_Ok (z z' : Z) :
  long_result z = Ok z' -> z' = z /\ in_long z = true.
Proof. unfold long_result. destruct (in_long z); [intros [= <-]; auto | discriminate]. Qed.

Lemma long_result_no_throw (z : Z) (e : exception) : long_result z <> Throw e.
Proof. unfold long_result. destruct (in_long z); discriminate. Qed.

Lemma long_result_cases (z : Z) :
  long_result z = Ok z \/ long_result z = Undef signed_overflow.
Proof. unfold long_result. destruct (in_long z); auto. Qed.

Lemma bind_Ok {A B : Type} (c : outcome A) (k : A -> outcome B) (b : B) :
  bind c k = Ok b -> exists a, c = Ok a /\ k a = Ok b.
Proof. destruct c; simpl; [eauto | discriminate..]. Qed.

End CxxFacts.

Import CxxFacts.

(** Splits a successful monadic computation into its successful steps. *)
Ltac ok_steps :=
  repeat match goal with
  | H : bind ?c ?k = Ok ?b |- _ =>
      let a := fresh "r" in
      let Hc := fresh "Hstep" in
      apply bind_Ok in H as (a & Hc & H)
  | H : ladd ?x ?y = Ok ?z |- _ =>
      unfold ladd in H; apply long_result_Ok in H as [-> H]
  | H : lsub ?x ?y = Ok ?z |- _ =>
      unfold lsub in H; apply long_result_Ok in H as [-> H]
  | H : Ok _ = Ok _ |- _ => injection H as H
  end.

(** ** The discrete observation mapping *)

Module DiscreteObservationsFacts.
Import DiscreteObservations.

Section MapFacts.
Context {Observation : Type} `{Countable Observation}.
Context {ActionPool ActionMapping BeliefNode : Type}.
Context `{!BeliefNodeAPI ActionMapping BeliefNode}.
Context `{!ActionPoolAPI ActionPool ActionMapping}.

Abbreviation Map := (DiscreteObservationMap Observation ActionPool).

(** [getBelief] catches the exception of [at]: it always returns, with the
    stored child pointer of the entry or null when there is no entry. *)
Lemma disc_getBelief_lookup (m : Map) (obs : Observation) :
  disc_getBelief m obs =
  Ok (match childMap_ m !! obs with Some e => childNode e | None => None end).
Proof.
  unfold disc_getBelief, at_. destruct (childMap_ m !! obs); reflexivity.
Qed.

Lemma sum_visit_counts_comm (m : gmap Observation DiscreteObservationMapEntry) :
  forall (j1 j2 : Observation) (z1 z2 : DiscreteObservationMapEntry) (y : Z),
    j1 <> j2 -> m !! j1 = Some z1 -> m !! j2 = Some z2 ->
    visitCount z1 + (visitCount z2 + y) = visitCount z2 + (visitCount z1 + y).
Proof. intros. lia. Qed.

Lemma sum_insert_fresh (cm : gmap Observation DiscreteObservationMapEntry)
    (obs : Observation) (e : DiscreteObservationMapEntry) :
  cm !! obs = None ->
  map_fold (fun _ e acc => visitCount e + acc) 0 (<[obs := e]> cm) =
  visitCount e + map_fold (fun _ e acc => visitCount e + acc) 0 cm.
Proof.
  intros Hn.
  apply (map_fold_insert_L (fun _ e acc => visitCount e + acc)); [|exact Hn].
  intros. lia.
Qed.

Lemma sum_insert_present (cm : gmap Observation DiscreteObservationMapEntry)
    (obs : Observation) (old e : DiscreteObservationMapEntry) :
  cm !! obs = Some old ->
  map_fold (fun _ e acc => visitCount e + acc) 0 (<[obs := e]> cm) =
  visitCount e - visitCount old
  + map_fold (fun _ e acc => visitCount e + acc) 0 cm.
Proof.
  intros Hs.
  rewrite <- insert_delete_eq.
  rewrite (sum_insert_fresh _ _ _ (lookup_delete_eq cm obs)).
  rewrite (map_fold_delete_L (fun _ e acc => visitCount e + acc) 0 obs old cm);
    [lia | intros; lia | exact Hs].
Qed.

(** Each call keeps the cached total equal to the sum over the entries. *)
Lemma call_keeps_total (c : map_call) (s s' : Map * gmap positive BeliefNode) :
  totalVisitCount_ s.1 = sum_visit_counts s.1 ->
  call c s = Ok s' ->
  totalVisitCount_ s'.1 = sum_visit_counts s'.1.
Proof.
  destruct s as [m heap]. simpl. intros Hinv Hc.
  destruct c as [obs | obs k]; simpl in Hc.
  - unfold disc_createBelief in Hc.
    destruct (childMap_ m !! obs) eqn:Hl; simpl in Hc; injection Hc as <-;
      simpl; [exact Hinv |].
    unfold sum_visit_counts in *. simpl.
    rewrite (sum_insert_fresh _ _ _ Hl). simpl. exact Hinv.
  - unfold disc_updateVisitCount in Hc. ok_steps. subst. simpl.
    unfold sum_visit_counts in *. simpl.
    unfold subscript. destruct (childMap_ m !! obs) as [old|] eqn:Hl; simpl.
    + rewrite (sum_insert_present _ _ old _ Hl). simpl. lia.
    + rewrite (sum_insert_fresh _ _ _ Hl). simpl. lia.
Qed.

Lemma calls_keep_total (cs : list map_call) :
  forall s s' : Map * gmap positive BeliefNode,
    totalVisitCount_ s.1 = sum_visit_counts s.1 ->
    calls cs s = Ok s' ->
    totalVisitCount_ s'.1 = sum_visit_counts s'.1.
Proof.
  induction cs as [|c cs IH]; intros s s' Hinv Hr; simpl in Hr.
  - injection Hr as <-. exact Hinv.
  - apply bind_Ok in Hr as (s1 & Hc & Hr).
    eapply IH; [|exact Hr]. eapply call_keeps_total; eauto.
Qed.

(** Without overflow every call returns: when the cached total and every
    entry's count lie within [bound], a call with argument [k] returns
    whenever [bound + |k|] is a [long], and the bound grows by [|k|] at
    most. *)
Lemma call_defined (c : map_call) (s : Map * gmap positive BeliefNode)
    (bound : Z) :
  within bound s.1 ->
  bound + call_weight c <= LONG_MAX ->
  exists s', call c s = Ok s' /\ within (bound + call_weight c) s'.1.
Proof.
  destruct s as [m heap]. simpl. intros [Ht He] Hb.
  destruct c as [obs | obs k]; simpl in *.
  - unfold disc_createBelief.
    destruct (childMap_ m !! obs) eqn:Hl; simpl; eexists; (split; [reflexivity|]);
      simpl; (split; [simpl; lia|]); simpl.
    + intros o e He'. specialize (He o e He'). lia.
    + intros o e He'. apply lookup_insert_Some in He' as [[_ <-]|[_ He']].
      * simpl. lia.
      * specialize (He o e He'). lia.
  - unfold disc_updateVisitCount, ladd.
    assert (Hsub : Z.abs (visitCount (subscript (childMap_ m) obs)) <= bound).
    { unfold subscript. destruct (childMap_ m !! obs) eqn:Hl; simpl.
      - eapply He; eauto.
      - lia. }
    unfold LONG_MAX in Hb.
    rewrite !long_result_in
      by (apply in_long_spec; unfold LONG_MIN, LONG_MAX; lia).
    simpl. eexists; split; [reflexivity|]. split; simpl; [lia|].
    intros o e He'. apply lookup_insert_Some in He' as [[_ <-]|[_ He']].
    + simpl. lia.
    + specialize (He o e He'). lia.
Qed.

Lemma calls_defined (cs : list map_call) :
  forall (s : Map * gmap positive BeliefNode) (bound : Z),
    within bound s.1 ->
    bound + foldr (fun c acc => call_weight c + acc) 0 cs <= LONG_MAX ->
    exists s', calls cs s = Ok s'.
Proof.
  induction cs as [|c cs IH]; intros s bound Hw Hb; simpl in *.
  - eauto.
  - assert (Hnn : 0 <= foldr (fun c acc => call_weight c + acc) 0 cs).
    { clear. induction cs as [|c cs IH]; simpl; [lia|].
      destruct c; simpl; lia. }
    destruct (call_defined c s bound Hw) as (s1 & -> & Hw1); [lia|].
    simpl. eapply IH; [exact Hw1 | lia].
Qed.

(** C4: after any finite sequence of [createBelief] and [updateVisitCount]
    calls on a freshly constructed mapping, [getTotalVisitCount()] equals
    the sum of the [visitCount] fields over all entries. *)
Theorem total_visit_count_is_sum_of_entries (pool : ActionPool)
    (cs : list map_call) (heap heap' : gmap positive BeliefNode) (m : Map) :
  calls cs (DiscreteObservationMap_new pool, heap) = Ok (m, heap') ->
  disc_getTotalVisitCount m = sum_visit_counts m.
Proof.
  intros Hr.
  apply (calls_keep_total cs (DiscreteObservationMap_new pool, heap) (m, heap'));
    [|exact Hr].
  reflexivity.
Qed.

Lemma child_node_count_le (m : Map) : child_node_count m <= disc_getNChildren m.
Proof.
  unfold child_node_count, disc_getNChildren.
  apply inj_le, map_subseteq_size, map_filter_subseteq.
Qed.

(** C9: for an observation with no entry, [updateVisitCount(o, k)] silently
    creates an entry with a null child pointer and visit count [k]: the
    number of children grows by one, the total grows by [k], [getBelief(o)]
    is still null, and [getNChildren()] exceeds the number of child belief
    nodes. *)
Theorem updateVisitCount_creates_entry_without_child (m : Map)
    (obs : Observation) (k : Z) :
  childMap_ m !! obs = None ->
  in_long k = true ->
  in_long (totalVisitCount_ m + k) = true ->
  exists m',
    disc_updateVisitCount m obs k = Ok m' /\
    childMap_ m' !! obs = Some {| childNode := nullptr; visitCount := k |} /\
    disc_getNChildren m' = disc_getNChildren m + 1 /\
    disc_getTotalVisitCount m' = disc_getTotalVisitCount m + k /\
    disc_getBelief m' obs = Ok nullptr /\
    child_node_count m' = child_node_count m /\
    child_node_count m' < disc_getNChildren m'.
Proof.
  intros Hl Hk Ht.
  unfold disc_updateVisitCount, ladd, subscript. rewrite Hl. simpl.
  rewrite Z.add_0_l, (long_result_in _ Hk). simpl.
  rewrite (long_result_in _ Ht). simpl.
  eexists. split; [reflexivity|].
  assert (Hcount :
    child_node_count
      {| actionPool_ := actionPool_ m;
         childMap_ := <[obs:={| childNode := None; visitCount := k |}]> (childMap_ m);
         totalVisitCount_ := totalVisitCount_ m + k |} = child_node_count m).
  { unfold child_node_count. simpl.
    rewrite map_filter_insert_False by (simpl; intros [? [=]]).
    now rewrite delete_id. }
  repeat split.
  - simpl. apply lookup_insert_eq.
  - unfold disc_getNChildren. simpl.
    rewrite map_size_insert_None by exact Hl. lia.
  - rewrite disc_getBelief_lookup. simpl. now rewrite lookup_insert_eq.
  - exact Hcount.
  - rewrite Hcount. pose proof (child_node_count_le m).
    unfold disc_getNChildren in *. simpl.
    rewrite map_size_insert_None by exact Hl. lia.
Qed.

(** [createBelief(o)] where an entry for [o] exists already: [emplace]
    inserts nothing, so the mapping and the heap are left as they were and
    the pointer returned is to no node of the heap; the entry that was
    there keeps its child and its visit count. *)
Theorem createBelief_keeps_existing_entry (m : Map) (obs : Observation)
    (heap : gmap positive BeliefNode) (e : DiscreteObservationMapEntry) :
  childMap_ m !! obs = Some e ->
  exists l,
    disc_createBelief m obs heap = Ok (m, heap, Some l) /\
    heap !! l = None /\
    disc_getBelief m obs = Ok (childNode e) /\
    disc_getVisitCount m obs = Ok (visitCount e).
Proof.
  intros He. exists (fresh (dom heap)). split; [|split; [|split]].
  - unfold disc_createBelief. now rewrite He.
  - apply not_elem_of_dom, is_fresh.
  - rewrite disc_getBelief_lookup. now rewrite He.
  - unfold disc_getVisitCount, at_. now rewrite He.
Qed.

(** [getVisitCount(o)] reads the entry with [at] and catches nothing: it
    throws [std::out_of_range] exactly when there is no entry for [o], and
    returns the entry's count otherwise. *)
Theorem getVisitCount_throws_without_entry (m : Map) (obs : Observation) :
  (disc_getVisitCount m obs = Throw out_of_range <-> childMap_ m !! obs = None) /\
  (forall e, childMap_ m !! obs = Some e ->
     disc_getVisitCount m obs = Ok (visitCount e)).
Proof.
  unfold disc_getVisitCount, at_. split.
  - destruct (childMap_ m !! obs) as [e|]; cbn [bind]; split;
      intros Heq; try discriminate; reflexivity.
  - intros e ->. reflexivity.
Qed.

(** [updateVisitCount(o, k)] adds [k] to the count of [o], taken as 0 when
    [o] had no entry, and to the total; it leaves the child of [o] and
    every other entry as they were. *)
Theorem updateVisitCount_adds_to_one_entry (m m' : Map) (obs : Observation)
    (k : Z) :
  disc_updateVisitCount m obs k = Ok m' ->
  disc_getVisitCount m' obs =
    Ok (match childMap_ m !! obs with
        | Some e => visitCount e
        | None => 0
        end + k) /\
  disc_getBelief m' obs = disc_getBelief m obs /\
  disc_getTotalVisitCount m' = disc_getTotalVisitCount m + k /\
  (forall other, other <> obs ->
     disc_getVisitCount m' other = disc_getVisitCount m other /\
     disc_getBelief m' other = disc_getBelief m other).
Proof.
  intros Hu. unfold disc_updateVisitCount in Hu. ok_steps. subst m'.
  rewrite !disc_getBelief_lookup. unfold disc_getVisitCount, at_, subscript.
  cbn [childMap_ totalVisitCount_ disc_getTotalVisitCount].
  rewrite lookup_insert_eq. cbn [bind visitCount childNode].
  split; [|split; [|split]].
  - destruct (childMap_ m !! obs); reflexivity.
  - destruct (childMap_ m !! obs); reflexivity.
  - reflexivity.
  - intros other Hne. rewrite !disc_getBelief_lookup. cbn [childMap_].
    rewrite lookup_insert_ne by congruence. split; reflexivity.
Qed.

(** Two calls of [updateVisitCount] give the same mapping in either order
    when both orders return, and two calls for the same observation give
    what one call with the sum of the arguments gives. *)
Theorem updateVisitCount_composes (m m1 m2 : Map) (obs1 obs2 : Observation)
    (a b : Z) :
  disc_updateVisitCount m obs1 a = Ok m1 ->
  disc_updateVisitCount m1 obs2 b = Ok m2 ->
  (forall m1' m2',
      disc_updateVisitCount m obs2 b = Ok m1' ->
      disc_updateVisitCount m1' obs1 a = Ok m2' -> m2' = m2) /\
  (obs1 = obs2 -> in_long (a + b) = true ->
   disc_updateVisitCount m obs1 (a + b) = Ok m2).
Proof.
  intros H1 H2. unfold disc_updateVisitCount in H1, H2. ok_steps. subst m1 m2.
  cbn [childMap_ totalVisitCount_ actionPool_] in *.
  match goal with
  | Hc : in_long (visitCount (subscript (<[_:=_]> _) _) + _) = true |- _ =>
      rename Hc into H2
  end.
  split.
  - intros m1' m2' H3 H4. unfold disc_updateVisitCount in H3, H4. ok_steps.
    subst m1' m2'. cbn [childMap_ totalVisitCount_ actionPool_] in *.
    f_equal; [|lia].
    unfold subscript. destruct (decide (obs1 = obs2)) as [->|Hne].
    + rewrite !lookup_insert_eq, !insert_insert_eq. simpl.
      do 2 f_equal. lia.
    + rewrite !lookup_insert_ne by congruence.
      now rewrite insert_insert_ne by congruence.
  - intros <- Hab. unfold disc_updateVisitCount, ladd, subscript in *.
    rewrite lookup_insert_eq in H2. simpl in H2.
    rewrite lookup_insert_eq, insert_insert_eq. simpl.
    rewrite !Z.add_assoc, !long_result_in by assumption. reflexivity.
Qed.

(** [updateVisitCount(o, k)] returns exactly when the new count of [o] and
    the new total are [long] values; otherwise a signed addition
    overflows.  It never throws. *)
Theorem updateVisitCount_defined_within_long (m : Map) (obs : Observation)
    (k : Z) :
  ((exists m', disc_updateVisitCount m obs k = Ok m') <->
   in_long (visitCount (subscript (childMap_ m) obs) + k) = true /\
   in_long (totalVisitCount_ m + k) = true) /\
  (disc_updateVisitCount m obs k = Undef signed_overflow <->
   in_long (visitCount (subscript (childMap_ m) obs) + k) = false \/
   in_long (totalVisitCount_ m + k) = false) /\
  (forall e, disc_updateVisitCount m obs k <> Throw e).
Proof.
  unfold disc_updateVisitCount, ladd, long_result.
  destruct (in_long (visitCount (subscript (childMap_ m) obs) + k));
    destruct (in_long (totalVisitCount_ m + k)); cbn [bind];
    (split; [|split]); try discriminate;
    try (split; [intros [m' [=]] | intros [[=] [=]]]; fail);
    try (split; [eauto | intros _; eauto]; fail);
    try (split; [discriminate | intros [[=]|[=]]]; fail);
    try (split; [auto | reflexivity]; fail).
Qed.


(** What a call keeps: the ownership of children, the nodes of the heap,
    and every entry with its child pointer. *)
Lemma call_keeps_children (c : map_call) (s s' : Map * gmap positive BeliefNode) :
  call c s = Ok s' ->
  (owns_children s.1 s.2 -> owns_children s'.1 s'.2) /\
  s.2 ⊆ s'.2 /\
  (forall obs e, childMap_ s.1 !! obs = Some e ->
     exists e', childMap_ s'.1 !! obs = Some e' /\ childNode e' = childNode e) /\
  (forall obs e' l, childMap_ s'.1 !! obs = Some e' -> childNode e' = Some l ->
     s.2 !! l = None \/
     exists e, childMap_ s.1 !! obs = Some e /\ childNode e = Some l).
Proof.
  destruct s as [m heap]. cbn [fst snd]. intros Hc.
  destruct c as [obs | obs k]; cbn [call fst snd] in Hc.
  - unfold disc_createBelief in Hc.
    destruct (childMap_ m !! obs) as [e0|] eqn:Hl; cbn [bind] in Hc;
      injection Hc as <-; cbn [fst snd].
    + split; [auto|]. split; [reflexivity|]. split; [eauto|].
      intros o e' l He' Hc. right. eauto.
    + assert (Hfresh : heap !! fresh (dom heap) = None).
      { apply not_elem_of_dom, is_fresh. }
      cbn [childMap_]. split; [|split; [|split]].
      * intros [Hlive Hdistinct]. split.
        -- intros o e l He Hc. cbn [childMap_] in He.
           apply lookup_insert_Some in He as [[<- <-]|[Hne He]].
           ++ cbn [childNode] in Hc. injection Hc as <-.
              rewrite lookup_insert_eq. eauto.
           ++ destruct (Hlive o e l He Hc) as [b Hb].
              exists b. rewrite lookup_insert_ne; [exact Hb|]. congruence.
        -- intros o1 o2 e1 e2 l He1 He2 Hc1 Hc2. cbn [childMap_] in He1, He2.
           apply lookup_insert_Some in He1 as [[<- <-]|[Hne1 He1]];
             apply lookup_insert_Some in He2 as [[<- <-]|[Hne2 He2]];
             cbn [childNode] in *.
           ++ reflexivity.
           ++ injection Hc1 as <-.
              destruct (Hlive o2 e2 _ He2 Hc2) as [b Hb]. congruence.
           ++ injection Hc2 as <-.
              destruct (Hlive o1 e1 _ He1 Hc1) as [b Hb]. congruence.
           ++ eapply Hdistinct; eauto.
      * now apply insert_subseteq.
      * intros o e He. exists e. split; [|reflexivity].
        rewrite lookup_insert_ne; [exact He|]. congruence.
      * intros o e' l He' Hc.
        apply lookup_insert_Some in He' as [[<- <-]|[Hne He']].
        -- cbn [childNode] in Hc. injection Hc as <-. now left.
        -- right. eauto.
  - apply bind_Ok in Hc as (m1 & Hu & [= <-]). cbn [fst snd].
    unfold disc_updateVisitCount in Hu. ok_steps. subst m1. cbn [childMap_].
    assert (Hsame : forall o e', <[obs:={| childNode := childNode (subscript (childMap_ m) obs);
                              visitCount := visitCount (subscript (childMap_ m) obs) + k |}]>
                          (childMap_ m) !! o = Some e' ->
              forall l, childNode e' = Some l ->
              exists e, childMap_ m !! o = Some e /\ childNode e = Some l).
    { intros o e' He' l Hc.
      apply lookup_insert_Some in He' as [[<- <-]|[Hne He']]; [|eauto].
      cbn [childNode] in Hc. unfold subscript in Hc.
      destruct (childMap_ m !! obs) as [e|]; [eauto | discriminate]. }
    split; [|split; [|split]].
    + intros [Hlive Hdistinct]. split.
      * intros o e' l He' Hc. destruct (Hsame o e' He' l Hc) as (e & He & Hce).
        eapply Hlive; eauto.
      * intros o1 o2 e1 e2 l He1 He2 Hc1 Hc2.
        destruct (Hsame o1 e1 He1 l Hc1) as (e1' & He1' & Hce1).
        destruct (Hsame o2 e2 He2 l Hc2) as (e2' & He2' & Hce2).
        eapply Hdistinct; eauto.
    + reflexivity.
    + intros o e He. destruct (decide (o = obs)) as [->|Hne].
      * rewrite lookup_insert_eq. eexists. split; [reflexivity|].
        cbn [childNode]. unfold subscript. now rewrite He.
      * rewrite lookup_insert_ne by congruence. eauto.
    + intros o e' l He' Hc. right. eauto.
Qed.

(** After any sequence of [createBelief] and [updateVisitCount] calls on a
    new mapping, the mapping owns its children: each child pointer refers to
    a node of the heap that the mapping allocated itself, no two entries
    share a node, and the nodes that were on the heap before are still
    there. *)
Theorem children_are_distinct_live_nodes (pool : ActionPool)
    (cs : list map_call) (heap heap' : gmap positive BeliefNode) (m : Map) :
  calls cs (DiscreteObservationMap_new pool, heap) = Ok (m, heap') ->
  owns_children m heap' /\
  heap ⊆ heap' /\
  (forall obs e l, childMap_ m !! obs = Some e -> childNode e = Some l ->
     heap !! l = None).
Proof.
  assert (Hgen : forall (cs : list map_call)
                        (s s' : Map * gmap positive BeliefNode),
    calls cs s = Ok s' ->
    owns_children s.1 s.2 ->
    (forall obs e l, childMap_ s.1 !! obs = Some e -> childNode e = Some l ->
       heap !! l = None) ->
    heap ⊆ s.2 ->
    owns_children s'.1 s'.2 /\ heap ⊆ s'.2 /\
    (forall obs e l, childMap_ s'.1 !! obs = Some e -> childNode e = Some l ->
       heap !! l = None)).
  { clear cs heap' m. induction cs as [|c cs IH]; intros s s' Hr Hown Hnew Hsub.
    - injection Hr as <-. auto.
    - cbn [calls] in Hr. apply bind_Ok in Hr as (s1 & Hc & Hr).
      destruct (call_keeps_children c s s1 Hc) as (Ho & Hs & _ & Hfrom).
      apply (IH s1 s' Hr); [auto | | etransitivity; eauto].
      intros obs e l He Hl. destruct (Hfrom obs e l He Hl) as [Hn | (e0 & He0 & Hl0)].
      + destruct (heap !! l) as [b|] eqn:Hb; [|reflexivity].
        apply (lookup_weaken _ _ _ _ Hb) in Hsub. congruence.
      + eapply Hnew; eauto. }
  intros Hr.
  apply (Hgen cs (DiscreteObservationMap_new pool, heap) (m, heap') Hr).
  - split; cbn; intros *; rewrite lookup_empty; discriminate.
  - cbn. intros *. rewrite lookup_empty. discriminate.
  - reflexivity.
Qed.

(** No call removes an entry or changes its child pointer: an entry that
    [updateVisitCount] created without a child never gets one, and the
    number of entries never decreases. *)
Theorem entries_keep_their_child (cs : list map_call)
    (m m' : Map) (heap heap' : gmap positive BeliefNode) :
  calls cs (m, heap) = Ok (m', heap') ->
  (forall obs e, childMap_ m !! obs = Some e ->
     exists e', childMap_ m' !! obs = Some e' /\ childNode e' = childNode e) /\
  (forall obs e, childMap_ m !! obs = Some e ->
     disc_getBelief m' obs = disc_getBelief m obs) /\
  disc_getNChildren m <= disc_getNChildren m'.
Proof.
  assert (Hgen : forall (cs : list map_call)
                        (s s' : Map * gmap positive BeliefNode),
    calls cs s = Ok s' ->
    forall obs e, childMap_ s.1 !! obs = Some e ->
      exists e', childMap_ s'.1 !! obs = Some e' /\ childNode e' = childNode e).
  { clear. induction cs as [|c cs IH]; intros s s' Hr obs e He.
    - injection Hr as <-. eauto.
    - cbn [calls] in Hr. apply bind_Ok in Hr as (s1 & Hc & Hr).
      destruct (call_keeps_children c s s1 Hc) as (_ & _ & Hkeep & _).
      destruct (Hkeep obs e He) as (e1 & He1 & Hc1).
      destruct (IH s1 s' Hr obs e1 He1) as (e' & He' & Hc').
      exists e'. split; [exact He' | congruence]. }
  intros Hr. specialize (Hgen cs (m, heap) (m', heap') Hr). cbn [fst] in Hgen.
  split; [exact Hgen|]. split.
  - intros obs e He. destruct (Hgen obs e He) as (e' & He' & Hc).
    rewrite !disc_getBelief_lookup, He, He'. now rewrite Hc.
  - unfold disc_getNChildren. apply inj_le.
    rewrite <- !size_dom. apply subseteq_size. intros obs Hin.
    apply elem_of_dom in Hin as [e He]. apply elem_of_dom.
    destruct (Hgen obs e He) as (e' & He' & _). eauto.
Qed.

End MapFacts.

(** The theorems at the concrete mappings of [Example]. *)
Lemma total_visit_count_is_sum_of_entries_witness :
  disc_getTotalVisitCount Example.visited_only
  = sum_visit_counts Example.visited_only.
Proof.
  apply (total_visit_count_is_sum_of_entries (ActionMapping := unit) tt
           [CallUpdateVisitCount 7 1]
           Example.empty_heap Example.empty_heap).
  reflexivity.
Defined.

Lemma updateVisitCount_creates_entry_without_child_witness :
  exists m',
    disc_updateVisitCount Example.empty_map 7 1 = Ok m' /\
    childMap_ m' !! 7 = Some {| childNode := nullptr; visitCount := 1 |} /\
    disc_getNChildren m' = disc_getNChildren Example.empty_map + 1 /\
    disc_getTotalVisitCount m' = disc_getTotalVisitCount Example.empty_map + 1 /\
    disc_getBelief m' 7 = Ok nullptr /\
    child_node_count m' = child_node_count Example.empty_map /\
    child_node_count m' < disc_getNChildren m'.
Proof.
  apply (updateVisitCount_creates_entry_without_child Example.empty_map 7 1);
    reflexivity.
Defined.

Lemma createBelief_keeps_existing_entry_witness :
  exists l,
    disc_createBelief Example.visited_only 7 Example.empty_heap =
      Ok (Example.visited_only, Example.empty_heap, Some l) /\
    Example.empty_heap !! l = None /\
    disc_getBelief Example.visited_only 7 = Ok nullptr /\
    disc_getVisitCount Example.visited_only 7 = Ok 1.
Proof.
  exact (createBelief_keeps_existing_entry Example.visited_only 7
           Example.empty_heap {| childNode := nullptr; visitCount := 1 |}
           eq_refl).
Defined.

Lemma updateVisitCount_adds_to_one_entry_witness :
  disc_getVisitCount Example.visited_only 7 =
    Ok (match childMap_ Example.empty_map !! 7 with
        | Some e => visitCount e
        | None => 0
        end + 1) /\
  disc_getBelief Example.visited_only 7 = disc_getBelief Example.empty_map 7 /\
  disc_getTotalVisitCount Example.visited_only =
    disc_getTotalVisitCount Example.empty_map + 1 /\
  (forall other, other <> 7 ->
     disc_getVisitCount Example.visited_only other =
       disc_getVisitCount Example.empty_map other /\
     disc_getBelief Example.visited_only other =
       disc_getBelief Example.empty_map other).
Proof.
  exact (updateVisitCount_adds_to_one_entry
           Example.empty_map Example.visited_only 7 1 eq_refl).
Defined.

Lemma updateVisitCount_composes_witness :
  (forall m1' m2',
      disc_updateVisitCount Example.empty_map 7 2 = Ok m1' ->
      disc_updateVisitCount m1' 7 1 = Ok m2' -> m2' = Example.visited_twice) /\
  (7 = 7 -> in_long (1 + 2) = true ->
   disc_updateVisitCount Example.empty_map 7 (1 + 2) = Ok Example.visited_twice).
Proof.
  exact (updateVisitCount_composes
           Example.empty_map Example.visited_only Example.visited_twice 7 7 1 2
           eq_refl eq_refl).
Defined.


Lemma children_are_distinct_live_nodes_witness :
  owns_children Example.two_children_map Example.two_children_heap /\
  Example.empty_heap ⊆ Example.two_children_heap /\
  (forall obs e l,
     childMap_ Example.two_children_map !! obs = Some e ->
     childNode e = Some l -> Example.empty_heap !! l = None).
Proof.
  exact (children_are_distinct_live_nodes (ActionMapping := unit) tt
           [CallCreateBelief 7; CallUpdateVisitCount 8 1; CallCreateBelief 9]
           Example.empty_heap Example.two_children_heap
           Example.two_children_map eq_refl).
Defined.

Lemma entries_keep_their_child_witness :
  (forall obs e, childMap_ Example.visited_only !! obs = Some e ->
     exists e', childMap_ Example.visited_twice !! obs = Some e' /\
                childNode e' = childNode e) /\
  (forall obs e, childMap_ Example.visited_only !! obs = Some e ->
     disc_getBelief Example.visited_twice obs =
     disc_getBelief Example.visited_only obs) /\
  disc_getNChildren Example.visited_only <=
  disc_getNChildren Example.visited_twice.
Proof.
  exact (entries_keep_their_child (ActionMapping := unit)
           [CallCreateBelief 7; CallUpdateVisitCount 7 2]
           Example.visited_only Example.visited_twice
           Example.empty_heap Example.empty_heap eq_refl).
Defined.

End DiscreteObservationsFacts.

(** ** The action node *)

Module ActionNodeFacts.
Import DiscreteObservations ActionNodes DiscreteObservationsFacts.

Lemma long_result_benign (z : Z) : benign (long_result z).
Proof. unfold long_result. destruct (in_long z); simpl; [exact I | discriminate]. Qed.

Section NodeFacts.
Context {Observation ActionMapping BeliefNode M : Type}.
Context `{!BeliefNodeAPI ActionMapping BeliefNode}.
Context `{!ObservationMapping Observation BeliefNode M}.

(** The guard [nParticles_ > 0] keeps the division away from zero:
    recalculation always returns. *)
Lemma recalculateQValue_Ok (a : ActionNode M) :
  recalculateQValue a =
  Ok (if 0 <? nParticles_ a
      then {| nParticles_ := nParticles_ a;
              totalQValue_ := totalQValue_ a;
              meanQValue_ :=
                (totalQValue_ a / double_of_long (nParticles_ a))%float;
              obsMap_ := obsMap_ a |}
      else {| nParticles_ := nParticles_ a;
              totalQValue_ := 0%float;
              meanQValue_ := neg_infinity;
              obsMap_ := obsMap_ a |}).
Proof.
  unfold recalculateQValue, fdiv_long.
  destruct (0 <? nParticles_ a) eqn:Hpos; [|reflexivity].
  apply Z.ltb_lt in Hpos.
  destruct (nParticles_ a =? 0) eqn:Hz; [apply Z.eqb_eq in Hz; lia | reflexivity].
Qed.

Lemma recalculateQValue_consistent (a a' : ActionNode M) :
  recalculateQValue a = Ok a' -> mean_consistent a' /\ unvisited_reset a'.
Proof.
  rewrite recalculateQValue_Ok. intros [= <-].
  destruct (0 <? nParticles_ a) eqn:Hpos; unfold mean_consistent, unvisited_reset;
    simpl.
  - apply Z.ltb_lt in Hpos. repeat split; try reflexivity; intros; lia.
  - apply Z.ltb_ge in Hpos. repeat split; try reflexivity; intros; lia.
Qed.

Lemma recalculateQValue_safe (a : ActionNode M) :
  update_safe (recalculateQValue a).
Proof.
  destruct (recalculateQValue a) as [a'| |] eqn:Hr;
    try (rewrite recalculateQValue_Ok in Hr; discriminate).
  simpl. now apply recalculateQValue_consistent in Hr.
Qed.

Lemma changeTotalQValue_safe (a : ActionNode M) (deltaQ : float) (deltaN : Z) :
  update_safe (changeTotalQValue a deltaQ deltaN).
Proof.
  unfold changeTotalQValue, ladd.
  destruct (long_result_cases (nParticles_ a + deltaN)) as [-> | ->]; simpl.
  - apply recalculateQValue_safe.
  - discriminate.
Qed.

Lemma changeTotalQValue_Ok (a a' : ActionNode M) (deltaQ : float) (deltaN : Z) :
  changeTotalQValue a deltaQ deltaN = Ok a' ->
  mean_consistent a' /\ unvisited_reset a'.
Proof.
  unfold changeTotalQValue. intros Hc. apply bind_Ok in Hc as (n & _ & Hc).
  now apply recalculateQValue_consistent in Hc.
Qed.

(** Whatever the mapping does, a returning [updateSequenceCount] ends in the
    recalculation. *)
Lemma updateSequenceCount_Ok (a a' : ActionNode M) (obs : Observation)
    (discount : float) (deltaN : Z) (heap heap' : gmap positive BeliefNode) :
  updateSequenceCount a obs discount deltaN heap = Ok (a', heap') ->
  mean_consistent a' /\ unvisited_reset a'.
Proof.
  unfold updateSequenceCount. intros Hu.
  apply bind_Ok in Hu as (c & _ & Hu).
  apply bind_Ok in Hu as ([l b] & _ & Hu).
  apply bind_Ok in Hu as (n1 & _ & Hu).
  apply bind_Ok in Hu as (n2 & _ & Hu).
  apply bind_Ok in Hu as (n3 & _ & Hu).
  apply bind_Ok in Hu as (n4 & _ & Hu).
  apply bind_Ok in Hu as (a1 & Hr & Hu).
  injection Hu as <- _. now apply recalculateQValue_consistent in Hr.
Qed.

(** [createOrGetChild] leaves the statistics alone. *)
Lemma createOrGetChild_statistics (a a' : ActionNode M) (obs : Observation)
    (heap heap' : gmap positive BeliefNode) (res : BeliefNodePtr * bool) :
  createOrGetChild a obs heap = Ok (a', heap', res) ->
  nParticles_ a' = nParticles_ a /\ totalQValue_ a' = totalQValue_ a /\
  meanQValue_ a' = meanQValue_ a.
Proof.
  unfold createOrGetChild. intros Hc.
  apply bind_Ok in Hc as (c & _ & Hc).
  destruct c as [l|].
  - injection Hc as <- _ _. auto.
  - destruct (obsMap_ a) as [m|]; [|discriminate].
    apply bind_Ok in Hc as ([[m' h'] p] & _ & Hc).
    injection Hc as <- _ _. auto.
Qed.

(** C10: every operation of an action node keeps the invariant that a node
    whose particle count is 0 has total Q-value 0 and mean Q-value minus
    infinity; [changeTotalQValue(deltaQ, 0)] on an unvisited node resets
    the total to 0 and so discards [deltaQ]. *)
Theorem unvisited_node_holds_no_total :
  (forall mapping : option M, unvisited_reset (ActionNode_new mapping)) /\
  (forall (op : operation) (a a' : ActionNode M)
          (heap heap' : gmap positive BeliefNode),
      unvisited_reset a ->
      perform op a heap = Ok (a', heap') ->
      unvisited_reset a') /\
  (forall (a : ActionNode M) (deltaQ : float),
      nParticles_ a = 0 ->
      changeTotalQValue a deltaQ 0 =
      Ok {| nParticles_ := 0; totalQValue_ := 0%float;
            meanQValue_ := neg_infinity; obsMap_ := obsMap_ a |}).
Proof.
  split; [|split].
  - intros mapping _. split; reflexivity.
  - intros op a a' heap heap' Hinv Hp. destruct op; simpl in Hp.
    + apply bind_Ok in Hp as (a1 & Hc & [= <- _]).
      now apply changeTotalQValue_Ok in Hc.
    + now apply updateSequenceCount_Ok in Hp.
    + apply bind_Ok in Hp as (a1 & Hc & [= <- _]).
      now apply recalculateQValue_consistent in Hc.
    + apply bind_Ok in Hp as ([[a1 h1] res] & Hc & [= <- _]).
      apply createOrGetChild_statistics in Hc as (Hn & Ht & Hm).
      unfold unvisited_reset in *. rewrite Hn, Ht, Hm. exact Hinv.
  - intros a deltaQ Hn. unfold changeTotalQValue, ladd. rewrite Hn. simpl.
    rewrite recalculateQValue_Ok. reflexivity.
Qed.

(** C1 (as amended): with a child belief node for [o], and all [long]
    arithmetic in range, [updateSequenceCount] returns; the child is
    recalculated in place, the visit count becomes [n + delta]; when that
    count is positive the total Q-value is the incremental sequence-count
    formula and the mean is the total over the count; when it is not, the
    total is reset to 0 and the mean to minus infinity. *)
Theorem updateSequenceCount_incremental_formula
    (a : ActionNode M) (obs : Observation) (discount : float) (deltaN : Z)
    (heap : gmap positive BeliefNode) (l : positive) (b : BeliefNode) :
  getChild a obs = Ok (Some l) ->
  heap !! l = Some b ->
  let newSeq := BeliefNode_getNParticles b - numberOfStartingSequences_ b
                + numberOfEndingSequences_ b in
  let oldSeq := newSeq - deltaN in
  let b' := BeliefNode_recalculateQValue b in
  let total := sequence_formula (totalQValue_ a) oldSeq newSeq discount
                 (BeliefNode_getQValue b) (BeliefNode_getQValue b') in
  in_long (BeliefNode_getNParticles b - numberOfStartingSequences_ b) = true ->
  in_long newSeq = true ->
  in_long oldSeq = true ->
  in_long (nParticles_ a + deltaN) = true ->
  exists a',
    updateSequenceCount a obs discount deltaN heap = Ok (a', <[l := b']> heap) /\
    nParticles_ a' = nParticles_ a + deltaN /\
    obsMap_ a' = obsMap_ a /\
    (0 < nParticles_ a + deltaN ->
       totalQValue_ a' = total /\
       meanQValue_ a' =
         (total / double_of_long (nParticles_ a + deltaN))%float) /\
    (nParticles_ a + deltaN <= 0 ->
       totalQValue_ a' = 0%float /\ meanQValue_ a' = neg_infinity).
Proof.
  intros Hc Hb newSeq oldSeq b' total H1 H2 H3 H4.
  unfold updateSequenceCount. rewrite Hc. simpl. rewrite Hb. simpl.
  unfold lsub, ladd.
  rewrite (long_result_in _ H1). simpl.
  fold newSeq. rewrite (long_result_in _ H2). simpl.
  fold oldSeq. rewrite (long_result_in _ H3). simpl.
  rewrite (long_result_in _ H4). simpl.
  rewrite recalculateQValue_Ok. simpl.
  eexists. split; [reflexivity|].
  assert (Ht : total =
                 (if negb (newSeq =? 0)
                  then PrimFloat.add
                         (if negb (oldSeq =? 0)
                          then PrimFloat.sub (totalQValue_ a)
                                 (PrimFloat.mul
                                    (PrimFloat.mul (double_of_long oldSeq) discount)
                                    (BeliefNode_getQValue b))
                          else totalQValue_ a)
                         (PrimFloat.mul
                            (PrimFloat.mul (double_of_long newSeq) discount)
                            (BeliefNode_getQValue b'))
                  else if negb (oldSeq =? 0)
                       then PrimFloat.sub (totalQValue_ a)
                              (PrimFloat.mul
                                 (PrimFloat.mul (double_of_long oldSeq) discount)
                                 (BeliefNode_getQValue b))
                       else totalQValue_ a)).
  { unfold total, sequence_formula, sequence_term.
    destruct (oldSeq =? 0), (newSeq =? 0); reflexivity. }
  destruct (0 <? nParticles_ a + deltaN) eqn:Hpos; simpl.
  - apply Z.ltb_lt in Hpos.
    repeat split; intros; try reflexivity; try lia; rewrite Ht; reflexivity.
  - apply Z.ltb_ge in Hpos. repeat split; intros; try reflexivity; lia.
Qed.

(** A node without observation mapping, as [ActionNode()] builds it, keeps
    its statistics usable, but every member that goes through the mapping
    dereferences the null [obsMap_]. *)
Theorem node_without_mapping (a : ActionNode M) (obs : Observation)
    (discount : float) (deltaN : Z) (heap : gmap positive BeliefNode) :
  obsMap_ a = None ->
  getChild a obs = Undef null_dereference /\
  createOrGetChild a obs heap = Undef null_dereference /\
  updateSequenceCount a obs discount deltaN heap = Undef null_dereference /\
  (forall a', recalculateQValue a = Ok a' -> obsMap_ a' = None) /\
  (forall deltaQ a', changeTotalQValue a deltaQ deltaN = Ok a' ->
     obsMap_ a' = None).
Proof.
  intros Hm. unfold createOrGetChild, updateSequenceCount, getChild.
  rewrite Hm. cbn [bind]. repeat split.
  - intros a'. rewrite recalculateQValue_Ok. intros [= <-].
    destruct (0 <? nParticles_ a); exact Hm.
  - intros deltaQ a' Hc. unfold changeTotalQValue in Hc.
    apply bind_Ok in Hc as (n & _ & Hc). rewrite recalculateQValue_Ok in Hc.
    injection Hc as <-. cbn [nParticles_ obsMap_].
    destruct (0 <? n); exact Hm.
Qed.

(** [updateSequenceCount] reads the child of the observation without a
    check: when [getChild] finds none, or finds a pointer to no node of the
    heap, it dereferences it, whatever the other arguments are. *)
Theorem updateSequenceCount_without_child (a : ActionNode M)
    (obs : Observation) (discount : float) (deltaN : Z)
    (heap : gmap positive BeliefNode) (child : BeliefNodePtr) :
  getChild a obs = Ok child ->
  match child with
  | Some l => heap !! l = None
  | None => True
  end ->
  updateSequenceCount a obs discount deltaN heap = Undef null_dereference.
Proof.
  intros Hc Hl. unfold updateSequenceCount. rewrite Hc. cbn [bind].
  unfold deref. destruct child as [l|]; [rewrite Hl|]; reflexivity.
Qed.

End NodeFacts.

Section DiscreteNodeFacts.
Context {Observation : Type} `{Countable Observation}.
Context {ActionPool ActionMapping BeliefNode : Type}.
Context `{!BeliefNodeAPI ActionMapping BeliefNode}.
Context `{!ActionPoolAPI ActionPool ActionMapping}.

Abbreviation DMap := (DiscreteObservationMap Observation ActionPool).

Lemma getChild_benign (a : ActionNode DMap) (obs : Observation) :
  benign (getChild a obs).
Proof.
  unfold getChild. destruct (obsMap_ a) as [m|]; simpl; [|discriminate].
  rewrite disc_getBelief_lookup. exact I.
Qed.

Lemma deref_benign (heap : gmap positive BeliefNode) (p : BeliefNodePtr) :
  benign (deref heap p).
Proof.
  unfold deref. destruct p as [l|]; [destruct (heap !! l)|]; simpl;
    solve [exact I | discriminate].
Qed.

Lemma bind_safe {A : Type} (c : outcome A) (k : A -> outcome (ActionNode DMap)) :
  benign c -> (forall x, update_safe (k x)) -> update_safe (bind c k).
Proof. destruct c; simpl; auto. Qed.

Lemma bind_long_Throw {B : Type} (z : Z) (k : Z -> outcome B) (e : exception) :
  bind (long_result z) k = Throw e -> k z = Throw e.
Proof. destruct (long_result_cases z) as [-> | ->]; simpl; [auto | discriminate]. Qed.

Lemma bind_long_Undef {B : Type} (z : Z) (k : Z -> outcome B) (u : undefined) :
  bind (long_result z) k = Undef u -> u = signed_overflow \/ k z = Undef u.
Proof.
  destruct (long_result_cases z) as [-> | ->]; simpl; [auto | intros [= <-]; auto].
Qed.

Lemma updateSequenceCount_safe (a : ActionNode DMap) (obs : Observation)
    (discount : float) (deltaN : Z) (heap : gmap positive BeliefNode) :
  update_safe (bind (updateSequenceCount a obs discount deltaN heap)
                    (fun r => Ok r.1)).
Proof.
  destruct (updateSequenceCount a obs discount deltaN heap) as [[a' h']|e|u] eqn:Hu;
    simpl.
  - now apply updateSequenceCount_Ok in Hu.
  - unfold updateSequenceCount in Hu.
    pose proof (getChild_benign a obs) as Hg.
    destruct (getChild a obs) as [c| |]; cbn [bind benign] in Hu, Hg; try easy.
    pose proof (deref_benign heap c) as Hd.
    destruct (deref heap c) as [[l b]| |]; cbn [bind benign] in Hu, Hd; try easy.
    unfold lsub, ladd in Hu.
    do 4 apply bind_long_Throw in Hu.
    rewrite recalculateQValue_Ok in Hu. discriminate.
  - unfold updateSequenceCount in Hu.
    pose proof (getChild_benign a obs) as Hg.
    destruct (getChild a obs) as [c| |]; cbn [bind benign] in Hu, Hg;
      try congruence.
    pose proof (deref_benign heap c) as Hd.
    destruct (deref heap c) as [[l b]| |]; cbn [bind benign] in Hu, Hd;
      try congruence.
    unfold lsub, ladd in Hu.
    do 4 (apply bind_long_Undef in Hu as [-> | Hu]; [discriminate|]).
    rewrite recalculateQValue_Ok in Hu. discriminate.
Qed.

(** C2: after construction and after every update ([changeTotalQValue],
    [updateSequenceCount]) the mean Q-value is the total divided by the
    visit count when the count is positive and minus infinity when it is 0;
    no update throws and none divides by zero; [changeTotalQValue] returns
    whenever the new count is a [long]. *)
Theorem mean_q_value_after_every_update :
  (forall mapping : option DMap, mean_consistent (ActionNode_new mapping)) /\
  (forall (a : ActionNode DMap) (deltaQ : float) (deltaN : Z),
      update_safe (changeTotalQValue a deltaQ deltaN)) /\
  (forall (a : ActionNode DMap) (obs : Observation) (discount : float)
          (deltaN : Z) (heap : gmap positive BeliefNode),
      update_safe (bind (updateSequenceCount a obs discount deltaN heap)
                        (fun r => Ok r.1))) /\
  (forall (a : ActionNode DMap) (deltaQ : float) (deltaN : Z),
      in_long (nParticles_ a + deltaN) = true ->
      exists a', changeTotalQValue a deltaQ deltaN = Ok a').
Proof.
  split; [|split; [|split]].
  - intros mapping. split; simpl; [lia | reflexivity].
  - apply changeTotalQValue_safe.
  - apply updateSequenceCount_safe.
  - intros a deltaQ deltaN Hin. unfold changeTotalQValue, ladd.
    rewrite (long_result_in _ Hin). simpl. rewrite recalculateQValue_Ok. eauto.
Qed.

(** C3 (as amended): [getBelief(o)] is null exactly when no entry for [o]
    holds a child, that is when there is no entry or the entry's child
    pointer is null; when there is no entry for [o], [createBelief(o)]
    allocates a new belief node, built on the action mapping that the
    owning action pool produces, and [getBelief(o)] returns it afterwards;
    [createOrGetChild(o)] returns the child that [getBelief(o)] finds with
    [added = false], and when there is no entry for [o] it creates the
    child and returns it with [added = true]. *)
Theorem child_lookup_and_creation (m : DMap) (obs : Observation)
    (heap : gmap positive BeliefNode) :
  (disc_getBelief m obs = Ok nullptr <->
   childMap_ m !! obs = None \/
   exists v, childMap_ m !! obs = Some {| childNode := nullptr; visitCount := v |}) /\
  (childMap_ m !! obs = None ->
   exists m' l,
     disc_createBelief m obs heap =
       Ok (m', <[l := BeliefNode_new (createActionMapping (actionPool_ m))]> heap,
           Some l) /\
     heap !! l = None /\
     disc_getBelief m' obs = Ok (Some l)) /\
  (forall a : ActionNode DMap,
     obsMap_ a = Some m ->
     (forall l, disc_getBelief m obs = Ok (Some l) ->
        createOrGetChild a obs heap = Ok (a, heap, (Some l, false))) /\
     (childMap_ m !! obs = None ->
      exists a' l,
        createOrGetChild a obs heap =
          Ok (a', <[l := BeliefNode_new (createActionMapping (actionPool_ m))]> heap,
              (Some l, true)) /\
        heap !! l = None /\
        getChild a' obs = Ok (Some l) /\
        nParticles_ a' = nParticles_ a /\
        totalQValue_ a' = totalQValue_ a /\
        meanQValue_ a' = meanQValue_ a)).
Proof.
  assert (Hfresh : heap !! fresh (dom heap) = None).
  { apply not_elem_of_dom, is_fresh. }
  split; [|split].
  - rewrite disc_getBelief_lookup.
    destruct (childMap_ m !! obs) as [[c v]|] eqn:Hl; simpl.
    + split.
      * intros [= ->]. right. eauto.
      * intros [[=] | [v' [= -> _]]]. reflexivity.
    + split; auto.
  - intros Hl. unfold disc_createBelief. rewrite Hl.
    do 2 eexists. split; [reflexivity|]. split; [exact Hfresh|].
    rewrite disc_getBelief_lookup. simpl. now rewrite lookup_insert_eq.
  - intros a Ha. split.
    + intros l Hg. unfold createOrGetChild, getChild. rewrite Ha. simpl.
      rewrite Hg. reflexivity.
    + intros Hl. unfold createOrGetChild, getChild. rewrite Ha. simpl.
      rewrite disc_getBelief_lookup, Hl. simpl.
      unfold disc_createBelief. rewrite Hl. simpl.
      do 2 eexists. split; [reflexivity|]. split; [exact Hfresh|].
      simpl. rewrite disc_getBelief_lookup. simpl.
      rewrite lookup_insert_eq. auto.
Qed.

(** [createOrGetChild(o)] twice, for an observation without entry: the
    first call creates the child and reports [added = true], the second
    returns the same child with [added = false] and changes nothing. *)
Theorem createOrGetChild_twice (a : ActionNode DMap) (m : DMap)
    (obs : Observation) (heap : gmap positive BeliefNode) :
  obsMap_ a = Some m ->
  childMap_ m !! obs = None ->
  exists a' heap' l,
    createOrGetChild a obs heap = Ok (a', heap', (Some l, true)) /\
    createOrGetChild a' obs heap' = Ok (a', heap', (Some l, false)) /\
    is_Some (heap' !! l) /\ heap !! l = None.
Proof.
  intros Ha Hl. unfold createOrGetChild at 1, getChild. rewrite Ha. simpl.
  rewrite disc_getBelief_lookup, Hl. simpl.
  unfold disc_createBelief. rewrite Hl. simpl.
  do 3 eexists. split; [reflexivity|]. split; [|split].
  - unfold createOrGetChild, getChild. simpl.
    rewrite disc_getBelief_lookup. simpl.
    rewrite lookup_insert_eq. reflexivity.
  - rewrite lookup_insert_eq. eauto.
  - apply not_elem_of_dom, is_fresh.
Qed.

End DiscreteNodeFacts.

(** *** The theorems at the concrete nodes of [Example] *)

Lemma unvisited_node_holds_no_total_witness :
  unvisited_reset
    {| nParticles_ := 0; totalQValue_ := 0%float; meanQValue_ := neg_infinity;
       obsMap_ := Some Example.one_child_map |}.
Proof.
  apply (proj1 (proj2 unvisited_node_holds_no_total)
           (OpChangeTotalQValue 5%float 0) (Example.node_with 0 0%float) _
           Example.one_child_heap Example.one_child_heap).
  - intros _. split; reflexivity.
  - reflexivity.
Defined.

Lemma mean_q_value_after_every_update_witness :
  exists a',
    changeTotalQValue (Example.node_with 1 0.5%float) 2.5%float 1 = Ok a'.
Proof.
  apply (proj2 (proj2 (proj2 mean_q_value_after_every_update))
           (Example.node_with 1 0.5%float) 2.5%float 1).
  reflexivity.
Defined.

(** A visited node: the count goes from 1 to 2, the total from 0.5 to
    0.5 - 1*1*1 + 2*1*3 = 5.5, the mean to 2.75. *)
Lemma updateSequenceCount_incremental_formula_witness :
  exists a',
    updateSequenceCount (Example.node_with 1 0.5%float) 7 1%float 1
      Example.one_child_heap
    = Ok (a', <[1%positive := Example.settle Example.child]> Example.one_child_heap) /\
    nParticles_ a' = 1 + 1 /\
    obsMap_ a' = Some Example.one_child_map /\
    (0 < 1 + 1 ->
       totalQValue_ a' = sequence_formula 0.5%float (2 - 0 + 0 - 1) (2 - 0 + 0)
                           1%float 1%float 3%float /\
       meanQValue_ a' =
         (sequence_formula 0.5%float (2 - 0 + 0 - 1) (2 - 0 + 0)
            1%float 1%float 3%float / double_of_long (1 + 1))%float) /\
    (1 + 1 <= 0 ->
       totalQValue_ a' = 0%float /\ meanQValue_ a' = neg_infinity).
Proof.
  exact (updateSequenceCount_incremental_formula
           (Example.node_with 1 0.5%float) 7 1%float 1
           Example.one_child_heap 1%positive Example.child
           eq_refl eq_refl eq_refl eq_refl eq_refl eq_refl).
Defined.

(** C1 as stated fails on a node whose count stays 0: the formula gives
    0 - 2*1*1 + 2*1*3 = 4 for the total, the call leaves 0. *)
Lemma updateSequenceCount_total_counterexample :
  exists a' heap',
    updateSequenceCount (Example.node_with 0 0%float) 7 1%float 0
      Example.one_child_heap = Ok (a', heap') /\
    nParticles_ a' = 0 /\
    sequence_formula 0%float 2 2 1%float 1%float 3%float = 4%float /\
    totalQValue_ a' = 0%float /\
    totalQValue_ a' <> sequence_formula 0%float 2 2 1%float 1%float 3%float.
Proof.
  do 2 eexists. split; [vm_compute; reflexivity|].
  repeat split.
  intros E. apply (f_equal (fun v => PrimFloat.eqb v 4%float)) in E.
  vm_compute in E. discriminate.
Qed.

Lemma child_lookup_and_creation_witness :
  exists m' l,
    disc_createBelief Example.empty_map 7 Example.empty_heap =
      Ok (m', <[l := Example.fresh_node tt]> Example.empty_heap, Some l) /\
    Example.empty_heap !! l = None /\
    disc_getBelief m' 7 = Ok (Some l).
Proof.
  exact (proj1 (proj2 (child_lookup_and_creation
                         Example.empty_map 7 Example.empty_heap)) eq_refl).
Defined.

(** C3 as stated fails on the mapping that [updateVisitCount(7, 1)] leaves:
    an entry for 7 exists and [getBelief(7)] is null; [createBelief(7)]
    then changes neither the mapping nor the heap, so [getBelief(7)] is
    still null and the pointer returned (also by [createOrGetChild], with
    [added = true]) refers to no node. *)
Lemma child_lookup_counterexample :
  disc_updateVisitCount Example.empty_map 7 1 = Ok Example.visited_only /\
  is_Some (childMap_ Example.visited_only !! 7) /\
  disc_getBelief Example.visited_only 7 = Ok nullptr /\
  ~ (disc_getBelief Example.visited_only 7 = Ok nullptr <->
     childMap_ Example.visited_only !! 7 = None) /\
  exists l,
    disc_createBelief Example.visited_only 7 Example.empty_heap =
      Ok (Example.visited_only, Example.empty_heap, Some l) /\
    Example.empty_heap !! l = None /\
    disc_getBelief Example.visited_only 7 <> Ok (Some l) /\
    createOrGetChild (ActionNode_new (Some Example.visited_only)) 7
      Example.empty_heap =
      Ok (ActionNode_new (Some Example.visited_only), Example.empty_heap,
          (Some l, true)).
Proof.
  split; [reflexivity|]. split; [eexists; reflexivity|].
  split; [reflexivity|]. split.
  - intros [Hn _]. specialize (Hn eq_refl). vm_compute in Hn. discriminate.
  - exists 1%positive. repeat split; try reflexivity. discriminate.
Qed.

Lemma node_without_mapping_witness :
  getChild (ActionNode_default (M := Example.Map)) 7 = Undef null_dereference /\
  createOrGetChild (ActionNode_default (M := Example.Map)) 7 Example.empty_heap
    = Undef null_dereference /\
  updateSequenceCount (ActionNode_default (M := Example.Map)) 7 1%float 1
    Example.empty_heap = Undef null_dereference /\
  (forall a', recalculateQValue (ActionNode_default (M := Example.Map)) = Ok a' ->
     obsMap_ a' = None) /\
  (forall deltaQ a',
     changeTotalQValue (ActionNode_default (M := Example.Map)) deltaQ 1 = Ok a' ->
     obsMap_ a' = None).
Proof.
  exact (node_without_mapping (ActionNode_default (M := Example.Map)) 7 1%float 1
           Example.empty_heap eq_refl).
Defined.

Lemma updateSequenceCount_without_child_witness :
  updateSequenceCount (ActionNode_new (Some Example.visited_only)) 7 1%float 1
    Example.empty_heap = Undef null_dereference.
Proof.
  exact (updateSequenceCount_without_child
           (ActionNode_new (Some Example.visited_only)) 7 1%float 1
           Example.empty_heap nullptr eq_refl I).
Defined.

Lemma createOrGetChild_twice_witness :
  exists a' heap' l,
    createOrGetChild (ActionNode_new (Some Example.empty_map)) 7
      Example.empty_heap = Ok (a', heap', (Some l, true)) /\
    createOrGetChild a' 7 heap' = Ok (a', heap', (Some l, false)) /\
    is_Some (heap' !! l) /\ Example.empty_heap !! l = None.
Proof.
  exact (createOrGetChild_twice (ActionNode_new (Some Example.empty_map))
           Example.empty_map 7 Example.empty_heap eq_refl eq_refl).
Defined.

End ActionNodeFacts.

(** ** The navigation model *)

Module Nav2DFacts.
Import Nav2D.

Local Open Scope R_scope.

Lemma quarter_turn_cos : cos (2 * PI * 0.25) = 0.
Proof. replace (2 * PI * 0.25) with (PI / 2) by lra. apply cos_PI2. Qed.

Lemma quarter_turn_sin : sin (2 * PI * 0.25) = 1.
Proof. replace (2 * PI * 0.25) with (PI / 2) by lra. apply sin_PI2. Qed.

Section ModelFacts.
Context {Rectangle2D : Type}.
Variable contains : Rectangle2D -> Point2D -> bool.
Context `{!Vector2DAPI}.

Abbreviation Model := (Nav2DModel Rectangle2D).

Lemma isInside_false (model : Model) (p : Point2D) (type : AreaType)
    (areas : gmap Z Rectangle2D) :
  getAreas model type = Some areas ->
  (forall id r, areas !! id = Some r -> contains r p = false) ->
  isInside contains model p type = false.
Proof.
  intros Ha Hall. unfold isInside. rewrite Ha.
  apply not_true_is_false. intros Hex.
  apply existsb_exists in Hex as ([id r] & Hin & Hc).
  apply list_elem_of_In, elem_of_map_to_list in Hin.
  simpl in Hc. rewrite (Hall id r Hin) in Hc. discriminate.
Qed.


(** On a straight path whose remaining points are all free, the loop runs
    to its bound and ends at the last point. *)
Lemma interpolate_straight_free (model : Model) (position : Point2D)
    (direction : R) (velocity : Vector2D) (radius : R) (center : Point2D)
    (remaining : nat) :
  forall (step : Z) (cur : Progress),
    (forall j : Z, (step <= j < step + Z.of_nat remaining)%Z ->
                   free contains model (straight_point model position velocity j)) ->
    interpolate contains model position direction velocity radius 0 center
      remaining step cur =
    match remaining with
    | O => cur
    | S _ =>
        let last := (step + Z.of_nat remaining - 1)%Z in
        {| currentScalar := IZR last / IZR (interpolationStepCount_ model);
           currentPosition := straight_point model position velocity last;
           currentDirection := currentDirection cur;
           inGoal := inGoal cur;
           hasCollision := hasCollision cur |}
    end.
Proof.
  induction remaining as [|n IH]; intros step cur Hfree; [reflexivity|].
  cbn [interpolate].
  destruct (Req_dec_T 0 0) as [_|Hne]; [|exfalso; apply Hne; reflexivity].
  fold (straight_point model position velocity step).
  destruct (Hfree step) as (Hmap & Hobs & Hgoal); [lia|].
  rewrite Hmap, Hobs, Hgoal. cbn [negb orb].
  rewrite IH by (intros j Hj; apply Hfree; lia).
  destruct n as [|n'].
  - cbn zeta. replace (step + Z.of_nat 1 - 1)%Z with step by lia. reflexivity.
  - cbn zeta. cbn [currentDirection inGoal hasCollision].
    replace (step + 1 + Z.of_nat (S n') - 1)%Z
      with (step + Z.of_nat (S (S n')) - 1)%Z by lia.
    reflexivity.
Qed.


Lemma point_eta (p : Point2D) : {| getX := getX p; getY := getY p |} = p.
Proof. now destruct p. Qed.

Lemma translate_null (p : Point2D) :
  translate p {| vecX := 0; vecY := 0 |} = p.
Proof.
  unfold translate. cbn [vecX vecY]. destruct p as [x y].
  cbn [getX getY]. f_equal; lra.
Qed.

Lemma translate_scale_1 (p : Point2D) (v : Vector2D) :
  translate p (scale 1 v) = translate p v.
Proof. unfold translate, scale. cbn [vecX vecY]. f_equal; lra. Qed.


Lemma displacement_translate (p : Point2D) (v : Vector2D) :
  displacement (translate p v) p = v.
Proof.
  unfold displacement, translate. cbn [getX getY]. destruct v as [x y].
  cbn [vecX vecY]. f_equal; lra.
Qed.

(** A straight step whose interpolation points are all free ends at the
    start moved by the velocity vector, and costs the time step and the
    length of that vector. *)
Lemma straight_step (model : Model) (state : Nav2DState) (speed : R) :
  (0 < interpolationStepCount_ model)%Z ->
  (forall j : Z, (1 <= j <= interpolationStepCount_ model)%Z ->
     free contains model
       (straight_point model (getPosition state)
          (Vector2D_polar speed (getDirection state)) j)) ->
  hasCollision (tryPath_progress contains model state speed 0) = false /\
  tryPath contains model state speed 0 =
  ({| getPosition :=
        translate (getPosition state)
          (Vector2D_polar speed (getDirection state));
      getDirection := getDirection state;
      stateCostPerUnitDistance := costPerUnitDistance_ model;
      stateCostPerRevolution := costPerRevolution_ model |},
   - (costPerUnitTime_ model * timeStepLength_ model)
   - costPerUnitDistance_ model
     * getMagnitude (Vector2D_polar speed (getDirection state))).
Proof.
  intros Hn Hfree.
  assert (Hnz : IZR (interpolationStepCount_ model) <> 0).
  { apply not_0_IZR. lia. }
  assert (Hlast : straight_point model (getPosition state)
                    (Vector2D_polar speed (getDirection state))
                    (interpolationStepCount_ model) =
                  translate (getPosition state)
                    (Vector2D_polar speed (getDirection state))).
  { unfold straight_point. rewrite Rdiv_diag by assumption.
    apply translate_scale_1. }
  assert (Hp : tryPath_progress contains model state speed 0 =
               {| currentScalar := 1;
                  currentPosition :=
                    translate (getPosition state)
                      (Vector2D_polar speed (getDirection state));
                  currentDirection := getDirection state;
                  inGoal := false;
                  hasCollision := false |}).
  { unfold tryPath_progress. rewrite Rmult_0_l.
    rewrite interpolate_straight_free by (intros j Hj; apply Hfree; lia).
    destruct (Z.to_nat (interpolationStepCount_ model)) as [|k] eqn:Hk; [lia|].
    cbn zeta. cbn [currentDirection inGoal hasCollision].
    replace (1 + Z.of_nat (S k) - 1)%Z with (interpolationStepCount_ model)
      by lia.
    rewrite Hlast. f_equal. now apply Rdiv_diag. }
  split; [now rewrite Hp|].
  unfold tryPath. rewrite Hp, Rmult_0_l.
  cbn [currentPosition currentDirection currentScalar inGoal hasCollision].
  rewrite point_eta.
  destruct (Req_dec_T 0 0) as [_|Hne]; [|exfalso; apply Hne; reflexivity].
  f_equal. rewrite displacement_translate. lra.
Qed.





(** *** What the loop of [tryPath] keeps *)

(** Where the loop ends: at the point it started from or at a point that
    passed the collision test; and, from a state without goal and without
    collision, in a goal area whenever it reports the goal, and then
    without collision. *)
Lemma interpolate_exit (model : Model) (position : Point2D) (direction : R)
    (velocity : Vector2D) (radius turnAmount : R) (center : Point2D)
    (remaining : nat) :
  forall (step : Z) (cur : Progress),
    let r := interpolate contains model position direction velocity radius
               turnAmount center remaining step cur in
    (currentPosition r = currentPosition cur \/
     (contains (mapArea_ model) (currentPosition r) = true /\
      isInside contains model (currentPosition r) OBSTACLE = false)) /\
    (inGoal cur = false -> hasCollision cur = false ->
     (inGoal r = true ->
      isInside contains model (currentPosition r) GOAL = true /\
      hasCollision r = false) /\
     (hasCollision r = true -> inGoal r = false)).
Proof.
  induction remaining as [|n IH]; intros step cur; cbn zeta.
  - cbn [interpolate]. split; [now left|]. intros Hg Hc. rewrite Hg, Hc.
    split; discriminate.
  - cbn [interpolate].
    set (scalar := IZR step / IZR (interpolationStepCount_ model)).
    set (dir := if Req_dec_T turnAmount 0 then currentDirection cur
                else direction + scalar * turnAmount).
    set (pos := if Req_dec_T turnAmount 0
                then translate position (scale scalar velocity)
                else translate center
                       (Vector2D_polar radius (rotation_angle dir turnAmount))).
    destruct (contains (mapArea_ model) pos) eqn:Hmap; cbn [negb orb].
    + destruct (isInside contains model pos OBSTACLE) eqn:Hobs.
      * cbn [currentPosition inGoal hasCollision]. split; [now left|].
        intros Hg Hc. rewrite Hg. split; [discriminate | reflexivity].
      * destruct (isInside contains model pos GOAL) eqn:Hgoal.
        -- cbn [currentPosition inGoal hasCollision]. split; [right; auto|].
           intros Hg Hc. rewrite Hc. split; [auto | discriminate].
        -- specialize (IH (step + 1)%Z
                         {| currentScalar := scalar; currentPosition := pos;
                            currentDirection := dir; inGoal := inGoal cur;
                            hasCollision := hasCollision cur |}).
           cbn zeta in IH. cbn [currentPosition inGoal hasCollision] in IH.
           destruct IH as [Hpos Hflags]. split; [|exact Hflags].
           destruct Hpos as [-> | Hpos]; [right; auto | right; exact Hpos].
    + cbn [currentPosition inGoal hasCollision]. split; [now left|].
      intros Hg Hc. rewrite Hg. split; [discriminate | reflexivity].
Qed.

(** The position that [tryPath] returns is the one its loop ends at. *)
Lemma tryPath_position (model : Model) (state : Nav2DState)
    (speed rotationalSpeed : R) :
  getPosition (tryPath contains model state speed rotationalSpeed).1 =
  currentPosition (tryPath_progress contains model state speed rotationalSpeed).
Proof. unfold tryPath. cbn [fst getPosition]. apply point_eta. Qed.

Lemma tryPath_progress_clear (model : Model) (state : Nav2DState)
    (speed rotationalSpeed : R) :
  contains (mapArea_ model) (getPosition state) = true ->
  isInside contains model (getPosition state) OBSTACLE = false ->
  contains (mapArea_ model)
    (currentPosition
       (tryPath_progress contains model state speed rotationalSpeed)) = true /\
  isInside contains model
    (currentPosition
       (tryPath_progress contains model state speed rotationalSpeed)) OBSTACLE
    = false.
Proof.
  intros Hmap Hobs. unfold tryPath_progress.
  match goal with
  | |- context [interpolate contains model ?p ?d ?v ?r ?t ?c ?n ?s ?cur] =>
      destruct (interpolate_exit model p d v r t c n s cur) as [[Heq | Hclear] _]
  end.
  - cbn zeta in Heq. rewrite Heq. cbn [currentPosition]. auto.
  - exact Hclear.
Qed.

(** A path never ends in an obstacle or outside the world area: when the
    vehicle starts inside the world area and outside every obstacle, so
    does the state that [tryPath] returns, whatever the controls are. *)
Theorem tryPath_stays_clear (model : Model) (state : Nav2DState)
    (speed rotationalSpeed : R) :
  contains (mapArea_ model) (getPosition state) = true ->
  isInside contains model (getPosition state) OBSTACLE = false ->
  contains (mapArea_ model)
    (getPosition (tryPath contains model state speed rotationalSpeed).1) = true /\
  isInside contains model
    (getPosition (tryPath contains model state speed rotationalSpeed).1) OBSTACLE
    = false.
Proof.
  intros Hmap Hobs. rewrite tryPath_position.
  now apply tryPath_progress_clear.
Qed.


(** With radius 0 and a constructor that gives the null vector for
    magnitude 0, every interpolated point of a turn is the centre; over free
    ground the loop runs to its bound. *)
Lemma interpolate_spot (model : Model) (position : Point2D) (direction : R)
    (velocity : Vector2D) (turnAmount : R) (center : Point2D)
    (remaining : nat) :
  turnAmount <> 0 ->
  (forall angle, Vector2D_polar 0 angle = {| vecX := 0; vecY := 0 |}) ->
  free contains model center ->
  forall (step : Z) (cur : Progress),
    interpolate contains model position direction velocity 0 turnAmount center
      remaining step cur =
    match remaining with
    | O => cur
    | S _ =>
        let last := (step + Z.of_nat remaining - 1)%Z in
        {| currentScalar := IZR last / IZR (interpolationStepCount_ model);
           currentPosition := center;
           currentDirection :=
             direction
             + IZR last / IZR (interpolationStepCount_ model) * turnAmount;
           inGoal := inGoal cur;
           hasCollision := hasCollision cur |}
    end.
Proof.
  intros Hturn Hnull (Hmap & Hobs & Hgoal).
  induction remaining as [|n IH]; intros step cur; [reflexivity|].
  cbn [interpolate].
  destruct (Req_dec_T turnAmount 0) as [Hz|_]; [contradiction|].
  rewrite Hnull, translate_null, Hmap, Hobs, Hgoal. cbn [negb orb].
  rewrite IH. destruct n as [|n'].
  - cbn zeta. replace (step + Z.of_nat 1 - 1)%Z with step by lia. reflexivity.
  - cbn zeta. cbn [inGoal hasCollision].
    replace (step + 1 + Z.of_nat (S n') - 1)%Z
      with (step + Z.of_nat (S (S n')) - 1)%Z by lia.
    reflexivity.
Qed.

(** Turning at speed 0 is turning on the spot: with at least one
    interpolation step and a constructor that gives the null vector for
    magnitude 0, from a position inside the world area, outside every
    obstacle and in no goal area, the vehicle keeps its position, turns by
    the whole turn amount, and pays for the time step and the turn only. *)
Theorem tryPath_turns_on_the_spot (model : Model) (state : Nav2DState)
    (rotationalSpeed : R) :
  (0 < interpolationStepCount_ model)%Z ->
  rotationalSpeed * timeStepLength_ model <> 0 ->
  (forall angle, Vector2D_polar 0 angle = {| vecX := 0; vecY := 0 |}) ->
  free contains model (getPosition state) ->
  tryPath contains model state 0 rotationalSpeed =
  ({| getPosition := getPosition state;
      getDirection := getDirection state + rotationalSpeed * timeStepLength_ model;
      stateCostPerUnitDistance := costPerUnitDistance_ model;
      stateCostPerRevolution := costPerRevolution_ model |},
   - (costPerUnitTime_ model * timeStepLength_ model)
   - costPerRevolution_ model * Rabs (rotationalSpeed * timeStepLength_ model)).
Proof.
  intros Hn Hturn Hnull Hfree.
  assert (Hnz : IZR (interpolationStepCount_ model) <> 0).
  { apply not_0_IZR. lia. }
  assert (Hradius : 0 / (2 * PI * rotationalSpeed) = 0)
    by (unfold Rdiv; apply Rmult_0_l).
  assert (Hp : tryPath_progress contains model state 0 rotationalSpeed =
               {| currentScalar := 1;
                  currentPosition := getPosition state;
                  currentDirection :=
                    getDirection state + rotationalSpeed * timeStepLength_ model;
                  inGoal := false;
                  hasCollision := false |}).
  { unfold tryPath_progress. rewrite Hradius, !Hnull, translate_null.
    rewrite interpolate_spot by assumption.
    destruct (Z.to_nat (interpolationStepCount_ model)) as [|k] eqn:Hk; [lia|].
    cbn zeta. cbn [inGoal hasCollision].
    replace (1 + Z.of_nat (S k) - 1)%Z with (interpolationStepCount_ model)
      by lia.
    f_equal; [now apply Rdiv_diag | f_equal; rewrite Rdiv_diag by assumption; lra]. }
  unfold tryPath. rewrite Hp, Hradius.
  cbn [currentPosition currentDirection currentScalar inGoal hasCollision].
  rewrite point_eta.
  destruct (Req_dec_T (rotationalSpeed * timeStepLength_ model) 0) as [Hz|_];
    [contradiction|].
  f_equal. rewrite Rmult_1_l. lra.
Qed.

(** A straight step over free ground: with at least one interpolation step
    and rotational speed 0, when every interpolation point of the step is
    inside the world area, outside every obstacle and in no goal area, the
    vehicle moves by the velocity vector [Vector2D(speed, direction)] and
    keeps the heading; the reward is the cost of the time step and of the
    length of that vector.  The step does not depend on [timeStepLength]. *)
Theorem tryPath_straight_step (model : Model) (state : Nav2DState)
    (speed : R) :
  (0 < interpolationStepCount_ model)%Z ->
  (forall j : Z, (1 <= j <= interpolationStepCount_ model)%Z ->
     free contains model
       (straight_point model (getPosition state)
          (Vector2D_polar speed (getDirection state)) j)) ->
  tryPath contains model state speed 0 =
  ({| getPosition :=
        translate (getPosition state)
          (Vector2D_polar speed (getDirection state));
      getDirection := getDirection state;
      stateCostPerUnitDistance := costPerUnitDistance_ model;
      stateCostPerRevolution := costPerRevolution_ model |},
   - (costPerUnitTime_ model * timeStepLength_ model)
   - costPerUnitDistance_ model
     * getMagnitude (Vector2D_polar speed (getDirection state))).
Proof.
  intros Hn Hfree. exact (proj2 (straight_step model state speed Hn Hfree)).
Qed.

(** C7 (the code at two inputs): the angle handed to the [Vector2D]
    constructor is the constant 0.25 or -0.25, not the direction plus a
    quarter turn, and its sign follows [direction + turnAmount], not
    [turnAmount] alone. *)
Theorem rotation_angle_drops_the_direction :
  rotation_angle (1/10) (1/10) = 0.25 /\
  intended_rotation_angle (1/10) (1/10) = 1/10 + 0.25 /\
  rotation_angle (1/10) (1/10) <> intended_rotation_angle (1/10) (1/10) /\
  rotation_angle (3/10) (- (1/10)) = 0.25 /\
  intended_rotation_angle (3/10) (- (1/10)) = 3/10 - 0.25.
Proof.
  unfold rotation_angle, intended_rotation_angle.
  repeat match goal with
  | |- context [Rlt_dec ?a ?b] => destruct (Rlt_dec a b)
  end;
  repeat split; lra.
Qed.

End ModelFacts.

(** *** The straight path in the fields of [Example] *)

Ltac decide_Rleb :=
  unfold Example.rect_contains, Example.Rleb, straight_point, translate, scale;
  cbn [Example.lowX Example.lowY Example.highX Example.highY Example.world
       Example.field Example.open_field Example.goal_on_path Example.at_origin
       mapArea_ interpolationStepCount_ getPosition getX getY vecX vecY];
  repeat match goal with
  | |- context [Rle_dec ?a ?b] => destruct (Rle_dec a b); try lra
  end;
  try reflexivity.

#[local] Existing Instance Example.rounded_vectors.

Lemma rounded_quarter :
  Vector2D_polar 1 0.25 = {| vecX := 6.123233995736766e-17; vecY := 1 |}.
Proof.
  change (Vector2D_polar 1 0.25) with (Example.rounded_polar 1 0.25).
  unfold Example.rounded_polar. rewrite quarter_turn_cos, quarter_turn_sin.
  f_equal; lra.
Qed.

Lemma rounded_null (angle : R) :
  Vector2D_polar 0 angle = {| vecX := 0; vecY := 0 |}.
Proof.
  change (Vector2D_polar 0 angle) with (Example.rounded_polar 0 angle).
  unfold Example.rounded_polar. f_equal; lra.
Qed.






(** *** The path theorems in the fields of [Example] *)

Lemma origin_is_free :
  free Example.rect_contains Example.open_field
    (getPosition Example.at_origin).
Proof.
  split; [|split].
  - decide_Rleb.
  - apply (isInside_false _ _ _ OBSTACLE ∅); [reflexivity|].
    intros id r Hl. now rewrite lookup_empty in Hl.
  - apply (isInside_false _ _ _ GOAL ∅); [reflexivity|].
    intros id r Hl. now rewrite lookup_empty in Hl.
Qed.

Lemma tryPath_stays_clear_witness :
  Example.rect_contains (mapArea_ Example.open_field)
    (getPosition
       (tryPath Example.rect_contains Example.open_field Example.at_origin
          1 0.3).1) = true /\
  isInside Example.rect_contains Example.open_field
    (getPosition
       (tryPath Example.rect_contains Example.open_field Example.at_origin
          1 0.3).1) OBSTACLE = false.
Proof.
  apply (tryPath_stays_clear Example.rect_contains Example.open_field
           Example.at_origin 1 0.3).
  - exact (proj1 origin_is_free).
  - exact (proj1 (proj2 origin_is_free)).
Defined.


Lemma tryPath_turns_on_the_spot_witness :
  tryPath Example.rect_contains Example.open_field Example.at_origin 0 0.1 =
  ({| getPosition := getPosition Example.at_origin;
      getDirection :=
        getDirection Example.at_origin
        + 0.1 * timeStepLength_ Example.open_field;
      stateCostPerUnitDistance := costPerUnitDistance_ Example.open_field;
      stateCostPerRevolution := costPerRevolution_ Example.open_field |},
   - (costPerUnitTime_ Example.open_field * timeStepLength_ Example.open_field)
   - costPerRevolution_ Example.open_field
     * Rabs (0.1 * timeStepLength_ Example.open_field)).
Proof.
  apply (tryPath_turns_on_the_spot Example.rect_contains Example.open_field
           Example.at_origin 0.1).
  - cbn. lia.
  - cbn. lra.
  - exact rounded_null.
  - exact origin_is_free.
Defined.

Lemma tryPath_straight_step_witness :
  tryPath Example.rect_contains Example.open_field Example.at_origin 1 0 =
  ({| getPosition :=
        translate (getPosition Example.at_origin)
          (Vector2D_polar 1 (getDirection Example.at_origin));
      getDirection := getDirection Example.at_origin;
      stateCostPerUnitDistance := costPerUnitDistance_ Example.open_field;
      stateCostPerRevolution := costPerRevolution_ Example.open_field |},
   - (costPerUnitTime_ Example.open_field * timeStepLength_ Example.open_field)
   - costPerUnitDistance_ Example.open_field
     * getMagnitude (Vector2D_polar 1 (getDirection Example.at_origin))).
Proof.
  apply (tryPath_straight_step Example.rect_contains Example.open_field
           Example.at_origin 1).
  - cbn. lia.
  - intros j Hj. change (getDirection Example.at_origin) with 0.25.
    rewrite rounded_quarter.
    change (interpolationStepCount_ Example.open_field) with 10%Z in *.
    assert (IZR 1 <= IZR j) by (apply IZR_le; lia).
    assert (IZR j <= IZR 10) by (apply IZR_le; lia).
    unfold straight_point, translate, scale. cbn [getX getY vecX vecY].
    change (interpolationStepCount_ Example.open_field) with 10%Z.
    split; [|split].
    + decide_Rleb.
    + apply (isInside_false _ _ _ OBSTACLE ∅); [reflexivity|].
      intros id r Hl. now rewrite lookup_empty in Hl.
    + apply (isInside_false _ _ _ GOAL ∅); [reflexivity|].
      intros id r Hl. now rewrite lookup_empty in Hl.
Defined.

End Nav2DFacts.

(** ** Text streams *)

Module StreamsFacts.
Import Streams.

Local Open Scope string_scope.

Lemma append_cons (c : ascii) (s r : string) :
  String c s ++ r = String c (s ++ r).
Proof. reflexivity. Qed.

Lemma append_nil (r : string) : "" ++ r = r.
Proof. reflexivity. Qed.

Lemma append_empty_r (s : string) : s ++ "" = s.
Proof. induction s as [|c s IH]; [reflexivity | now rewrite append_cons, IH]. Qed.

Lemma append_assoc (a b c : string) : (a ++ b) ++ c = a ++ b ++ c.
Proof.
  induction a as [|x a IH]; [reflexivity | now rewrite !append_cons, IH].
Qed.

Lemma length_append (a b : string) :
  String.length (a ++ b) = (String.length a + String.length b)%nat.
Proof.
  induction a as [|c a IH]; [reflexivity|].
  rewrite append_cons. cbn [String.length]. now rewrite IH.
Qed.

Lemma take_digits_no_digit (s : string) :
  no_digit_head s -> take_digits s = (Decimal.Nil, s).
Proof. destruct s as [|c s]; simpl; [reflexivity | now intros ->]. Qed.

Lemma take_digits_print (d : Decimal.uint) (rest : string) :
  no_digit_head rest ->
  take_digits (NilEmpty.string_of_uint d ++ rest) = (d, rest).
Proof.
  intros Hrest. induction d; simpl;
    [now apply take_digits_no_digit | rewrite IHd; reflexivity ..].
Qed.

Lemma print_digit_head (d : Decimal.uint) (rest : string) :
  d <> Decimal.Nil -> digit_head (NilEmpty.string_of_uint d ++ rest).
Proof.
  destruct d; cbn [NilEmpty.string_of_uint]; rewrite ?append_cons; intros Hd;
    try congruence; (split; [reflexivity | split; discriminate]).
Qed.

Lemma to_uint_print (p : positive) :
  NilZero.string_of_uint (Pos.to_uint p) = NilEmpty.string_of_uint (Pos.to_uint p).
Proof.
  pose proof (Unsigned.to_uint_nonnil p) as Hn.
  destruct (Pos.to_uint p); [congruence | reflexivity ..].
Qed.

(** What [operator<<] writes for a [long] is read back by [num_get]. *)
Lemma parse_long_print (z : Z) (rest : string) :
  in_long z = true -> no_digit_head rest ->
  parse_long (string_of_long z ++ rest) = (z, false, rest).
Proof.
  intros Hz Hrest. unfold string_of_long.
  destruct z as [|p|p]; simpl Z.to_int; unfold NilZero.string_of_int.
  - cbn [NilZero.string_of_uint NilEmpty.string_of_uint].
    unfold parse_long. rewrite append_cons, append_nil. cbn [take_digits digit].
    rewrite take_digits_no_digit by exact Hrest. reflexivity.
  - rewrite to_uint_print.
    pose proof (print_digit_head (Pos.to_uint p) rest (Unsigned.to_uint_nonnil p))
      as Hhead.
    unfold parse_long.
    destruct (NilEmpty.string_of_uint (Pos.to_uint p) ++ rest) as [|c r] eqn:Hs;
      [contradiction|].
    destruct Hhead as (_ & Hminus & Hplus).
    assert (Hsign :
      match String c r with
      | String "-"%char r0 => (true, r0)
      | String "+"%char r0 => (false, r0)
      | _ => (false, String c r)
      end = (false, String c r)).
    { destruct c as [[] [] [] [] [] [] [] []]; try reflexivity; congruence. }
    rewrite Hsign, <- Hs, take_digits_print by exact Hrest.
    pose proof (Unsigned.to_uint_nonnil p) as Hn.
    unfold Z.of_uint. rewrite Unsigned.of_to. simpl Z.of_N. rewrite Hz.
    destruct (Pos.to_uint p); [congruence | reflexivity ..].
  - rewrite to_uint_print. unfold parse_long.
    rewrite append_cons. cbv iota beta. rewrite take_digits_print by exact Hrest.
    pose proof (Unsigned.to_uint_nonnil p) as Hn.
    unfold Z.of_uint. rewrite Unsigned.of_to. simpl Z.of_N.
    change (- Z.pos p)%Z with (Z.neg p). rewrite Hz.
    destruct (Pos.to_uint p); [congruence | reflexivity ..].
Qed.

(** The text written for a [long] starts with a visible character. *)
Lemma skip_spaces_print (z : Z) (rest : string) :
  exists c r, string_of_long z ++ rest = String c r /\ isspace c = false.
Proof.
  unfold string_of_long.
  destruct z as [|p|p]; simpl Z.to_int; unfold NilZero.string_of_int.
  - cbn [NilZero.string_of_uint NilEmpty.string_of_uint].
    rewrite append_cons. eauto.
  - rewrite to_uint_print.
    pose proof (print_digit_head (Pos.to_uint p) rest (Unsigned.to_uint_nonnil p))
      as Hhead.
    destruct (NilEmpty.string_of_uint (Pos.to_uint p) ++ rest) as [|c r];
      [contradiction|].
    destruct Hhead as (Hsp & _). eauto.
  - rewrite append_cons. eauto.
Qed.

(** Reading a [long] that was written after one blank. *)
Lemma read_long_print (z : Z) (rest : string) (old : option Z) :
  in_long z = true -> no_digit_head rest ->
  read_long (istringstream (" " ++ string_of_long z ++ rest)) old =
  ({| buffer := rest; eofbit := at_end rest; failbit := false |}, Some z).
Proof.
  intros Hz Hrest. unfold read_long, sentry, istringstream. cbn [good buffer eofbit failbit negb andb].
  rewrite append_cons, append_nil.
  change (skip_spaces (String " " (string_of_long z ++ rest)))
    with (skip_spaces (string_of_long z ++ rest)).
  destruct (skip_spaces_print z rest) as (c & r & Hs & Hc).
  assert (Hskip : skip_spaces (string_of_long z ++ rest) = string_of_long z ++ rest).
  { rewrite Hs. simpl. now rewrite Hc. }
  rewrite Hskip. clear Hskip.
  destruct (string_of_long z ++ rest) as [|c' r'] eqn:Heq; [discriminate|].
  cbn [buffer]. rewrite <- Heq.
  rewrite parse_long_print by assumption. reflexivity.
Qed.

Lemma take_until_line (l rest : string) :
  (forall c, In c (list_ascii_of_string l) -> c <> newline) ->
  take_until newline (l ++ String newline rest) = (l, Some rest).
Proof.
  induction l as [|c l IH]; intros Hl; rewrite ?append_cons, ?append_nil;
    cbn [take_until].
  - now rewrite Ascii.eqb_refl.
  - destruct (Ascii.eqb c newline) eqn:Hc.
    + apply Ascii.eqb_eq in Hc. exfalso. apply (Hl c); [now left | exact Hc].
    + rewrite IH; [reflexivity|]. intros c' Hin. apply Hl. now right.
Qed.

(** [getline] takes a line that ends in a line break off a good stream. *)
Lemma getline_line (l rest old : string) :
  (forall c, In c (list_ascii_of_string l) -> c <> newline) ->
  getline (istringstream (l ++ endl ++ rest)) newline old =
  (istringstream rest, l).
Proof.
  intros Hl. unfold getline, istringstream, endl. cbn [good buffer eofbit failbit negb andb].
  rewrite append_cons, append_nil.
  now rewrite take_until_line.
Qed.

(** At the end of the input [getline] fails. *)
Lemma getline_end (old : string) :
  getline (istringstream "") newline old =
  ({| buffer := ""; eofbit := true; failbit := true |}, "").
Proof. reflexivity. Qed.

(** [getline] never lengthens the input, and shortens a good stream that
    it leaves good. *)
Lemma take_until_length (delim : ascii) (s l : string) (rest : option string) :
  take_until delim s = (l, rest) ->
  match rest with
  | Some r => (String.length r < String.length s)%nat
  | None => l = s
  end.
Proof.
  revert l rest. induction s as [|c s IH]; intros l rest; simpl.
  - intros [= <- <-]. reflexivity.
  - destruct (Ascii.eqb c delim).
    + intros [= <- <-]. simpl. lia.
    + destruct (take_until delim s) as [l' rest'] eqn:Ht. intros [= <- <-].
      specialize (IH l' rest' eq_refl). destruct rest'; [simpl; lia | now subst].
Qed.

Lemma getline_remaining (ins : istream) (delim : ascii) (old : string) :
  (remaining_input (getline ins delim old).1 <= remaining_input ins)%nat /\
  (failbit (getline ins delim old).1 = false ->
   (remaining_input (getline ins delim old).1 < remaining_input ins)%nat).
Proof.
  unfold getline, remaining_input.
  destruct (good ins) eqn:Hg.
  - destruct (take_until delim (buffer ins)) as [l [r|]] eqn:Ht.
    + apply take_until_length in Ht. cbn. split; intros; lia.
    + apply take_until_length in Ht. cbn. subst l.
      destruct (buffer ins); cbn; split; intros; try lia; discriminate.
  - unfold good in *. cbn [fst buffer eofbit failbit].
    destruct (eofbit ins), (failbit ins); cbn in *; try discriminate;
      split; intros; try lia; discriminate.
Qed.

(** Reading a [long] that stands at the start of the input. *)
Lemma read_long_at (z : Z) (rest : string) (old : option Z) :
  in_long z = true -> no_digit_head rest ->
  read_long (istringstream (string_of_long z ++ rest)) old =
  ({| buffer := rest; eofbit := at_end rest; failbit := false |}, Some z).
Proof.
  intros Hz Hrest. unfold read_long, sentry, istringstream.
  cbn [good buffer eofbit failbit negb andb].
  destruct (skip_spaces_print z rest) as (c & r & Hs & Hc).
  assert (Hskip : skip_spaces (string_of_long z ++ rest) = string_of_long z ++ rest).
  { rewrite Hs. simpl. now rewrite Hc. }
  rewrite Hskip. clear Hskip.
  destruct (string_of_long z ++ rest) as [|c' r'] eqn:Heq; [discriminate|].
  cbn [buffer]. rewrite <- Heq.
  rewrite parse_long_print by assumption. reflexivity.
Qed.

Lemma take_until_delim (delim : ascii) (l rest : string) :
  (forall c, In c (list_ascii_of_string l) -> c <> delim) ->
  take_until delim (l ++ String delim rest) = (l, Some rest).
Proof.
  induction l as [|c l IH]; intros Hl; rewrite ?append_cons, ?append_nil;
    cbn [take_until].
  - now rewrite Ascii.eqb_refl.
  - destruct (Ascii.eqb c delim) eqn:Hc.
    + apply Ascii.eqb_eq in Hc. exfalso. apply (Hl c); [now left | exact Hc].
    + rewrite IH; [reflexivity|]. intros c' Hin. apply Hl. now right.
Qed.

Lemma digits_chars (d : Decimal.uint) (c : ascii) :
  In c (list_ascii_of_string (NilEmpty.string_of_uint d)) -> digit c <> None.
Proof.
  induction d; cbn [NilEmpty.string_of_uint list_ascii_of_string];
    intros Hin; try (destruct Hin as [<- | Hin]; [discriminate | now apply IHd]).
  destruct Hin.
Qed.

(** The decimal text of a [long] consists of digits and the minus sign. *)
Lemma long_chars (z : Z) (c : ascii) :
  In c (list_ascii_of_string (string_of_long z)) ->
  digit c <> None \/ c = "-"%char.
Proof.
  unfold string_of_long.
  destruct z as [|p|p]; simpl Z.to_int; unfold NilZero.string_of_int.
  - intros [<- | []]. left. discriminate.
  - rewrite to_uint_print. intros Hin. left. now apply digits_chars in Hin.
  - rewrite to_uint_print. intros [<- | Hin]; [now right|].
    left. now apply digits_chars in Hin.
Qed.

Lemma avoids_append (c : ascii) (a b : string) :
  avoids c a -> avoids c b -> avoids c (a ++ b).
Proof.
  unfold avoids. induction a as [|x a IH]; intros Ha Hb; [exact Hb|].
  rewrite append_cons. cbn [list_ascii_of_string]. intros y [<- | Hin].
  - apply Ha. now left.
  - apply IH; [|exact Hb|exact Hin]. intros y' Hy'. apply Ha. now right.
Qed.

Lemma avoids_long (c : ascii) (z : Z) :
  digit c = None -> c <> "-"%char -> avoids c (string_of_long z).
Proof.
  intros Hd Hm x Hin ->. apply long_chars in Hin as [Hin | Hin]; congruence.
Qed.

Lemma getline_delim (delim : ascii) (l rest old : string) :
  avoids delim l ->
  getline (istringstream (l ++ String delim rest)) delim old =
  (istringstream rest, l).
Proof.
  intros Hl. unfold getline, istringstream.
  cbn [good buffer eofbit failbit negb andb].
  now rewrite take_until_delim.
Qed.

End StreamsFacts.

(** ** The change file of the navigation model *)

Module Nav2DChangesFacts.
Import Streams StreamsFacts Nav2D Nav2DChanges.

Local Open Scope string_scope.

Section LoaderFacts.
Context {Rectangle2D : Type}.
Variable Rectangle2D_default : Rectangle2D.
Variable read_Rectangle2D : istream -> Rectangle2D -> istream * Rectangle2D.

Abbreviation read_change' := (read_change Rectangle2D_default read_Rectangle2D).
Abbreviation load_blocks' := (load_blocks Rectangle2D_default read_Rectangle2D).
Abbreviation load_block' := (load_block Rectangle2D_default read_Rectangle2D).

(** The four extractions from a header line. *)
Lemma read_header (t k : Z) :
  in_long t = true -> in_long k = true ->
  exists s1 s2 s3 s4 w3,
    read_string
      (istringstream ("t " ++ string_of_long t ++ " n " ++ string_of_long k)) ""
      = (s1, "t") /\
    read_long s1 None = (s2, Some t) /\
    read_string s2 "t" = (s3, w3) /\
    read_long s3 None = (s4, Some k).
Proof.
  intros Ht Hk.
  rewrite !append_cons, !append_nil.
  assert (H1 : forall X,
    read_string (istringstream (String "t" (String " " X))) "" =
    (istringstream (" " ++ X), "t")) by reflexivity.
  assert (H3 : forall X,
    read_string {| buffer := String " " (String "n" (String " " X));
                   eofbit := false; failbit := false |} "t" =
    (istringstream (" " ++ X), "n")) by reflexivity.
  do 5 eexists. split; [apply H1|]. split.
  { rewrite read_long_print; [reflexivity | exact Ht | reflexivity]. }
  cbn [at_end]. split; [apply H3|].
  rewrite <- (append_empty_r (string_of_long k)).
  rewrite read_long_print; [reflexivity | exact Hk | exact I].
Qed.

Lemma one_line_header (b : block) : one_line (header b).
Proof.
  unfold one_line, header.
  repeat apply avoids_append;
    try (apply avoids_long; [reflexivity | discriminate]);
    intros c Hin; cbn in Hin; intuition (subst; discriminate).
Qed.

Lemma text_of_lines_app (l1 l2 : list string) :
  text_of_lines (l1 ++ l2) = text_of_lines l1 ++ text_of_lines l2.
Proof.
  induction l1 as [|l l1 IH]; [reflexivity|].
  cbn [app text_of_lines foldr]. fold (text_of_lines (l1 ++ l2)).
  fold (text_of_lines l1). now rewrite IH, !append_assoc.
Qed.

Lemma change_file_cons (b : block) (blocks : list block) :
  change_file (b :: blocks) =
  header b ++ endl ++ text_of_lines (block_lines b) ++ change_file blocks.
Proof.
  unfold change_file. cbn [map concat].
  rewrite text_of_lines_app. unfold lines_of_block at 1.
  cbn [text_of_lines foldr]. fold (text_of_lines (block_lines b)).
  now rewrite !append_assoc.
Qed.

(** The inner loop takes as many lines as its bound off the input. *)
Lemma read_changes_lines (lines : list string) :
  forall (rest line : string) (stored : list (Nav2DChange Rectangle2D))
         (cerr0 : string),
    Forall one_line lines ->
    exists line',
      read_changes Rectangle2D_default read_Rectangle2D (length lines)
        (istringstream (text_of_lines lines ++ rest)) line stored cerr0 =
      (istringstream rest, line',
       (stored ++ stored_changes Rectangle2D_default read_Rectangle2D lines)%list,
       cerr0 ++ warnings Rectangle2D_default read_Rectangle2D lines).
Proof.
  induction lines as [|l lines IH]; intros rest line stored cerr0 Hl.
  - exists line. cbn. now rewrite app_nil_r, append_empty_r.
  - apply Forall_cons in Hl as [Hl Hls].
    cbn [length read_changes text_of_lines foldr].
    fold (text_of_lines lines).
    rewrite !append_assoc, (getline_line l _ _ Hl).
    destruct (read_change' l) as [change message] eqn:Hc.
    destruct (IH rest l (stored ++ match change with Some c => [c] | None => [] end)%list
                (cerr0 ++ message) Hls) as (line' & ->).
    exists line'. unfold stored_changes, warnings. cbn [omap list_omap foldr].
    rewrite Hc. cbn [fst snd]. f_equal; [f_equal|].
    + destruct change; cbn [app]; now rewrite <- app_assoc.
    + now rewrite append_assoc.
Qed.

(** The outer loop on the text of well-formed blocks. *)
Lemma load_blocks_blocks (blocks : list block) :
  forall (fuel : nat) (line : string) (st : Loaded Rectangle2D),
    Forall well_formed blocks ->
    (length blocks < fuel)%nat ->
    load_blocks' fuel (istringstream (change_file blocks)) line st =
    Ok (foldl load_block' st blocks).
Proof.
  induction blocks as [|b blocks IH]; intros fuel line st Hwf Hfuel.
  - destruct fuel as [|fuel]; [cbn in Hfuel; lia|]. reflexivity.
  - destruct fuel as [|fuel]; [cbn in Hfuel; lia|].
    apply Forall_cons in Hwf as [(Ht & Hn & Hlines) Hwf].
    assert (Hk : in_long (Z.of_nat (length (block_lines b))) = true).
    { apply CxxFacts.in_long_spec. unfold INT_MAX, LONG_MIN, LONG_MAX in *. lia. }
    rewrite change_file_cons. cbn [load_blocks].
    rewrite (getline_line _ _ _ (one_line_header b)).
    cbn [failbit istringstream].
    destruct (read_header _ _ Ht Hk) as (s1 & s2 & s3 & s4 & w3 & H1 & H2 & H3 & H4).
    unfold header at 1. rewrite H1, H2, H3, H4. cbn [use bind].
    destruct (INT_MAX <? Z.of_nat (length (block_lines b)))%Z eqn:Hbig;
      [apply Z.ltb_lt in Hbig; lia|].
    rewrite Nat2Z.id.
    destruct (read_changes_lines (block_lines b) (change_file blocks) (header b)
                [] (cerr st) Hlines) as (line' & ->).
    rewrite IH by (assumption || (cbn in Hfuel; lia)).
    reflexivity.
Qed.

(** The text of a change file is at least as long as its list of blocks. *)
Lemma change_file_length (blocks : list block) :
  (length blocks <= String.length (change_file blocks))%nat.
Proof.
  induction blocks as [|b blocks IH]; [cbn; lia|].
  rewrite change_file_cons, !length_append. unfold endl.
  cbn [String.length List.length]. lia.
Qed.

(** More fuel than there is input changes nothing: the loop never runs
    out of it. *)
Lemma load_blocks_fuel (fuel : nat) :
  forall (extra : nat) (ifs : istream) (line : string) (st : Loaded Rectangle2D),
    (remaining_input ifs <= fuel)%nat ->
    load_blocks' (fuel + extra) ifs line st = load_blocks' fuel ifs line st.
Proof.
  induction fuel as [|fuel IH]; intros extra ifs line st Hm.
  - destruct extra as [|extra]; [reflexivity|]. cbn [Nat.add load_blocks].
    unfold remaining_input in Hm.
    destruct (good ifs) eqn:Hg; [lia|].
    unfold getline. rewrite Hg. reflexivity.
  - cbn [Nat.add load_blocks].
    pose proof (getline_remaining ifs newline line) as (Hle & Hlt).
    destruct (getline ifs newline line) as [ifs1 line1]. cbn [fst] in *.
    destruct (failbit ifs1) eqn:Hf; [reflexivity|].
    specialize (Hlt eq_refl).
    destruct (read_string (istringstream line1) "") as [sa wa].
    destruct (read_long sa None) as [sb time].
    destruct (read_string sb wa) as [sc wc].
    destruct (read_long sc None) as [sd count].
    destruct (use time) as [t| |]; cbn [bind]; try reflexivity.
    destruct (use count) as [k| |]; cbn [bind]; try reflexivity.
    destruct (INT_MAX <? k)%Z; [reflexivity|].
    assert (Hinner : forall n ifs0 line0 stored cerr0,
      (remaining_input
         (read_changes Rectangle2D_default read_Rectangle2D n ifs0 line0
            stored cerr0).1.1.1 <= remaining_input ifs0)%nat).
    { clear. induction n as [|n IHn]; intros ifs0 line0 stored cerr0; [cbn; lia|].
      cbn [read_changes].
      pose proof (getline_remaining ifs0 newline line0) as (Hle & _).
      destruct (getline ifs0 newline line0) as [ifs2 line2]. cbn [fst] in Hle.
      destruct (read_change' line2) as [change message].
      etransitivity; [apply IHn | exact Hle]. }
    specialize (Hinner (Z.to_nat k) ifs1 line1 [] (cerr st)).
    destruct (read_changes Rectangle2D_default read_Rectangle2D (Z.to_nat k)
                ifs1 line1 [] (cerr st)) as [[[ifs3 line3] stored3] cerr3].
    cbn [fst] in Hinner. apply IH. lia.
Qed.

Lemma changeTimes_foldl (blocks : list block) :
  forall st : Loaded Rectangle2D,
    changeTimes (foldl load_block' st blocks) =
    (changeTimes st ++ map block_time blocks)%list.
Proof.
  induction blocks as [|b blocks IH]; intros st; cbn [foldl map].
  - now rewrite app_nil_r.
  - rewrite IH. cbn [load_block changeTimes]. now rewrite <- app_assoc.
Qed.

Lemma changes_foldl_other (blocks : list block) (t : Z) :
  forall st : Loaded Rectangle2D,
    t ∉ map block_time blocks ->
    changes_ (foldl load_block' st blocks) !! t = changes_ st !! t.
Proof.
  induction blocks as [|b blocks IH]; intros st Hnot; cbn [foldl]; [reflexivity|].
  cbn [map] in Hnot. apply not_elem_of_cons in Hnot as [Hne Hnot].
  rewrite IH by exact Hnot. cbn [load_block changes_].
  now rewrite lookup_insert_ne.
Qed.

Lemma changes_foldl_block (blocks : list block) (b : block) :
  forall st : Loaded Rectangle2D,
    NoDup (map block_time blocks) ->
    b ∈ blocks ->
    changes_ (foldl load_block' st blocks) !! block_time b =
    Some (stored_changes Rectangle2D_default read_Rectangle2D (block_lines b)).
Proof.
  induction blocks as [|b0 blocks IH]; intros st Hnd Hin; [inversion Hin|].
  cbn [map] in Hnd. apply NoDup_cons in Hnd as [Hfresh Hnd]. cbn [foldl].
  apply elem_of_cons in Hin as [-> | Hin].
  - rewrite changes_foldl_other by exact Hfresh.
    cbn [load_block changes_]. apply lookup_insert_eq.
  - now apply IH.
Qed.

(** A line whose first word is not [ADD] stores nothing and writes the
    warning; a line that stores a change starts with [ADD]. *)
Lemma read_change_skip (line : string) :
  first_word line <> "ADD" ->
  read_change' line = (None, "ERROR: Cannot " ++ first_word line).
Proof.
  unfold first_word, read_change. intros Hne.
  destruct (read_string (istringstream line) "") as [sstr op]. cbn [snd] in Hne.
  destruct (String.eqb op "ADD") eqn:He; [apply String.eqb_eq in He; congruence|].
  reflexivity.
Qed.

Lemma read_change_add (line : string) (c : Nav2DChange Rectangle2D) :
  (read_change' line).1 = Some c ->
  first_word line = "ADD" /\ operation c = "ADD".
Proof.
  unfold first_word, read_change.
  destruct (read_string (istringstream line) "") as [sstr op]. cbn [snd].
  destruct (String.eqb op "ADD") eqn:He; cbn [negb]; [|discriminate].
  apply String.eqb_eq in He. subst op.
  destruct (read_string sstr "") as [s1 typeString].
  destruct (parseAreaType typeString) as [ty warning].
  destruct (read_long s1 None) as [s2 change_id].
  destruct (read_Rectangle2D s2 Rectangle2D_default) as [s3 change_area].
  cbn [fst]. intros [= <-]. split; reflexivity.
Qed.

Lemma stored_changes_app (l1 l2 : list string) :
  stored_changes Rectangle2D_default read_Rectangle2D (l1 ++ l2) =
  (stored_changes Rectangle2D_default read_Rectangle2D l1
   ++ stored_changes Rectangle2D_default read_Rectangle2D l2)%list.
Proof. unfold stored_changes. apply omap_app. Qed.

(** C8 (as amended): on a change file made of well-formed blocks,
    [loadChanges] returns the block times in the order of the file (a
    strictly increasing list exactly when the file's times are), and stores
    for every block the changes of its [ADD] lines; a line whose operation
    is not [ADD] is skipped with the warning [ERROR: Cannot <operation>],
    stores nothing, and the lines after it are read as before. *)
Theorem loadChanges_reads_blocks (blocks : list block)
    (changes : gmap Z (list (Nav2DChange Rectangle2D))) (cerr0 : string) :
  Forall well_formed blocks ->
  exists loaded,
    loadChanges Rectangle2D_default read_Rectangle2D
      (Some (change_file blocks)) changes cerr0 = Ok loaded /\
    loaded =
      foldl load_block'
        {| changes_ := changes; changeTimes := []; cerr := cerr0 |} blocks /\
    changeTimes loaded = map block_time blocks /\
    (StronglySorted Z.lt (changeTimes loaded) <->
     StronglySorted Z.lt (map block_time blocks)) /\
    (NoDup (map block_time blocks) ->
     forall b, b ∈ blocks ->
       changes_ loaded !! block_time b =
       Some (stored_changes Rectangle2D_default read_Rectangle2D (block_lines b))) /\
    (forall line, first_word line <> "ADD" ->
       read_change' line = (None, "ERROR: Cannot " ++ first_word line) /\
       forall before after,
         stored_changes Rectangle2D_default read_Rectangle2D
           (before ++ line :: after) =
         stored_changes Rectangle2D_default read_Rectangle2D (before ++ after)) /\
    (forall line c, (read_change' line).1 = Some c ->
       first_word line = "ADD" /\ operation c = "ADD").
Proof.
  intros Hwf. eexists. split; [|split; [reflexivity|]].
  - unfold loadChanges. cbn [ifstream_open istringstream buffer].
    apply load_blocks_blocks; [exact Hwf|].
    pose proof (change_file_length blocks). lia.
  - assert (Ht : changeTimes
                   (foldl load_block'
                      {| changes_ := changes; changeTimes := []; cerr := cerr0 |}
                      blocks) = map block_time blocks).
    { now rewrite changeTimes_foldl. }
    split; [exact Ht|]. split; [now rewrite Ht|]. split; [|split].
    + intros Hnd b Hin. now apply changes_foldl_block.
    + intros line Hne. split; [now apply read_change_skip|].
      intros before after. rewrite !stored_changes_app. f_equal.
      unfold stored_changes. cbn [omap list_omap].
      now rewrite (read_change_skip line Hne).
    + apply read_change_add.
Qed.

(** *** Files that are missing, blank or cut short *)

Lemma take_until_none (delim : ascii) (l : string) :
  avoids delim l -> take_until delim l = (l, None).
Proof.
  unfold avoids. induction l as [|c l IH]; intros Hl; [reflexivity|].
  cbn [take_until]. destruct (Ascii.eqb c delim) eqn:Hc.
  - apply Ascii.eqb_eq in Hc. exfalso. apply (Hl c); [now left | exact Hc].
  - rewrite IH; [reflexivity|]. intros x Hin. apply Hl. now right.
Qed.

(** Once the input has ended, [getline] leaves [line] as it is, and every
    further iteration of the inner loop reads the same line again. *)
Lemma read_changes_exhausted (count : nat) :
  forall (ifs : istream) (line : string)
         (stored : list (Nav2DChange Rectangle2D)) (cerr0 : string),
    good ifs = false ->
    exists ifs',
      read_changes Rectangle2D_default read_Rectangle2D count ifs line stored
        cerr0 =
      (ifs', line,
       (stored ++ stored_changes Rectangle2D_default read_Rectangle2D
                    (replicate count line))%list,
       cerr0 ++ warnings Rectangle2D_default read_Rectangle2D
                  (replicate count line)) /\
      good ifs' = false.
Proof.
  induction count as [|n IH]; intros ifs line stored cerr0 Hg.
  - exists ifs. cbn. now rewrite app_nil_r, append_empty_r.
  - cbn [read_changes replicate]. unfold getline. rewrite Hg.
    destruct (read_change' line) as [change message] eqn:Hc.
    destruct (IH {| buffer := buffer ifs; eofbit := eofbit ifs; failbit := true |}
                line (stored ++ match change with Some c => [c] | None => [] end)%list
                (cerr0 ++ message)) as (ifs' & -> & Hg').
    { unfold good. cbn. apply andb_false_r. }
    exists ifs'. split; [|exact Hg'].
    unfold stored_changes, warnings. cbn [omap list_omap foldr].
    rewrite Hc. cbn [fst snd]. f_equal; [f_equal|].
    + destruct change; cbn [app]; now rewrite <- app_assoc.
    + now rewrite append_assoc.
Qed.

(** The inner loop on a block that the input cuts short: the text after
    the last line break is taken as a line, and read again for every line
    that is missing. *)
Lemma read_changes_truncated (lines : list string) :
  forall (lastline line : string) (missing : nat)
         (stored : list (Nav2DChange Rectangle2D)) (cerr0 : string),
    Forall one_line lines -> one_line lastline ->
    exists ifs' line',
      read_changes Rectangle2D_default read_Rectangle2D
        (length (lines ++ lastline :: replicate missing lastline))
        (istringstream (text_of_lines lines ++ lastline)) line stored cerr0 =
      (ifs', line',
       (stored ++ stored_changes Rectangle2D_default read_Rectangle2D
                    (lines ++ lastline :: replicate missing lastline))%list,
       cerr0 ++ warnings Rectangle2D_default read_Rectangle2D
                  (lines ++ lastline :: replicate missing lastline)) /\
      good ifs' = false.
Proof.
  induction lines as [|l lines IH];
    intros lastline line missing stored cerr0 Hl Hlast.
  - cbn [app length text_of_lines foldr read_changes]. rewrite append_nil.
    unfold getline, istringstream. cbn [good buffer eofbit failbit negb andb].
    rewrite (take_until_none _ _ Hlast).
    destruct (read_change' lastline) as [change message] eqn:Hc.
    destruct (read_changes_exhausted (length (replicate missing lastline))
                {| buffer := ""; eofbit := true; failbit := at_end lastline |}
                lastline
                (stored ++ match change with Some c => [c] | None => [] end)%list
                (cerr0 ++ message) eq_refl) as (ifs' & -> & Hg').
    exists ifs', lastline. split; [|exact Hg'].
    rewrite length_replicate.
    unfold stored_changes, warnings. cbn [omap list_omap foldr].
    rewrite Hc. cbn [fst snd]. f_equal; [f_equal|].
    + destruct change; cbn [app]; now rewrite <- app_assoc.
    + now rewrite append_assoc.
  - apply Forall_cons in Hl as [Hl Hls].
    cbn [app length read_changes text_of_lines foldr].
    fold (text_of_lines lines).
    rewrite !append_assoc, (getline_line l _ _ Hl).
    destruct (read_change' l) as [change message] eqn:Hc.
    destruct (IH lastline l missing
                (stored ++ match change with Some c => [c] | None => [] end)%list
                (cerr0 ++ message) Hls Hlast) as (ifs' & line' & -> & Hg').
    exists ifs', line'. split; [|exact Hg'].
    unfold stored_changes, warnings. cbn [omap list_omap foldr].
    rewrite Hc. cbn [fst snd]. f_equal; [f_equal|].
    + destruct change; cbn [app]; now rewrite <- app_assoc.
    + now rewrite append_assoc.
Qed.

(** A change file that ends before its block is complete is read without
    any error: the text after the last line break (empty when the file
    ends with one) counts as a line, and it is read again for every line
    that the header announces and the file lacks.  A last [ADD] line is so
    stored several times. *)
Theorem loadChanges_truncated_block (time : Z) (lines : list string)
    (lastline : string) (missing : nat)
    (changes : gmap Z (list (Nav2DChange Rectangle2D))) (cerr0 : string) :
  well_formed (padded_block time lines lastline missing) ->
  loadChanges Rectangle2D_default read_Rectangle2D
    (Some (header (padded_block time lines lastline missing) ++ endl
           ++ text_of_lines lines ++ lastline)) changes cerr0 =
  Ok (load_block'
        {| changes_ := changes; changeTimes := []; cerr := cerr0 |}
        (padded_block time lines lastline missing)).
Proof.
  intros (Ht & Hn & Hlines).
  set (b := padded_block time lines lastline missing) in *.
  assert (Hk : in_long (Z.of_nat (length (block_lines b))) = true).
  { apply CxxFacts.in_long_spec. unfold INT_MAX, LONG_MIN, LONG_MAX in *. lia. }
  assert (Hl : Forall one_line lines /\ one_line lastline).
  { unfold b, padded_block in Hlines. cbn [block_lines] in Hlines.
    apply Forall_app in Hlines as [Hl Hrest].
    apply Forall_cons in Hrest as [Hlast _]. auto. }
  destruct Hl as [Hl Hlast].
  unfold loadChanges. cbn [ifstream_open istringstream buffer].
  assert (Hlen : exists fuel,
             String.length (header b ++ endl ++ text_of_lines lines ++ lastline)
             = S fuel).
  { unfold header. rewrite !append_cons. cbn [String.length]. eauto. }
  destruct Hlen as [fuel ->]. cbn [load_blocks].
  rewrite (getline_line _ _ _ (one_line_header b)).
  cbn [failbit istringstream].
  destruct (read_header _ _ Ht Hk) as (s1 & s2 & s3 & s4 & w3 & H1 & H2 & H3 & H4).
  unfold header at 1. rewrite H1, H2, H3, H4. cbn [use bind].
  destruct (INT_MAX <? Z.of_nat (length (block_lines b)))%Z eqn:Hbig;
    [apply Z.ltb_lt in Hbig; lia|].
  rewrite Nat2Z.id.
  destruct (read_changes_truncated lines lastline (header b) missing []
              cerr0 Hl Hlast) as (ifs' & line' & Hread & Hg').
  unfold b at 1, padded_block at 1. cbn [block_lines].
  cbn [cerr changes_ changeTimes]. rewrite Hread.
  unfold getline. rewrite Hg'. cbn [failbit].
  reflexivity.
Qed.

(** A file that cannot be opened and an empty file give no change times,
    no changes and no message; a blank line where the header of a block is
    expected leaves [time] without a value, and the loop reads it. *)
Theorem loadChanges_missing_or_blank
    (changes : gmap Z (list (Nav2DChange Rectangle2D))) (cerr0 : string) :
  loadChanges Rectangle2D_default read_Rectangle2D None changes cerr0 =
    Ok {| changes_ := changes; changeTimes := []; cerr := cerr0 |} /\
  loadChanges Rectangle2D_default read_Rectangle2D (Some "") changes cerr0 =
    Ok {| changes_ := changes; changeTimes := []; cerr := cerr0 |} /\
  (forall line rest : string,
      one_line line -> skip_spaces line = "" ->
      loadChanges Rectangle2D_default read_Rectangle2D
        (Some (line ++ endl ++ rest)) changes cerr0 =
      Undef indeterminate_value).
Proof.
  split; [reflexivity|]. split; [reflexivity|].
  intros line rest Hline Hblank. unfold loadChanges.
  cbn [ifstream_open istringstream buffer].
  assert (Hlen : exists fuel, String.length (line ++ endl ++ rest) = S fuel).
  { rewrite length_append. unfold endl. rewrite append_cons.
    cbn [String.length]. rewrite Nat.add_succ_r. eauto. }
  destruct Hlen as [fuel ->]. cbn [load_blocks].
  fold (istringstream (line ++ endl ++ rest)).
  rewrite (getline_line _ _ _ Hline). cbn [failbit istringstream].
  unfold read_string at 1, sentry at 1, istringstream.
  cbn [good buffer eofbit failbit negb andb]. rewrite Hblank.
  reflexivity.
Qed.

(** When a time occurs in several blocks, the changes of its last block
    replace those of the earlier ones, while the time is returned once for
    each of the blocks. *)
Theorem loadChanges_last_block_wins (before after : list block) (b : block)
    (changes : gmap Z (list (Nav2DChange Rectangle2D))) (cerr0 : string) :
  Forall well_formed (before ++ b :: after) ->
  block_time b ∉ map block_time after ->
  exists loaded,
    loadChanges Rectangle2D_default read_Rectangle2D
      (Some (change_file (before ++ b :: after))) changes cerr0 = Ok loaded /\
    changes_ loaded !! block_time b =
      Some (stored_changes Rectangle2D_default read_Rectangle2D (block_lines b)) /\
    changeTimes loaded =
      (map block_time before ++ block_time b :: map block_time after)%list.
Proof.
  intros Hwf Hlast. eexists. split; [|split].
  - unfold loadChanges. cbn [ifstream_open istringstream buffer].
    apply load_blocks_blocks; [exact Hwf|].
    pose proof (change_file_length (before ++ b :: after)). lia.
  - rewrite foldl_app. cbn [foldl].
    rewrite changes_foldl_other by exact Hlast.
    cbn [load_block changes_]. apply lookup_insert_eq.
  - rewrite changeTimes_foldl. cbn [changeTimes app].
    now rewrite map_app.
Qed.

End LoaderFacts.

Lemma two_blocks_well_formed : Forall well_formed Example.two_blocks.
Proof.
  repeat constructor; try (cbn; unfold INT_MAX; lia);
    intros c Hin; cbn in Hin; intuition (subst; discriminate).
Qed.

Lemma two_blocks_times_NoDup : NoDup (map block_time Example.two_blocks).
Proof.
  cbn. apply NoDup_cons. split; [|apply NoDup_singleton].
  intros Hin. apply list_elem_of_singleton in Hin. discriminate.
Qed.

Lemma loadChanges_reads_blocks_witness :
  exists loaded,
    loadChanges "" Example.read_rest (Some (change_file Example.two_blocks))
      ∅ "" = Ok loaded /\
    changeTimes loaded = [5; 7]%Z /\
    changes_ loaded !! 5%Z =
      Some (stored_changes "" Example.read_rest
              ["ADD Obstacle 1 0 0 1 1"; "DEL Obstacle 2"; "ADD Goal 3 4 4 5 5"]).
Proof.
  destruct (loadChanges_reads_blocks "" Example.read_rest Example.two_blocks
              ∅ "" two_blocks_well_formed)
    as (loaded & Hload & _ & Ht & _ & Hstored & _).
  exists loaded. split; [exact Hload|]. split; [exact Ht|].
  apply (Hstored two_blocks_times_NoDup
           {| block_time := 5;
              block_lines := ["ADD Obstacle 1 0 0 1 1"; "DEL Obstacle 2";
                              "ADD Goal 3 4 4 5 5"] |}).
  left.
Defined.

(** C8 as stated fails on a file whose blocks are not in the order of
    their times: the list returned is in the order of the file. *)
Lemma loadChanges_unsorted_counterexample :
  exists loaded,
    loadChanges "" Example.read_rest (Some Example.unsorted_changes) ∅ ""
      = Ok loaded /\
    changeTimes loaded = [5; 3]%Z /\
    ~ StronglySorted Z.lt (changeTimes loaded).
Proof.
  eexists. split; [vm_compute; reflexivity|]. split; [reflexivity|].
  cbn [changeTimes]. intros Hs. inversion Hs as [|x l Hl Hx]; subst.
  inversion Hx as [|y l' Hlt Hrest]; subst. lia.
Qed.

(** A block that announces four changes in a file that ends in the middle
    of the second: the second line is stored three times. *)
Lemma cut_block_well_formed :
  well_formed
    (padded_block 5 ["ADD Obstacle 1 0 0 1 1"] "ADD Goal 3 4 4 5 5" 2).
Proof.
  split; [reflexivity|]. split; [cbn; unfold INT_MAX; lia|].
  repeat constructor; intros c Hin; cbn in Hin; intuition (subst; discriminate).
Qed.

Lemma loadChanges_truncated_block_witness :
  loadChanges "" Example.read_rest
    (Some (header (padded_block 5 ["ADD Obstacle 1 0 0 1 1"]
                     "ADD Goal 3 4 4 5 5" 2) ++ endl
           ++ text_of_lines ["ADD Obstacle 1 0 0 1 1"] ++ "ADD Goal 3 4 4 5 5"))
    ∅ "" =
  Ok (load_block "" Example.read_rest
        {| changes_ := ∅; changeTimes := []; cerr := "" |}
        (padded_block 5 ["ADD Obstacle 1 0 0 1 1"] "ADD Goal 3 4 4 5 5" 2)).
Proof.
  exact (loadChanges_truncated_block "" Example.read_rest 5
           ["ADD Obstacle 1 0 0 1 1"] "ADD Goal 3 4 4 5 5" 2 ∅ ""
           cut_block_well_formed).
Defined.

(** Time 5 in two blocks, the second of them empty. *)
Lemma repeated_time_well_formed :
  Forall well_formed
    ([ {| block_time := 5; block_lines := ["ADD Obstacle 1 0 0 1 1"] |} ]
     ++ {| block_time := 5; block_lines := [] |}
        :: [ {| block_time := 7; block_lines := [] |} ]).
Proof.
  repeat constructor; try (cbn; unfold INT_MAX; lia);
    intros c Hin; cbn in Hin; intuition (subst; discriminate).
Qed.

Lemma loadChanges_last_block_wins_witness :
  exists loaded,
    loadChanges "" Example.read_rest
      (Some (change_file
               ([ {| block_time := 5;
                     block_lines := ["ADD Obstacle 1 0 0 1 1"] |} ]
                ++ {| block_time := 5; block_lines := [] |}
                   :: [ {| block_time := 7; block_lines := [] |} ])))
      ∅ "" = Ok loaded /\
    changes_ loaded !! 5%Z = Some (stored_changes "" Example.read_rest []) /\
    changeTimes loaded = ([5%Z] ++ 5%Z :: [7%Z])%list.
Proof.
  apply (loadChanges_last_block_wins "" Example.read_rest
           [ {| block_time := 5; block_lines := ["ADD Obstacle 1 0 0 1 1"] |} ]
           [ {| block_time := 7; block_lines := [] |} ]
           {| block_time := 5; block_lines := [] |} ∅ ""
           repeated_time_well_formed).
  cbn. intros Hin. apply list_elem_of_singleton in Hin. discriminate.
Defined.

End Nav2DChangesFacts.

(** ** The text serializer of the discrete observation mapping *)

Module DiscreteSerializerFacts.
Import Streams StreamsFacts DiscreteObservations DiscreteObservationsFacts.
Import DiscreteSerializer.

Local Open Scope string_scope.

Lemma string_le_total : Total string_le.
Proof. intros a b. apply String.leb_total. Qed.

Section SerializerFacts.
Context {Observation : Type} `{Countable Observation}.
Context {ActionPool ActionMapping BeliefNode : Type}.
Context `{!BeliefNodeAPI ActionMapping BeliefNode}.
Context `{!ActionPoolAPI ActionPool ActionMapping}.
Context `{!BeliefTreeAPI BeliefNode}.
Variable saveObservation : Observation -> string.
Variable loadObservation : istream -> istream * option Observation.

Abbreviation SMap := (DiscreteObservationMap Observation ActionPool).
Abbreviation record_line' := (record_line saveObservation).
Abbreviation record_body' := (record_body saveObservation).

(** *** Saving *)

Lemma entry_line_record (heap : gmap positive BeliefNode)
    (entry : Observation * DiscreteObservationMapEntry) (id : Z) :
  child_id heap entry.2 = Some id ->
  entry_line saveObservation heap entry =
  Ok (record_line' (entry_record heap entry)).
Proof.
  unfold entry_line, entry_record, record_line, child_id, deref.
  destruct (childNode entry.2) as [l|]; [|discriminate].
  destruct (heap !! l) as [b|]; [|discriminate].
  cbn [fmap option_fmap option_map default fst snd bind]. intros _.
  now rewrite !append_assoc.
Qed.

Lemma entry_lines_records (heap : gmap positive BeliefNode)
    (entries : list (Observation * DiscreteObservationMapEntry)) :
  Forall (fun entry => is_Some (child_id heap entry.2)) entries ->
  entry_lines saveObservation heap entries =
  Ok (map (fun entry => record_line' (entry_record heap entry)) entries).
Proof.
  induction 1 as [|entry entries [id Hid] _ IH]; [reflexivity|].
  cbn [entry_lines map]. rewrite (entry_line_record _ _ id Hid), IH. reflexivity.
Qed.

Lemma foldl_append (lines : list string) :
  forall os : string,
    foldl (fun os line => os ++ line) os lines = os ++ concat_text lines.
Proof.
  induction lines as [|l lines IH]; intros os; cbn [foldl concat_text foldr].
  - now rewrite append_empty_r.
  - rewrite IH. fold (concat_text lines). now rewrite append_assoc.
Qed.

(** The saved form: the header, the entry lines in lexicographic order,
    and the closing brace. *)
Lemma saveObservationMapping_form (m : SMap) (heap : gmap positive BeliefNode) :
  (forall obs e, childMap_ m !! obs = Some e -> is_Some (child_id heap e)) ->
  exists sorted records,
    saveObservationMapping saveObservation m heap =
      Ok (header_line (disc_getNChildren m) (disc_getTotalVisitCount m) ++ endl
          ++ concat_text sorted ++ "}" ++ endl) /\
    sorted = map record_line' records /\
    Sorted string_le sorted /\
    records ≡ₚ map (entry_record heap) (map_to_list (childMap_ m)).
Proof.
  intros Hchild. unfold saveObservationMapping.
  rewrite entry_lines_records.
  2:{ apply Forall_forall. intros [obs e] Hin.
      apply elem_of_map_to_list in Hin. exact (Hchild obs e Hin). }
  cbn [bind]. rewrite foldl_append.
  pose proof (merge_sort_Permutation string_le
                (map (fun entry => record_line' (entry_record heap entry))
                   (map_to_list (childMap_ m)))) as Hperm.
  rewrite <- (map_map (entry_record heap) record_line') in Hperm.
  apply Permutation_map_inv in Hperm as (records & Hsorted & Hrec).
  exists (map record_line' records), records. repeat split.
  - rewrite <- (map_map (entry_record heap) record_line'), Hsorted.
    unfold header_line. now rewrite !append_assoc.
  - rewrite <- Hsorted. apply Sorted_merge_sort, string_le_total.
  - symmetry. exact Hrec.
Qed.

(** Every entry line is written through the entry's child pointer: the
    lines are all written when each entry has a child node on the heap, and
    the first entry without one stops the loop with a null dereference. *)
Lemma entry_lines_cases (heap : gmap positive BeliefNode)
    (entries : list (Observation * DiscreteObservationMapEntry)) :
  (Forall (fun entry => is_Some (child_id heap entry.2)) entries /\
   exists lines, entry_lines saveObservation heap entries = Ok lines) \/
  (Exists (fun entry => child_id heap entry.2 = None) entries /\
   entry_lines saveObservation heap entries = Undef null_dereference).
Proof.
  induction entries as [|entry entries IH].
  - left. split; [constructor | eexists; reflexivity].
  - cbn [entry_lines].
    destruct (child_id heap entry.2) as [id|] eqn:Hid.
    + rewrite (entry_line_record _ _ id Hid). cbn [bind].
      destruct IH as [[Hall [lines ->]] | [Hex ->]].
      * left. split; [constructor; eauto | eexists; reflexivity].
      * right. split; [now apply Exists_cons_tl | reflexivity].
    + right. split; [now apply Exists_cons_hd|].
      unfold entry_line, deref. unfold child_id in Hid.
      destruct (childNode entry.2) as [l|]; [|reflexivity].
      destruct (heap !! l); [discriminate | reflexivity].
Qed.

(** [saveObservationMapping] returns exactly when every entry of the
    mapping has a child node on the heap; an entry without one, such as
    [updateVisitCount] creates, makes it dereference a null pointer.  It
    never throws. *)
Theorem saveObservationMapping_needs_every_child (m : SMap)
    (heap : gmap positive BeliefNode) :
  ((exists text, saveObservationMapping saveObservation m heap = Ok text) <->
   (forall obs e, childMap_ m !! obs = Some e -> is_Some (child_id heap e))) /\
  (saveObservationMapping saveObservation m heap = Undef null_dereference <->
   (exists obs e, childMap_ m !! obs = Some e /\ child_id heap e = None)) /\
  (forall e, saveObservationMapping saveObservation m heap <> Throw e).
Proof.
  unfold saveObservationMapping.
  destruct (entry_lines_cases heap (map_to_list (childMap_ m)))
    as [[Hall [lines ->]] | [Hex ->]]; cbn [bind].
  - rewrite Forall_forall in Hall. split; [|split]; [split| |discriminate].
    + intros _ obs e He. apply (Hall (obs, e)). now apply elem_of_map_to_list.
    + intros _. eexists. reflexivity.
    + split; [discriminate|]. intros (obs & e & He & Hid).
      destruct (Hall (obs, e)) as [id Hsome];
        [now apply elem_of_map_to_list | cbn [snd] in Hsome; congruence].
  - apply Exists_exists in Hex as ([obs e] & Hin & Hid).
    apply elem_of_map_to_list in Hin. cbn [snd] in Hid.
    split; [|split]; [split| |discriminate].
    + intros [text [=]].
    + intros Hall. destruct (Hall obs e Hin) as [id Hsome]. congruence.
    + split; [eauto | reflexivity].
Qed.

(** *** Loading *)

Lemma record_line_body (r : Observation * Z * Z) (rest : string) :
  record_line' r ++ rest = record_body' r ++ endl ++ rest.
Proof. unfold record_line, record_body. now rewrite !append_assoc. Qed.

Hypothesis observations_round_trip :
  observation_round_trip saveObservation loadObservation.

Lemma record_body_one_line (r : Observation * Z * Z) :
  avoids newline (record_body' r).
Proof.
  unfold record_body.
  repeat apply avoids_append;
    try (apply avoids_long; [reflexivity | discriminate]);
    try apply (proj1 (observations_round_trip r.1.1 ""));
    intros c Hin; cbn in Hin; intuition (subst; discriminate).
Qed.

(** The reads of one iteration of the loading loop on an entry line. *)
Lemma entry_reads (obs : Observation) (id visits : Z) (tmp : string) :
  in_long id = true -> in_long visits = true ->
  exists s1 s2 s3 s4 s5 w1,
    loadObservation (istringstream (record_body' (obs, id, visits))) = (s1, Some obs) /\
    read_string s1 tmp = (s2, w1) /\
    read_string s2 w1 = (s3, "NODE") /\
    getline s3 ";"%char "NODE" = (s4, " " ++ string_of_long id) /\
    read_long (istringstream (" " ++ string_of_long id)) None = (s5, Some id) /\
    exists s6, read_long s4 None = (s6, Some visits).
Proof.
  intros Hid Hv. unfold record_body. cbn [fst snd].
  destruct (observations_round_trip obs
              (string_of_long id ++ "; " ++ string_of_long visits ++ " visits"))
    as [_ Hload].
  assert (H1 : forall X w,
    read_string (istringstream (" -> NODE " ++ X)) w =
    (istringstream (" NODE " ++ X), "->")) by reflexivity.
  assert (H2 : forall X w,
    read_string (istringstream (" NODE " ++ X)) w =
    (istringstream (" " ++ X), "NODE")) by reflexivity.
  do 6 eexists. split; [exact Hload|]. split; [apply H1|]. split; [apply H2|].
  split.
  { change ("; " ++ string_of_long visits ++ " visits")
      with (String ";" (" " ++ string_of_long visits ++ " visits")).
    rewrite <- append_assoc.
    apply getline_delim. apply avoids_append.
    - intros c Hin. cbn in Hin. intuition (subst; discriminate).
    - apply avoids_long; [reflexivity | discriminate]. }
  split.
  { rewrite <- (append_empty_r (string_of_long id)) at 1.
    rewrite read_long_print; [reflexivity | exact Hid | exact I]. }
  eexists. rewrite read_long_print; [reflexivity | exact Hv | reflexivity].
Qed.

(** The header line is not checked.  When it is blank, or the input has
    ended, no number of children is read and the loop bound is an
    uninitialised variable; when it starts with something that is no
    number, the number read is 0 and the result is an empty mapping with
    total 0, without any error. *)
Theorem loadObservationMapping_malformed_header (actionPool : ActionPool)
    (heap : gmap positive BeliefNode) :
  (forall ins : istream,
      skip_spaces (getline ins newline "").2 = "" ->
      loadObservationMapping loadObservation actionPool ins heap =
      Undef indeterminate_value) /\
  (forall (line rest : string) (c : ascii) (r : string),
      avoids newline line ->
      skip_spaces line = String c r ->
      digit c = None -> c <> "-"%char -> c <> "+"%char ->
      loadObservationMapping loadObservation actionPool
        (istringstream (line ++ endl ++ rest)) heap =
      Ok ((getline (istringstream rest) newline line).1,
          DiscreteObservationMap_new actionPool, heap)).
Proof.
  split.
  - intros ins Hblank. unfold loadObservationMapping.
    destruct (getline ins newline "") as [ins1 line]. cbn [snd] in Hblank.
    unfold read_long at 1, sentry at 1, istringstream.
    cbn [good buffer eofbit failbit negb andb]. rewrite Hblank.
    reflexivity.
  - intros line rest c r Hline Hskip Hd Hminus Hplus.
    unfold loadObservationMapping. rewrite (getline_line _ _ _ Hline).
    unfold read_long at 1, sentry at 1, istringstream.
    cbn [good buffer eofbit failbit negb andb]. rewrite Hskip. cbn [buffer].
    assert (Hparse : parse_long (String c r) = (0%Z, true, String c r)).
    { unfold parse_long.
      assert (Hsign :
        match String c r with
        | String "-"%char r0 => (true, r0)
        | String "+"%char r0 => (false, r0)
        | _ => (false, String c r)
        end = (false, String c r)).
      { destruct c as [[] [] [] [] [] [] [] []]; try reflexivity; congruence. }
      rewrite Hsign. cbn [take_digits]. now rewrite Hd. }
    rewrite Hparse. cbn [at_end]. unfold read_string, read_long, sentry.
    cbn [good buffer eofbit failbit negb andb use bind].
    change (INT_MAX <? 0)%Z with false.
    change (Z.to_nat 0) with 0%nat. cbn [load_entries bind].
    destruct (getline {| buffer := rest; eofbit := false; failbit := false |}
                newline line) as [ins2 line2].
    reflexivity.
Qed.

Hypothesis setNode_sets_id :
  forall (id : Z) (b : BeliefNode),
    BeliefNode_getId (BeliefTree_setNode id b) = id.

Lemma concat_text_cons (l : string) (lines : list string) (rest : string) :
  concat_text (l :: lines) ++ rest = l ++ concat_text lines ++ rest.
Proof. cbn [concat_text foldr]. now rewrite append_assoc. Qed.

Lemma load_entries_records (records : list (Observation * Z * Z)) :
  forall (rest line tmp : string) (m0 : SMap) (h0 : gmap positive BeliefNode),
    NoDup records.*1.*1 ->
    (forall obs, obs ∈ records.*1.*1 -> childMap_ m0 !! obs = None) ->
    Forall (fun r => in_long r.1.2 = true /\ in_long r.2 = true) records ->
    exists line' m' h',
      load_entries loadObservation (length records)
        (istringstream (concat_text (map record_line' records) ++ rest))
        line tmp m0 h0 = Ok (istringstream rest, line', m', h') /\
      (records = [] -> line' = line) /\
      loaded_records records m0 h0 m' h'.
Proof.
  induction records as [|[[obs id] visits] records IH];
    intros rest line tmp m0 h0 Hnd Hnew Hlong.
  - exists line, m0, h0. split; [reflexivity|]. split; [reflexivity|].
    repeat split; try reflexivity. intros obs id visits Hin. inversion Hin.
  - cbn [fmap list_fmap fst] in Hnd, Hnew.
    apply NoDup_cons in Hnd as [Hfresh Hnd].
    apply Forall_cons in Hlong as [[Hid Hv] Hlong]. cbn [fst snd] in Hid, Hv.
    assert (Hnone : childMap_ m0 !! obs = None) by (apply Hnew; left).
    cbn [length map load_entries].
    rewrite concat_text_cons, record_line_body.
    rewrite (getline_line _ _ _ (record_body_one_line (obs, id, visits))).
    destruct (entry_reads obs id visits tmp Hid Hv)
      as (s1 & s2 & s3 & s4 & s5 & w1 & Hr1 & Hr2 & Hr3 & Hr4 & Hr5 & s6 & Hr6).
    rewrite Hr1, Hr2, Hr3, Hr4, Hr5, Hr6. cbn [bind use].
    unfold disc_createBelief. rewrite Hnone. cbn [bind].
    set (l := fresh (dom h0)).
    set (node := BeliefNode_new (createActionMapping (actionPool_ m0))).
    assert (Hl : h0 !! l = None) by (apply not_elem_of_dom, is_fresh).
    unfold setNode, deref. rewrite lookup_insert_eq. cbn [bind].
    rewrite insert_insert_eq. cbn [childMap_ actionPool_ totalVisitCount_].
    unfold subscript. rewrite lookup_insert_eq. cbn [default childNode].
    rewrite insert_insert_eq.
    edestruct (IH rest (record_body' (obs, id, visits)) (" " ++ string_of_long id)
                 {| actionPool_ := actionPool_ m0;
                    childMap_ :=
                      <[obs := {| childNode := Some l; visitCount := visits |}]>
                        (childMap_ m0);
                    totalVisitCount_ := totalVisitCount_ m0 |}
                 (<[l := BeliefTree_setNode id node]> h0))
      as (line' & m' & h' & Hload & _ & Hpool & Htotal & Hsub & Hother & Hin).
    + exact Hnd.
    + intros obs' Hobs'. cbn [childMap_].
      rewrite lookup_insert_ne by (intros ->; contradiction).
      apply Hnew. now right.
    + exact Hlong.
    + exists line', m', h'. split; [exact Hload|]. split; [discriminate|].
      cbn [actionPool_ totalVisitCount_ childMap_] in *.
      split; [exact Hpool|]. split; [exact Htotal|]. split; [|split].
      * etransitivity; [|exact Hsub]. now apply insert_subseteq.
      * intros obs' Hobs'. cbn [fmap list_fmap fst] in Hobs'.
        apply not_elem_of_cons in Hobs' as [Hne Hobs'].
        rewrite (Hother obs' Hobs'). now apply lookup_insert_ne.
      * intros obs' id' visits' Hin'. apply elem_of_cons in Hin' as [[= -> -> ->] | Hin'].
        -- exists l, (BeliefTree_setNode id node). split; [|split].
           ++ rewrite (Hother obs Hfresh). apply lookup_insert_eq.
           ++ eapply lookup_weaken; [apply lookup_insert_eq | exact Hsub].
           ++ apply setNode_sets_id.
        -- now apply Hin.
Qed.

Lemma header_line_one_line (n total : Z) : avoids newline (header_line n total).
Proof.
  unfold header_line.
  repeat apply avoids_append;
    try (apply avoids_long; [reflexivity | discriminate]);
    intros c Hin; cbn in Hin; intuition (subst; discriminate).
Qed.

(** The reads from the header line. *)
Lemma header_reads (n total : Z) (old : option Z) :
  in_long n = true -> in_long total = true ->
  exists s1 s2 s3 s4 w2,
    read_long (istringstream (header_line n total)) None = (s1, Some n) /\
    read_string s1 "" = (s2, "observation") /\
    read_string s2 "observation" = (s3, w2) /\
    read_long s3 old = (s4, Some total).
Proof.
  intros Hn Ht. unfold header_line.
  assert (H1 : forall X w,
    read_string
      {| buffer := " observation children; " ++ X; eofbit := false;
         failbit := false |} w =
    (istringstream (" children; " ++ X), "observation")) by reflexivity.
  assert (H2 : forall X w,
    read_string (istringstream (" children; " ++ X)) w =
    (istringstream (" " ++ X), "children;")) by reflexivity.
  do 5 eexists. split.
  { rewrite read_long_at; [reflexivity | exact Hn | reflexivity]. }
  split; [apply H1|]. split; [apply H2|].
  rewrite read_long_print; [reflexivity | exact Ht | reflexivity].
Qed.


Lemma same_domain_size (m1 m2 : gmap Observation DiscreteObservationMapEntry) :
  (forall obs, m1 !! obs = None <-> m2 !! obs = None) -> size m1 = size m2.
Proof.
  intros Hdom. rewrite <- !size_dom. f_equal. apply set_eq. intros obs.
  rewrite !elem_of_dom, <- !not_eq_None_Some. now rewrite Hdom.
Qed.

(** C5 (as amended): for a mapping all of whose entries have a child
    belief node, [saveObservationMapping] writes the header
    [<nChildren> observation children; <totalVisits> visits {], one line per
    entry in lexicographic order and a closing brace, and
    [loadObservationMapping] reads from that text a mapping with the same
    number of children, the same total visit count, and for every
    observation the same visit count and the same child node id. *)
Theorem save_then_load_reproduces_the_mapping (m : SMap)
    (heap : gmap positive BeliefNode) (actionPool : ActionPool)
    (heap0 : gmap positive BeliefNode) (rest : string) :
  writable m heap ->
  exists text sorted records,
    saveObservationMapping saveObservation m heap = Ok text /\
    text = header_line (disc_getNChildren m) (disc_getTotalVisitCount m) ++ endl
           ++ concat_text sorted ++ "}" ++ endl /\
    sorted = map record_line' records /\
    Sorted string_le sorted /\
    records ≡ₚ map (entry_record heap) (map_to_list (childMap_ m)) /\
    exists m' heap',
      loadObservationMapping loadObservation actionPool
        (istringstream (text ++ rest)) heap0 = Ok (istringstream rest, m', heap') /\
      same_content m heap m' heap'.
Proof.
  intros (Hsize & Htotal & Hentries).
  destruct (saveObservationMapping_form m heap) as (sorted & records & Hsave & Hs & Hsorted & Hperm).
  { intros obs e He. destruct (Hentries obs e He) as (_ & id & -> & _). eauto. }
  eexists. exists sorted, records. split; [exact Hsave|]. split; [reflexivity|].
  split; [exact Hs|]. split; [exact Hsorted|]. split; [exact Hperm|].
  assert (Hn : in_long (disc_getNChildren m) = true).
  { apply CxxFacts.in_long_spec. unfold disc_getNChildren, INT_MAX, LONG_MIN, LONG_MAX in *.
    lia. }
  assert (Hlen : length records = size (childMap_ m)).
  { rewrite Hperm, length_map. apply length_map_to_list. }
  assert (Hin : forall obs id visits, (obs, id, visits) ∈ records ->
            exists e, childMap_ m !! obs = Some e /\ visitCount e = visits /\
                      child_id heap e = Some id /\ in_long id = true /\
                      in_long visits = true).
  { intros obs id visits Hr. rewrite Hperm in Hr.
    apply list_elem_of_fmap in Hr as ([obs' e] & [= -> -> ->] & He).
    apply elem_of_map_to_list in He. cbn [fst snd].
    destruct (Hentries obs' e He) as (Hv & id & Hid & Hidl).
    exists e. rewrite Hid. cbn [default]. auto. }
  assert (Hkeys : records.*1.*1 ≡ₚ (map_to_list (childMap_ m)).*1).
  { rewrite Hperm. rewrite <- !list_fmap_compose. reflexivity. }
  unfold loadObservationMapping.
  rewrite !append_assoc.
  rewrite (getline_line _ _ _ (header_line_one_line _ _)).
  destruct (header_reads (disc_getNChildren m) (disc_getTotalVisitCount m)
              (Some (totalVisitCount_
                       (DiscreteObservationMap_new (Observation := Observation)
                          actionPool)))
              Hn Htotal)
    as (s1 & s2 & s3 & s4 & w2 & Hr1 & Hr2 & Hr3 & Hr4).
  rewrite Hr1, Hr2, Hr3, Hr4. cbn [use bind].
  destruct (INT_MAX <? disc_getNChildren m)%Z eqn:Hbig;
    [apply Z.ltb_lt in Hbig; unfold disc_getNChildren in Hbig; lia|].
  unfold disc_getNChildren at 1. rewrite Nat2Z.id, <- Hlen, Hs.
  edestruct (load_entries_records records ("}" ++ endl ++ rest)
               (header_line (disc_getNChildren m) (disc_getTotalVisitCount m)) w2
               {| actionPool_ :=
                    actionPool_
                      (DiscreteObservationMap_new (Observation := Observation)
                         actionPool);
                  childMap_ := childMap_ (DiscreteObservationMap_new actionPool);
                  totalVisitCount_ := disc_getTotalVisitCount m |} heap0)
    as (line' & m' & heap' & Hload & _ & Hpool & Htot & Hsub & Hother & Hrec).
  { rewrite Hkeys. apply NoDup_fst_map_to_list. }
  { intros obs _. apply lookup_empty. }
  { apply Forall_forall. intros [[obs id] visits] Hr.
    destruct (Hin obs id visits Hr) as (e & _ & _ & _ & Hid & Hv). auto. }
  rewrite Hload. cbn [bind].
  rewrite (getline_line "}" rest line').
  2:{ intros c Hc. cbn in Hc. intuition (subst; discriminate). }
  exists m', heap'. split; [reflexivity|].
  cbn [actionPool_ totalVisitCount_ childMap_ DiscreteObservationMap_new] in *.
  assert (Hlookup : forall obs,
            match childMap_ m !! obs, childMap_ m' !! obs with
            | Some e, Some e' =>
                visitCount e' = visitCount e /\
                is_Some (child_id heap' e') /\
                child_id heap' e' = child_id heap e
            | None, None => True
            | _, _ => False
            end).
  { intros obs. destruct (childMap_ m !! obs) as [e|] eqn:He.
    - destruct (Hentries obs e He) as (Hv & id & Hid & Hidl).
      destruct (Hrec obs id (visitCount e)) as (l & b & -> & Hb & Hbid).
      { rewrite Hperm. apply list_elem_of_fmap. exists (obs, e). split.
        - unfold entry_record. cbn [fst snd]. now rewrite Hid.
        - now apply elem_of_map_to_list. }
      unfold child_id at 1 2. cbn [childNode visitCount].
      rewrite Hb. cbn [fmap option_fmap option_map]. rewrite Hbid, Hid. eauto.
    - rewrite Hother; [now rewrite lookup_empty|].
      rewrite Hkeys. intros Hk. apply list_elem_of_fmap in Hk as ([obs' e] & -> & Hk).
      apply elem_of_map_to_list in Hk. cbn [fst] in He. congruence. }
  split; [|split; [exact Htot | exact Hlookup]].
  unfold disc_getNChildren. f_equal. apply same_domain_size. intros obs.
  specialize (Hlookup obs).
  destruct (childMap_ m !! obs), (childMap_ m' !! obs); intuition congruence.
Qed.

End SerializerFacts.

(** *** The round trip on the door mapping of [Example] *)

Lemma door_round_trip :
  observation_round_trip Example.save_door Example.load_door.
Proof.
  intros obs rest. split.
  - destruct obs; intros c Hin; cbn in Hin; intuition (subst; discriminate).
  - destruct obs; reflexivity.
Qed.

Lemma door_writable : writable Example.door_map Example.door_heap.
Proof.
  split; [vm_compute; discriminate|]. split; [reflexivity|].
  intros obs e He. destruct obs; vm_compute in He; injection He as <-.
  - split; [reflexivity|]. exists 4%Z. split; reflexivity.
  - split; [reflexivity|]. exists 9%Z. split; reflexivity.
Qed.

Lemma save_then_load_reproduces_the_mapping_witness :
  exists text sorted records,
    saveObservationMapping Example.save_door Example.door_map Example.door_heap
      = Ok text /\
    text = header_line (disc_getNChildren Example.door_map)
             (disc_getTotalVisitCount Example.door_map) ++ endl
           ++ concat_text sorted ++ "}" ++ endl /\
    sorted = map (record_line Example.save_door) records /\
    Sorted string_le sorted /\
    records ≡ₚ map (entry_record Example.door_heap)
                 (map_to_list (childMap_ Example.door_map)) /\
    exists m' heap',
      loadObservationMapping Example.load_door tt (istringstream (text ++ ""))
        Example.empty_heap = Ok (istringstream "", m', heap') /\
      same_content Example.door_map Example.door_heap m' heap'.
Proof.
  exact (save_then_load_reproduces_the_mapping
           Example.save_door Example.load_door door_round_trip
           (fun id b => eq_refl) Example.door_map Example.door_heap tt
           Example.empty_heap "" door_writable).
Defined.

(** C5 as stated fails on the mapping that [updateVisitCount(open, 1)]
    leaves: its entry has no child node, and saving reads the id through
    the null child pointer. *)
Lemma save_without_child_counterexample :
  disc_updateVisitCount (DiscreteObservationMap_new tt) true 1
    = Ok Example.door_visited_only /\
  forall heap : gmap positive Example.Node,
    saveObservationMapping Example.save_door Example.door_visited_only heap
      = Undef null_dereference.
Proof.
  split; [reflexivity|]. intros heap.
  unfold saveObservationMapping.
  replace (map_to_list (childMap_ Example.door_visited_only))
    with [(true, {| childNode := None; visitCount := 1 |})]
    by (symmetry; apply map_to_list_singleton).
  reflexivity.
Qed.



Lemma loadObservationMapping_malformed_header_witness :
  loadObservationMapping Example.load_door tt (istringstream "") Example.empty_heap
    = Undef indeterminate_value /\
  loadObservationMapping Example.load_door tt
    (istringstream ("no header" ++ endl ++ "")) Example.empty_heap =
  Ok ((getline (istringstream "") newline "no header").1,
      DiscreteObservationMap_new tt, Example.empty_heap).
Proof.
  split.
  - apply (proj1 (loadObservationMapping_malformed_header
                    Example.load_door tt Example.empty_heap) (istringstream "")).
    reflexivity.
  - apply (proj2 (loadObservationMapping_malformed_header
                    Example.load_door tt Example.empty_heap)
             "no header" "" "n"%char "o header").
    + intros c Hin. cbn in Hin. intuition (subst; discriminate).
    + reflexivity.
    + reflexivity.
    + discriminate.
    + discriminate.
Defined.

End DiscreteSerializerFacts.

(** ** Area tables, actions and steps of the navigation model *)

Module Nav2DWorldFacts.
Import Streams StreamsFacts Nav2D Nav2DFacts Nav2DWorld.

Local Open Scope R_scope.

Lemma parseAreaType_cases (text : string) :
  (exists type, text = areaTypeToString type
                /\ Nav2DChanges.parseAreaType text = (type, ""%string)) \/
  ((forall type, text <> areaTypeToString type) /\
   Nav2DChanges.parseAreaType text =
     (EMPTY, ("ERROR: Invalid area type: " ++ text)%string)).
Proof.
  unfold Nav2DChanges.parseAreaType.
  destruct (String.eqb text "World") eqn:H1;
    [apply String.eqb_eq in H1; left; exists WORLD; auto|].
  destruct (String.eqb text "Start") eqn:H2;
    [apply String.eqb_eq in H2; left; exists START; auto|].
  destruct (String.eqb text "Observation") eqn:H3;
    [apply String.eqb_eq in H3; left; exists OBSERVATION; auto|].
  destruct (String.eqb text "Goal") eqn:H4;
    [apply String.eqb_eq in H4; left; exists GOAL; auto|].
  destruct (String.eqb text "Obstacle") eqn:H5;
    [apply String.eqb_eq in H5; left; exists OBSTACLE; auto|].
  destruct (String.eqb text "Empty") eqn:H6;
    [apply String.eqb_eq in H6; left; exists EMPTY; auto|].
  destruct (String.eqb text "OOB") eqn:H7;
    [apply String.eqb_eq in H7; left; exists OUT_OF_BOUNDS; auto|].
  right. split; [|reflexivity].
  apply String.eqb_neq in H1, H2, H3, H4, H5, H6, H7.
  intros []; assumption.
Qed.

(** [parseAreaType] reads back what [areaTypeToString] writes, without a
    message; it writes a message exactly for the texts that are no name of
    an area type, and takes them all for [EMPTY]. *)
Theorem parseAreaType_reads_areaTypeToString :
  (forall type : AreaType,
      Nav2DChanges.parseAreaType (areaTypeToString type) = (type, ""%string)) /\
  (forall text : string,
      (Nav2DChanges.parseAreaType text).2 = ""%string <->
      exists type, text = areaTypeToString type) /\
  (forall text : string,
      (Nav2DChanges.parseAreaType text).2 <> ""%string ->
      (Nav2DChanges.parseAreaType text).1 = EMPTY).
Proof.
  split; [intros []; reflexivity|]. split.
  - intros text.
    destruct (parseAreaType_cases text) as [(type & Ht & ->) | [Hno ->]];
      cbn [snd].
    + split; eauto.
    + split; [discriminate|]. intros [type Ht]. now apply Hno in Ht.
  - intros text.
    destruct (parseAreaType_cases text) as [(type & Ht & ->) | [Hno ->]];
      cbn [fst snd]; [congruence | reflexivity].
Qed.

(** A text that [parseAreaType] takes for a type with a table, or for the
    world, is the name of that type. *)
Lemma parseAreaType_keyword (text : string) :
  (Nav2DChanges.parseAreaType text).1 = WORLD \/
  has_table (Nav2DChanges.parseAreaType text).1 = true ->
  map_keyword text.
Proof.
  unfold map_keyword.
  destruct (parseAreaType_cases text) as [(type & -> & ->) | [Hno ->]];
    cbn [fst].
  - destruct type; cbn; intros [H|H]; try discriminate; auto 6.
  - cbn. intros [H|H]; discriminate.
Qed.

Section WorldFacts.
Context {Rectangle2D RTree RandomGenerator : Type}.
Context `{!Vector2DAPI}.
Variable contains : Rectangle2D -> Point2D -> bool.
Variable getArea : Rectangle2D -> R.
Variable sampleUniform :
  Rectangle2D -> RandomGenerator -> Point2D * RandomGenerator.
Variable insertData : RTree -> Rectangle2D -> Z -> RTree.
Variable normal_distribution :
  R -> R -> RandomGenerator -> R * RandomGenerator.
Variable uniform_real_distribution :
  R -> R -> RandomGenerator -> R * RandomGenerator.
Variable string_of_double : R -> string.

Abbreviation NavWorld := (World Rectangle2D RTree).

(** [getAreaType] classifies the position of a state as the loop of
    [tryPath] treats it: it answers [OUT_OF_BOUNDS] or [OBSTACLE] exactly
    where the loop reports a collision, and [GOAL] exactly where the loop
    reports none and the state is terminal; it never answers [WORLD], so
    that [dispPoint] writes one character for its answer, and no message. *)
Theorem getAreaType_agrees_with_tryPath (w : NavWorld) (state : Nav2DState) :
  (negb (contains (mapArea_ (model_ w)) (getPosition state))
   || isInside contains (model_ w) (getPosition state) OBSTACLE = true <->
   getAreaType contains w (getPosition state) = OUT_OF_BOUNDS \/
   getAreaType contains w (getPosition state) = OBSTACLE) /\
  (getAreaType contains w (getPosition state) = GOAL <->
   negb (contains (mapArea_ (model_ w)) (getPosition state))
   || isInside contains (model_ w) (getPosition state) OBSTACLE = false /\
   isTerminal contains w state = true) /\
  getAreaType contains w (getPosition state) <> WORLD /\
  String.length (dispPoint (getAreaType contains w (getPosition state))).1
    = 1%nat /\
  (dispPoint (getAreaType contains w (getPosition state))).2 = ""%string.
Proof.
  unfold getAreaType, isTerminal.
  destruct (contains (mapArea_ (model_ w)) (getPosition state)); cbn [negb orb];
    [|repeat split; intros; try discriminate; auto; intuition discriminate].
  destruct (isInside contains (model_ w) (getPosition state) OBSTACLE);
    [repeat split; intros; try discriminate; auto; intuition discriminate|].
  destruct (isInside contains (model_ w) (getPosition state) GOAL);
    [repeat split; intros; try discriminate; auto; intuition discriminate|].
  destruct (isInside contains (model_ w) (getPosition state) START);
    [repeat split; intros; try discriminate; auto; intuition discriminate|].
  destruct (isInside contains (model_ w) (getPosition state) OBSERVATION);
    repeat split; intros; try discriminate; auto; intuition discriminate.
Qed.

(** The codes of [int] that [sampleAnAction] knows. *)
Lemma action_code_cases (c : Z) :
  (0 <= c < 10)%Z ->
  c = 0%Z \/ c = 1%Z \/ c = 2%Z \/ c = 3%Z \/ c = 4%Z \/ c = 5%Z \/ c = 6%Z
  \/ c = 7%Z \/ c = 8%Z \/ c = 9%Z.
Proof. lia. Qed.

(** [sampleAnAction(code)] returns an action exactly when the code, taken
    as an [int], is one of the bins 0 .. getNumberOfBins() - 1, and a null
    pointer with a message otherwise; the action carries the code, and it
    either drives or turns, never both, within the maximal speeds. *)
Theorem sampleAnAction_covers_the_bins (w : NavWorld) (code : Z) :
  ((exists a, (sampleAnAction w code).1 = Some a) <->
   (0 <= int_of_long code < getNumberOfBins)%Z) /\
  ((0 <= code < getNumberOfBins)%Z -> int_of_long code = code) /\
  (forall a, (sampleAnAction w code).1 = Some a ->
     getCode a = code /\
     (getSpeed a = 0 \/ getRotationalSpeed a = 0) /\
     (0 <= maxSpeed_ (model_ w) -> 0 <= maxRotationalSpeed_ w ->
      0 <= getSpeed a <= maxSpeed_ (model_ w) /\
      Rabs (getRotationalSpeed a) <= maxRotationalSpeed_ w)) /\
  ((sampleAnAction w code).1 = None ->
   (sampleAnAction w code).2 =
     ("ERROR: Invalid Action Code " ++ string_of_long code)%string).
Proof.
  unfold getNumberOfBins.
  split; [|split; [|split]].
  - destruct (Z_lt_dec (int_of_long code) 0) as [Hneg|Hnn].
    + unfold sampleAnAction.
      destruct (int_of_long code) as [|p|p]; try lia.
      split; [intros [a [=]] | lia].
    + destruct (Z_lt_dec (int_of_long code) 10) as [Hlt|Hge].
      * unfold sampleAnAction.
        destruct (action_code_cases (int_of_long code)) as
          [-> | [-> | [-> | [-> | [-> | [-> | [-> | [-> | [-> | ->]]]]]]]]];
          [lia | ..]; (split; [lia | intros _; eexists; reflexivity]).
      * unfold sampleAnAction.
        destruct (int_of_long code) as [|p|p]; try lia.
        do 4 (try destruct p as [p|p|]); try lia;
          (split; [intros [a [=]] | lia]).
  - intros Hc. unfold int_of_long.
    rewrite Z.mod_small by lia. lia.
  - intros a. unfold sampleAnAction.
    destruct (int_of_long code) as [|p|p]; [| |discriminate];
      [|do 4 (try destruct p as [p|p|]); try discriminate];
      intros [= <-]; cbn [getCode getSpeed getRotationalSpeed];
      (split; [reflexivity|]); (split; [auto|]);
      intros Hs Ht; (split; [lra|]);
      try rewrite Rabs_R0; try lra;
      unfold Rabs; destruct (Rcase_abs _); lra.
  - unfold sampleAnAction.
    destruct (int_of_long code) as [|p|p]; [discriminate| |reflexivity];
      do 4 (try destruct p as [p|p|]); try discriminate; reflexivity.
Qed.

(** *** Area tables *)

Lemma total_area_insert (areas : gmap Z Rectangle2D) (id : Z)
    (area : Rectangle2D) :
  areas !! id = None ->
  total_area getArea (<[id := area]> areas) =
  getArea area + total_area getArea areas.
Proof.
  intros Hfresh. unfold total_area.
  rewrite (foldr_permutation eq (fun entry total => getArea entry.2 + total) 0
             (map_to_list (<[id := area]> areas))
             ((id, area) :: map_to_list areas)).
  - reflexivity.
  - intros j1 a1 j2 a2 b _ _ _. lra.
  - now apply map_to_list_insert.
Qed.

(** [addArea] needs a type that has a table: for [EMPTY], [WORLD] and
    [OUT_OF_BOUNDS] it writes through the null pointer that [getAreas]
    returns.  For the other types it returns; the table of the type then
    holds the rectangle under the id unless the id was taken, in which case
    it keeps the rectangle it had; the other tables and the world area are
    as before. *)
Theorem addArea_needs_a_table (w : NavWorld) (id : Z) (area : Rectangle2D)
    (type : AreaType) :
  (has_table type = false ->
   addArea getArea insertData w id area type = Undef null_dereference) /\
  (has_table type = true ->
   exists w' areas,
     addArea getArea insertData w id area type = Ok w' /\
     getAreas (model_ w) type = Some areas /\
     getAreas (model_ w') type =
       Some (match areas !! id with
             | Some _ => areas
             | None => <[id := area]> areas
             end) /\
     mapArea_ (model_ w') = mapArea_ (model_ w) /\
     (forall other, other <> type ->
        getAreas (model_ w') other = getAreas (model_ w) other /\
        getTree w' other = getTree w other) /\
     getTree w' type =
       (fun tree => insertData tree area id) <$> getTree w type).
Proof.
  split; intros Ht; destruct type; try discriminate; try reflexivity;
    (do 2 eexists; split; [reflexivity|]; split; [reflexivity|];
     split; [reflexivity|]; split; [reflexivity|];
     split; [|reflexivity];
     intros []; intros Hne; try contradiction; split; reflexivity).
Qed.

(** The total start area keeps up with the table of start areas only for
    new ids: a start area whose id is taken is not stored, and its area is
    added to [totalStartArea_] all the same. *)
Theorem addArea_counts_rejected_start_areas (w w' : NavWorld) (id : Z)
    (area : Rectangle2D) :
  addArea getArea insertData w id area START = Ok w' ->
  totalStartArea_ w = total_area getArea (startAreas_ (model_ w)) ->
  (startAreas_ (model_ w) !! id = None ->
   startAreas_ (model_ w') = <[id := area]> (startAreas_ (model_ w)) /\
   totalStartArea_ w' = total_area getArea (startAreas_ (model_ w'))) /\
  (is_Some (startAreas_ (model_ w) !! id) ->
   startAreas_ (model_ w') = startAreas_ (model_ w) /\
   totalStartArea_ w' =
     total_area getArea (startAreas_ (model_ w')) + getArea area).
Proof.
  intros Hadd Hinv. cbn in Hadd. injection Hadd as <-.
  cbn [model_ totalStartArea_ setAreas startAreas_]. split.
  - intros Hfresh. rewrite Hfresh. split; [reflexivity|].
    rewrite total_area_insert by exact Hfresh. lra.
  - intros [old Hold]. rewrite Hold. split; [reflexivity|]. lra.
Qed.

(** *** Sampling an initial state *)

(** The loop finds no area exactly when the value is not below the sum of
    all areas, given that no area is negative and that the value is not
    below the running total on entry. *)
Lemma pick_start_area_none (entries : list (Z * Rectangle2D)) :
  Forall (fun entry => 0 <= getArea entry.2) entries ->
  forall areaValue areaTotal : R,
    areaTotal <= areaValue ->
    (pick_start_area getArea entries areaValue areaTotal = None <->
     areaTotal + foldr (fun entry total => getArea entry.2 + total) 0 entries
     <= areaValue).
Proof.
  induction 1 as [|entry entries Hpos Hall IH]; intros areaValue areaTotal Hle;
    cbn [pick_start_area foldr].
  - split; [intros _; lra | reflexivity].
  - destruct (Rlt_dec areaValue (areaTotal + getArea entry.2)) as [Hlt|Hge].
    + split; [discriminate|]. intros Hsum.
      assert (Hnn : 0 <= foldr (fun entry total => getArea entry.2 + total) 0
                           entries).
      { clear -Hall. induction Hall as [|e es He _ IHs]; cbn [foldr]; lra. }
      lra.
    + rewrite IH by lra. split; intros; lra.
Qed.

Lemma pick_start_area_some (entries : list (Z * Rectangle2D)) :
  forall (areaValue areaTotal : R) (area : Rectangle2D),
    pick_start_area getArea entries areaValue areaTotal = Some area ->
    exists id, (id, area) ∈ entries.
Proof.
  induction entries as [|[id r] entries IH]; intros areaValue areaTotal area;
    cbn [pick_start_area]; [discriminate|].
  destruct (Rlt_dec areaValue (areaTotal + getArea (id, r).2)).
  - intros [= <-]. exists id. left.
  - intros Hp. destruct (IH _ _ _ Hp) as [id' Hin]. exists id'. now right.
Qed.

(** [sampleAnInitState] returns a null pointer, with a message, exactly
    when the value drawn is not below the sum of the areas of the start
    rectangles; otherwise the state has heading 0 and a position drawn from
    one of the start rectangles. *)
Theorem sampleAnInitState_null_iff (w : NavWorld) (randGen : RandomGenerator) :
  (forall id r, startAreas_ (model_ w) !! id = Some r -> 0 <= getArea r) ->
  0 <= (uniform_real_distribution 0 (totalStartArea_ w) randGen).1 ->
  ((sampleAnInitState getArea sampleUniform uniform_real_distribution
      string_of_double w randGen).1.1 = None <->
   total_area getArea (startAreas_ (model_ w))
   <= (uniform_real_distribution 0 (totalStartArea_ w) randGen).1) /\
  (forall state,
     (sampleAnInitState getArea sampleUniform uniform_real_distribution
        string_of_double w randGen).1.1 = Some state ->
     getDirection state = 0 /\
     exists id r,
       startAreas_ (model_ w) !! id = Some r /\
       getPosition state =
         (sampleUniform r
            (uniform_real_distribution 0 (totalStartArea_ w) randGen).2).1).
Proof.
  intros Hpos Hvalue. unfold sampleAnInitState.
  destruct (uniform_real_distribution 0 (totalStartArea_ w) randGen)
    as [areaValue randGen1]. cbn [fst snd] in *.
  assert (Hall : Forall (fun entry => 0 <= getArea entry.2)
                   (map_to_list (startAreas_ (model_ w)))).
  { apply Forall_forall. intros [id r] Hin. apply elem_of_map_to_list in Hin.
    exact (Hpos id r Hin). }
  pose proof (pick_start_area_none _ Hall areaValue 0 Hvalue) as Hnone.
  rewrite Rplus_0_l in Hnone. fold (total_area getArea (startAreas_ (model_ w)))
    in Hnone.
  destruct (pick_start_area getArea (map_to_list (startAreas_ (model_ w)))
              areaValue 0) as [area|] eqn:Hpick.
  - destruct (sampleUniform area randGen1) as [position randGen2] eqn:Hs.
    cbn [fst snd]. split.
    + split; [discriminate|]. intros Hle. apply Hnone in Hle. discriminate.
    + intros state [= <-]. cbn [getDirection getPosition].
      split; [reflexivity|].
      destruct (pick_start_area_some _ _ _ _ Hpick) as [id Hin].
      apply elem_of_map_to_list in Hin. exists id, area.
      split; [exact Hin|]. now rewrite Hs.
  - cbn [fst snd]. split; [|discriminate].
    split; [intros _; now apply Hnone | reflexivity].
Qed.

(** *** Steps *)

(** The noise on the controls: without noise the controls are used as they
    are and no random number is drawn; with noise on the speed, the speed
    used is never negative; the absolute noise on the rotational speed is
    drawn with the standard deviation of the speed. *)
Theorem noise_on_the_controls (w : NavWorld) (control : R)
    (randGen : RandomGenerator) :
  (speedErrorType_ w = NONE ->
   applySpeedError normal_distribution w control randGen = (control, randGen)) /\
  (rotationErrorType_ w = NONE ->
   applyRotationalError normal_distribution w control randGen
   = (control, randGen)) /\
  (speedErrorType_ w <> NONE ->
   0 <= (applySpeedError normal_distribution w control randGen).1) /\
  (rotationErrorType_ w = ABSOLUTE_GAUSSIAN_NOISE ->
   applyRotationalError normal_distribution w control randGen =
   normal_distribution control (speedErrorSD_ w) randGen).
Proof.
  unfold applySpeedError, applyRotationalError. repeat split.
  - now intros ->.
  - now intros ->.
  - destruct (speedErrorType_ w); [| |congruence]; intros _.
    + destruct (normal_distribution 1 (speedErrorSD_ w) randGen) as [x g].
      cbn [fst]. destruct (Rlt_dec (x * control) 0); lra.
    + destruct (normal_distribution control (speedErrorSD_ w) randGen) as [x g].
      cbn [fst]. destruct (Rlt_dec x 0); lra.
  - now intros ->.
Qed.

(** [generateStep] is [tryPath] on the controls that the noise leaves;
    [generateNextState] draws the same numbers and gives the same state.
    When the step ends in a goal area the state returned is terminal, and
    the step has no collision; the observation is the state returned when
    it lies in an observation area, and empty otherwise; from a position
    inside the world area and outside the obstacles, the state returned is
    such a position again. *)
Theorem generateStep_follows_tryPath (w : NavWorld) (state : Nav2DState)
    (navAction : Nav2DAction) (randGen randGen1 randGen2 : RandomGenerator)
    (speed rotationalSpeed : R) :
  applySpeedError normal_distribution w (getSpeed navAction) randGen
    = (speed, randGen1) ->
  applyRotationalError normal_distribution w (getRotationalSpeed navAction)
    randGen1 = (rotationalSpeed, randGen2) ->
  exists result,
    generateStep contains normal_distribution w state navAction randGen
      = (result, randGen2) /\
    generateNextState contains normal_distribution w state navAction randGen
      = (nextState result, randGen2) /\
    action result = navAction /\
    (nextState result, reward result)
      = tryPath contains (model_ w) state speed rotationalSpeed /\
    isTerminal_ result = isTerminal contains w (nextState result) /\
    (inGoal (tryPath_progress contains (model_ w) state speed rotationalSpeed)
       = true ->
     isTerminal_ result = true /\
     hasCollision
       (tryPath_progress contains (model_ w) state speed rotationalSpeed)
       = false) /\
    (observation result = ObservationOf (nextState result) <->
     isInside contains (model_ w) (getPosition (nextState result)) OBSERVATION
       = true) /\
    (observation result = EmptyObservation <->
     isInside contains (model_ w) (getPosition (nextState result)) OBSERVATION
       = false) /\
    (contains (mapArea_ (model_ w)) (getPosition state) = true ->
     isInside contains (model_ w) (getPosition state) OBSTACLE = false ->
     contains (mapArea_ (model_ w)) (getPosition (nextState result)) = true /\
     isInside contains (model_ w) (getPosition (nextState result)) OBSTACLE
       = false).
Proof.
  intros Hspeed Hturn. unfold generateStep, generateNextState.
  rewrite Hspeed, Hturn.
  destruct (tryPath contains (model_ w) state speed rotationalSpeed)
    as [next stepReward] eqn:Hpath.
  eexists. split; [reflexivity|].
  cbn [nextState action reward isTerminal_ observation fst].
  split; [reflexivity|]. split; [reflexivity|]. split; [reflexivity|].
  split; [reflexivity|].
  assert (Hnext : getPosition next =
                  currentPosition
                    (tryPath_progress contains (model_ w) state speed
                       rotationalSpeed)).
  { rewrite <- tryPath_position. now rewrite Hpath. }
  split; [|split; [|split]].
  - intros Hgoal. unfold isTerminal. rewrite Hnext.
    unfold tryPath_progress in *.
    match goal with
    | |- context [interpolate contains ?m ?p ?d ?v ?r ?t ?c ?n ?s ?cur] =>
        destruct (interpolate_exit contains m p d v r t c n s cur)
          as [_ Hflags]
    end.
    cbn zeta in Hflags. cbn [inGoal hasCollision] in Hflags.
    exact (proj1 (Hflags eq_refl eq_refl) Hgoal).
  - unfold generateObservation.
    destruct (isInside contains (model_ w) (getPosition next) OBSERVATION);
      split; intros; try discriminate; reflexivity.
  - unfold generateObservation.
    destruct (isInside contains (model_ w) (getPosition next) OBSERVATION);
      split; intros; try discriminate; reflexivity.
  - intros Hmap Hobs. rewrite Hnext.
    now apply tryPath_progress_clear.
Qed.

(** *** The map file and the changes *)

Variable Rectangle2D_default : Rectangle2D.
Variable read_Rectangle2D : istream -> Rectangle2D -> istream * Rectangle2D.
Variable write_Rectangle2D : Rectangle2D -> string.
Context {StatePool : Type}.
Variable boxQuery : StatePool -> ChangeFlags -> Rectangle2D -> StatePool.

Abbreviation read_map_line' :=
  (read_map_line getArea insertData Rectangle2D_default read_Rectangle2D).
Abbreviation read_map' :=
  (read_map getArea insertData Rectangle2D_default read_Rectangle2D).
Abbreviation update' := (update getArea insertData write_Rectangle2D boxQuery).
Abbreviation apply_changes' :=
  (apply_changes getArea insertData write_Rectangle2D boxQuery).

(** A line that the loop of the constructor gets over starts with the name
    of the world or of a type that has a table. *)
Lemma read_map_line_keyword (w w' : NavWorld) (line cerr0 cerr' : string) :
  read_map_line' w line cerr0 = Ok (w', cerr') ->
  map_keyword (Nav2DChanges.first_word line).
Proof.
  unfold read_map_line, Nav2DChanges.first_word.
  destruct (read_string (istringstream line) "") as [iss typeString].
  destruct (read_long iss None) as [iss1 id].
  destruct (read_Rectangle2D iss1 Rectangle2D_default) as [iss2 rect].
  cbn [snd]. intros Hline. apply parseAreaType_keyword.
  destruct (Nav2DChanges.parseAreaType typeString) as [areaType message].
  cbn [fst]. destruct areaType; auto;
    apply CxxFacts.bind_Ok in Hline as (i & _ & Hline);
    apply CxxFacts.bind_Ok in Hline as (w1 & Hadd & _);
    solve [discriminate Hadd | right; reflexivity].
Qed.

Lemma read_map_keywords (lines : list string) :
  forall (fuel : nat) (line : string) (w w' : NavWorld) (cerr0 cerr' : string),
    Forall Nav2DChanges.one_line lines ->
    (length lines < fuel)%nat ->
    read_map' fuel (istringstream (Nav2DChanges.text_of_lines lines)) line w
      cerr0 = Ok (w', cerr') ->
    Forall (fun l => map_keyword (Nav2DChanges.first_word l)) lines.
Proof.
  induction lines as [|l lines IH];
    intros fuel line w w' cerr0 cerr' Hlines Hfuel Hread; [constructor|].
  destruct fuel as [|fuel]; [cbn in Hfuel; lia|].
  apply Forall_cons in Hlines as [Hl Hlines].
  cbn [Nav2DChanges.text_of_lines foldr read_map] in Hread.
  fold (Nav2DChanges.text_of_lines lines) in Hread.
  rewrite (getline_line l _ _ Hl) in Hread. cbn [failbit istringstream] in Hread.
  apply CxxFacts.bind_Ok in Hread as ([w1 cerr1] & Hline & Hread).
  constructor.
  - eapply read_map_line_keyword; eauto.
  - eapply (IH fuel); [exact Hlines | cbn in Hfuel; lia | exact Hread].
Qed.

Lemma text_of_lines_length (lines : list string) :
  (length lines <= String.length (Nav2DChanges.text_of_lines lines))%nat.
Proof.
  induction lines as [|l lines IH]; [cbn; lia|].
  cbn [Nav2DChanges.text_of_lines foldr length].
  fold (Nav2DChanges.text_of_lines lines).
  rewrite !length_append. unfold endl. cbn [String.length]. lia.
Qed.

(** The constructor gets through the map file only if every line starts
    with [World], [Start], [Observation], [Goal] or [Obstacle]: any other
    line, an empty one included, makes [addArea] write through a null
    pointer, or passes it an [id] that was never read. *)
Theorem load_map_needs_keywords (lines : list string) (w w' : NavWorld)
    (cerr0 cerr' : string) :
  Forall Nav2DChanges.one_line lines ->
  load_map getArea insertData Rectangle2D_default read_Rectangle2D
    (Nav2DChanges.text_of_lines lines) w cerr0 = Ok (w', cerr') ->
  Forall (fun l => map_keyword (Nav2DChanges.first_word l)) lines.
Proof.
  intros Hlines Hload. unfold load_map in Hload.
  eapply read_map_keywords; [exact Hlines | | exact Hload].
  pose proof (text_of_lines_length lines). lia.
Qed.

(** The flag that [update] has the states in the area of a change marked
    with. *)
Lemma apply_changes_Ok (changes : list (Nav2DChanges.Nav2DChange Rectangle2D)) :
  forall (w w' : NavWorld) (pool pool' : StatePool) (cout cout' : string),
    apply_changes' changes w pool cout = Ok (w', pool', cout') ->
    Forall (fun c => is_Some (Nav2DChanges.id c)
                     /\ has_table (Nav2DChanges.type c) = true) changes /\
    pool' =
      foldl (fun pool c =>
               boxQuery pool
                 (match Nav2DChanges.type c with
                  | OBSERVATION => OBSERVATION_BEFORE
                  | _ => DELETED
                  end) (Nav2DChanges.area c)) pool changes.
Proof.
  induction changes as [|c changes IH]; intros w w' pool pool' cout cout' Hrun.
  - injection Hrun as <- <- <-. split; [constructor | reflexivity].
  - cbn [apply_changes] in Hrun.
    apply CxxFacts.bind_Ok in Hrun as (i & Hid & Hrun).
    apply CxxFacts.bind_Ok in Hrun as (w1 & Hadd & Hrun).
    destruct (IH _ _ _ _ _ _ Hrun) as [Hall ->].
    split; [|reflexivity]. constructor; [|exact Hall]. split.
    + destruct (Nav2DChanges.id c); [eauto | discriminate].
    + destruct (Nav2DChanges.type c); try reflexivity; discriminate.
Qed.

(** [update(time, pool)] returns only if every change of the time has an id
    that was read and a type with a table; it then has the states in the
    area of each change flagged, as [OBSERVATION_BEFORE] for an observation
    area and as [DELETED] for any other.  For a time without changes it
    does nothing but make an empty entry for the time in [changes_]. *)
Theorem update_needs_table_types (w : NavWorld)
    (changes : gmap Z (list (Nav2DChanges.Nav2DChange Rectangle2D)))
    (time : Z) (pool : StatePool) (cout : string) :
  (forall w' changes' pool' cout',
      update' w changes time pool cout = Ok (w', changes', pool', cout') ->
      changes' = <[time := default [] (changes !! time)]> changes /\
      Forall (fun c => is_Some (Nav2DChanges.id c)
                       /\ has_table (Nav2DChanges.type c) = true)
        (default [] (changes !! time)) /\
      pool' =
        foldl (fun pool c =>
                 boxQuery pool
                   (match Nav2DChanges.type c with
                    | OBSERVATION => OBSERVATION_BEFORE
                    | _ => DELETED
                    end) (Nav2DChanges.area c)) pool
          (default [] (changes !! time))) /\
  (changes !! time = None ->
   update' w changes time pool cout = Ok (w, <[time := []]> changes, pool, cout)).
Proof.
  split.
  - intros w' changes' pool' cout' Hrun. unfold update in Hrun.
    apply CxxFacts.bind_Ok in Hrun as ([[w1 pool1] cout1] & Happly & Hrun).
    injection Hrun as <- <- <- <-.
    split; [reflexivity|]. eapply apply_changes_Ok; eauto.
  - intros Hnone. unfold update. rewrite Hnone. reflexivity.
Qed.

(** The words that [operator>>] reads from a line. *)
Lemma take_word_word (word rest : string) :
  (forall c, In c (list_ascii_of_string word) -> isspace c = false) ->
  take_word (word ++ String " " rest) = (word, String " " rest).
Proof.
  induction word as [|c word IH]; intros Hword; [reflexivity|].
  rewrite append_cons. cbn [take_word].
  rewrite (Hword c) by now left.
  rewrite IH; [reflexivity|]. intros c' Hin. apply Hword. now right.
Qed.

(** A typing error in the change file surfaces in [update]: a line
    [ADD <word> ...] whose word is no name of a type with a table is stored
    by [loadChanges] as a change, of type [EMPTY] when the word is no name
    at all, and [update] at the time of that change does not return. *)
Theorem unknown_area_type_breaks_update (word rest : string) :
  word <> ""%string ->
  (forall c, In c (list_ascii_of_string word) -> isspace c = false) ->
  has_table (Nav2DChanges.parseAreaType word).1 = false ->
  exists change,
    (Nav2DChanges.read_change Rectangle2D_default read_Rectangle2D
       ("ADD " ++ word ++ " " ++ rest)).1 = Some change /\
    Nav2DChanges.type change = (Nav2DChanges.parseAreaType word).1 /\
    forall (w : NavWorld) others changes time (pool : StatePool) cout,
      changes !! time = Some (change :: others) ->
      exists u, update' w changes time pool cout = Undef u.
Proof.
  intros Hne Hword Htable. unfold Nav2DChanges.read_change.
  assert (H1 : forall X,
    read_string (istringstream ("ADD " ++ X)) "" = (istringstream (" " ++ X), "ADD"%string))
    by reflexivity.
  rewrite H1. cbn [String.eqb negb].
  change (String.eqb "ADD" "ADD") with true. cbn [negb].
  assert (H2 : read_string (istringstream (" " ++ word ++ " " ++ rest)) ""
               = (istringstream (" " ++ rest), word)).
  { unfold read_string, sentry, istringstream.
    cbn [good buffer eofbit failbit negb andb].
    rewrite !append_cons, !append_nil.
    change (skip_spaces (String " " (word ++ String " " rest)))
      with (skip_spaces (word ++ String " " rest)).
    destruct word as [|c word]; [congruence|].
    rewrite append_cons. cbn [skip_spaces].
    rewrite (Hword c) by now left.
    cbn [buffer]. rewrite <- append_cons, take_word_word by exact Hword.
    reflexivity. }
  rewrite H2.
  destruct (Nav2DChanges.parseAreaType word) as [ty warning] eqn:Hparse.
  destruct (read_long (istringstream (" " ++ rest)) None) as [s2 change_id].
  destruct (read_Rectangle2D s2 Rectangle2D_default) as [s3 change_area].
  cbn [fst snd] in *. eexists. split; [reflexivity|].
  cbn [Nav2DChanges.type]. split; [reflexivity|].
  intros w others changes time pool cout Hchanges.
  unfold update. rewrite Hchanges. simpl (default _ _).
  cbn [apply_changes Nav2DChanges.id Nav2DChanges.type Nav2DChanges.area].
  destruct change_id as [i|]; cbn [use bind]; [|eauto].
  assert (Hadd : addArea getArea insertData w i change_area ty
                 = Undef null_dereference).
  { destruct ty; try discriminate Htable; reflexivity. }
  rewrite Hadd. cbn [bind]. eauto.
Qed.

End WorldFacts.

#[local] Existing Instance Example.rounded_vectors.

(** *** The theorems in the worlds of [Example] *)

Lemma addArea_counts_rejected_start_areas_witness :
  startAreas_ (model_ Example.started_twice)
    = startAreas_ (model_ Example.started_world) /\
  totalStartArea_ Example.started_twice
    = total_area Example.rect_area (startAreas_ (model_ Example.started_twice))
      + Example.rect_area Example.world.
Proof.
  refine (proj2 (addArea_counts_rejected_start_areas Example.rect_area
                   Example.tree_insert Example.started_world
                   Example.started_twice 1 Example.world eq_refl _)
            (ex_intro _ Example.unit_square eq_refl)).
  unfold total_area.
  cbn [Example.started_world Example.quiet_world model_ totalStartArea_
       Example.started_field startAreas_].
  rewrite map_to_list_singleton. cbn [foldr snd]. lra.
Defined.

Lemma sampleAnInitState_null_iff_witness :
  (sampleAnInitState Example.rect_area Example.sample_corner Example.draw_lower
     Example.print_real Example.started_world 0%nat).1.1 = None <->
  total_area Example.rect_area (startAreas_ (model_ Example.started_world))
  <= (Example.draw_lower 0 (totalStartArea_ Example.started_world) 0%nat).1.
Proof.
  refine (proj1 (sampleAnInitState_null_iff Example.rect_area
                   Example.sample_corner Example.draw_lower Example.print_real
                   Example.started_world 0%nat _ _)).
  - intros id r Hl. cbn in Hl. apply lookup_singleton_Some in Hl as [_ <-].
    unfold Example.rect_area. cbn. lra.
  - cbn. lra.
Defined.

Lemma generateStep_follows_tryPath_witness :
  exists result,
    generateStep Example.rect_contains Example.draw_mean Example.open_world
      Example.at_origin
      {| getCode := 2; getSpeed := 1; getRotationalSpeed := 0 |} 0%nat
      = (result, 0%nat) /\
    generateNextState Example.rect_contains Example.draw_mean Example.open_world
      Example.at_origin
      {| getCode := 2; getSpeed := 1; getRotationalSpeed := 0 |} 0%nat
      = (nextState result, 0%nat).
Proof.
  destruct (generateStep_follows_tryPath Example.rect_contains
              Example.draw_mean Example.open_world Example.at_origin
              {| getCode := 2; getSpeed := 1; getRotationalSpeed := 0 |}
              0%nat 0%nat 0%nat 1 0 eq_refl eq_refl)
    as (result & Hstep & Hnext & _).
  exists result. exact (conj Hstep Hnext).
Defined.

Lemma small_map_loads :
  exists w' cerr',
    load_map Example.text_area Example.tree_insert ""%string Example.read_rest
      (Nav2DChanges.text_of_lines Example.small_map) Example.text_world ""
    = Ok (w', cerr').
Proof. do 2 eexists. vm_compute. reflexivity. Qed.

Lemma small_map_one_line : Forall Nav2DChanges.one_line Example.small_map.
Proof.
  repeat constructor; intros c Hin; cbn in Hin; intuition (subst; discriminate).
Qed.

Lemma load_map_needs_keywords_witness :
  Forall (fun l => map_keyword (Nav2DChanges.first_word l)) Example.small_map.
Proof.
  destruct small_map_loads as (w' & cerr' & Hload).
  exact (load_map_needs_keywords Example.text_area Example.tree_insert
           ""%string Example.read_rest Example.small_map Example.text_world w'
           ""%string cerr' small_map_one_line Hload).
Defined.

Lemma unknown_area_type_breaks_update_witness :
  exists change,
    (Nav2DChanges.read_change ""%string Example.read_rest
       ("ADD " ++ "Wall" ++ " " ++ "1 0 0 1 1")).1 = Some change /\
    Nav2DChanges.type change = (Nav2DChanges.parseAreaType "Wall").1 /\
    forall (w : World string (list Z)) others changes time (pool : nat) cout,
      changes !! time = Some (change :: others) ->
      exists u,
        update Example.text_area Example.tree_insert (fun r : string => r)
          (fun (pool : nat) (_ : ChangeFlags) (_ : string) => S pool)
          w changes time pool cout = Undef u.
Proof.
  apply (unknown_area_type_breaks_update Example.text_area Example.tree_insert
           ""%string Example.read_rest (fun r : string => r)
           (fun (pool : nat) (_ : ChangeFlags) (_ : string) => S pool)
           "Wall" "1 0 0 1 1").
  - discriminate.
  - intros c Hin. cbn in Hin.
    repeat (destruct Hin as [<- | Hin]; [reflexivity|]). destruct Hin.
  - reflexivity.
Defined.

Lemma goal_change_updates :
  exists w' changes' pool' cout',
    update Example.text_area Example.tree_insert (fun r : string => r)
      (fun (pool : nat) (_ : ChangeFlags) (_ : string) => S pool)
      Example.text_world {[ 3%Z := [Example.goal_change] ]} 3 0%nat ""
    = Ok (w', changes', pool', cout').
Proof. do 4 eexists. vm_compute. reflexivity. Qed.

Lemma update_needs_table_types_witness :
  Forall (fun c : Nav2DChanges.Nav2DChange string =>
            is_Some (Nav2DChanges.id c)
            /\ has_table (Nav2DChanges.type c) = true)
    (default []
       (({[ 3%Z := [Example.goal_change] ]}
         : gmap Z (list (Nav2DChanges.Nav2DChange string))) !! 3%Z)).
Proof.
  destruct goal_change_updates as (w' & changes' & pool' & cout' & Hrun).
  exact (proj1 (proj2 (proj1 (update_needs_table_types Example.text_area
                                Example.tree_insert (fun r : string => r)
                                (fun (pool : nat) (_ : ChangeFlags)
                                     (_ : string) => S pool)
                                Example.text_world
                                {[ 3%Z := [Example.goal_change] ]} 3 0%nat "")
                         w' changes' pool' cout' Hrun))).
Defined.

End Nav2DWorldFacts.
